(** * income_predictor: record cleaning, classifier construction, evaluation

    A shallow embedding of [income_predictor.py] (functions [get_data],
    [create_classifier] and [test_classifier]) together with the properties
    its specification states about them.

    Conventions of the embedding.
    - A Python [str] is a [string]; a character is its code point, so the
      embedding covers the code points 0..255 (ASCII and Latin-1).
    - A Python [int] is a [Z].
    - A Python [float] is an IEEE 754 binary64 value, see [Module B64].
    - A Python exception is a constructor of [exn]; a computation that may
      raise returns a [result]. *)

From Stdlib Require Import ZArith List String Ascii Bool Lia Arith Permutation.
From Stdlib Require SpecFloat.
Import ListNotations.

Open Scope string_scope.
Open Scope list_scope.
Open Scope nat_scope.

(* ================================================================= *)
(** ** Exceptions *)

Inductive exn : Type :=
| IndexError
| ValueError
| ZeroDivisionError
| OverflowError.

Inductive result (A : Type) : Type :=
| Ok (a : A)
| Raise (e : exn).

Arguments Ok {A} a.
Arguments Raise {A} e.

Definition bind {A B : Type} (c : result A) (k : A -> result B) : result B :=
  match c with
  | Ok a => k a
  | Raise e => Raise e
  end.

Notation "x <- c ;; k" := (bind c (fun x => k))
  (at level 61, c at next level, right associativity).
Notation "' pat <- c ;; k" := (bind c (fun x => match x with pat => k end))
  (at level 61, pat pattern, c at next level, right associativity).

(** [for x in xs: st = body(st, x)], leaving the loop at the first exception. *)
Fixpoint for_each {S A : Type} (body : S -> A -> result S) (xs : list A) (st : S)
  : result S :=
  match xs with
  | [] => Ok st
  | x :: xs' => st' <- body st x ;; for_each body xs' st'
  end.

(** [[f(x) for x in xs]], evaluated left to right. *)
Fixpoint map_result {A B : Type} (f : A -> result B) (xs : list A)
  : result (list B) :=
  match xs with
  | [] => Ok []
  | x :: xs' => y <- f x ;; ys <- map_result f xs' ;; Ok (y :: ys)
  end.

(* ================================================================= *)
(** ** Strings *)

Definition code (c : ascii) : nat := nat_of_ascii c.

(** Characters for which [str.isspace] holds: the white space of
    [str.strip]. *)
Definition isspace (c : ascii) : bool :=
  let n := code c in
  (((9 <=? n) && (n <=? 13)) || ((28 <=? n) && (n <=? 31))
   || (n =? 32) || (n =? 133) || (n =? 160))%nat.

(** The white space that [int] accepts around a number: the ASCII
    white space of C, and the non-ASCII white space. *)
Definition is_int_space (c : ascii) : bool :=
  let n := code c in
  (((9 <=? n) && (n <=? 13)) || (n =? 32) || (n =? 133) || (n =? 160))%nat.

Definition is_decimal (c : ascii) : bool :=
  let n := code c in ((48 <=? n) && (n <=? 57))%nat.

(** Characters with a Unicode numeric value: the decimal digits, the
    superscripts two, three and one (178, 179, 185) and the vulgar
    fractions (188, 189, 190). *)
Definition is_numeric_char (c : ascii) : bool :=
  let n := code c in
  (is_decimal c || (n =? 178) || (n =? 179) || (n =? 185)
   || ((188 <=? n) && (n <=? 190)))%nat.

Fixpoint all_chars (p : ascii -> bool) (s : string) : bool :=
  match s with
  | EmptyString => true
  | String c t => p c && all_chars p t
  end.

(** [s.isnumeric()]: at least one character, and all of them numeric. *)
Definition isnumeric (s : string) : bool :=
  match s with
  | EmptyString => false
  | String _ _ => all_chars is_numeric_char s
  end.

(** [c in s] for a one-character string [c]. *)
Fixpoint contains_char (c : ascii) (s : string) : bool :=
  match s with
  | EmptyString => false
  | String d t => Ascii.eqb d c || contains_char c t
  end.

(** [s.split(sep)] for a one-character separator. *)
Fixpoint split (sep : ascii) (s : string) : list string :=
  match s with
  | EmptyString => [EmptyString]
  | String c t =>
      if Ascii.eqb c sep then EmptyString :: split sep t
      else match split sep t with
           | h :: r => String c h :: r
           | [] => [String c EmptyString]
           end
  end.

(** Removal of the leading, and of the trailing, characters that satisfy
    [p]. *)
Fixpoint lstrip_with (p : ascii -> bool) (s : string) : string :=
  match s with
  | EmptyString => EmptyString
  | String c t => if p c then lstrip_with p t else s
  end.

Fixpoint rstrip_with (p : ascii -> bool) (s : string) : string :=
  match s with
  | EmptyString => EmptyString
  | String c t =>
      match rstrip_with p t with
      | EmptyString => if p c then EmptyString else String c EmptyString
      | t' => String c t'
      end
  end.

Definition strip_with (p : ascii -> bool) (s : string) : string :=
  rstrip_with p (lstrip_with p s).

(** [s.strip()]. *)
Definition strip (s : string) : string := strip_with isspace s.

(** [s.replace(old, new)] for a non-empty [old]: occurrences are found left
    to right and do not overlap.  [skip] counts the characters of a matched
    occurrence that are still to be passed over. *)
Fixpoint replace_from (old new : string) (skip : nat) (s : string) : string :=
  match s with
  | EmptyString => EmptyString
  | String c t =>
      match skip with
      | S k => replace_from old new k t
      | O =>
          if String.prefix old s
          then new ++ replace_from old new (String.length old - 1) t
          else String c (replace_from old new 0 t)
      end
  end.

Definition replace (old new s : string) : string := replace_from old new 0 s.

(** *** [int(s)] *)

Definition digit_value (c : ascii) : Z := Z.of_nat (code c - 48).

(** Digits after the first one; single underscores may separate digits. *)
Fixpoint digits_loop (acc : Z) (after_underscore : bool) (s : string) : option Z :=
  match s with
  | EmptyString => if after_underscore then None else Some acc
  | String c t =>
      if is_decimal c then digits_loop (10 * acc + digit_value c) false t
      else if Ascii.eqb c "_" && negb after_underscore then digits_loop acc true t
      else None
  end.

Definition parse_decimal (s : string) : option Z :=
  match s with
  | String c t => if is_decimal c then digits_loop (digit_value c) false t else None
  | EmptyString => None
  end.

Definition parse_int (s : string) : option Z :=
  match strip_with is_int_space s with
  | String c t =>
      if Ascii.eqb c "+" then parse_decimal t
      else if Ascii.eqb c "-" then option_map Z.opp (parse_decimal t)
      else parse_decimal (String c t)
  | EmptyString => None
  end.

(** The number of decimal digits in [s]. *)
Fixpoint count_digits (s : string) : nat :=
  match s with
  | EmptyString => 0
  | String c t => (if is_decimal c then 1 else 0) + count_digits t
  end.

(** [sys.get_int_max_str_digits()] as the interpreter starts: the program
    never changes it. *)
Definition int_max_str_digits : nat := 4300.

(** [int(s)]: surrounding white space, an optional sign, decimal digits
    with single underscores between them; anything else raises
    [ValueError], and so does a text of more than [int_max_str_digits]
    digits, whatever their value (leading zeros count, underscores do
    not).  Below that limit the integers are unbounded. *)
Definition int (s : string) : result Z :=
  match parse_int s with
  | Some z => if count_digits s <=? int_max_str_digits then Ok z else Raise ValueError
  | None => Raise ValueError
  end.

(* ================================================================= *)
(** ** Lists *)

(** [l[i]] for [i >= 0]. *)
Definition index {A : Type} (l : list A) (i : nat) : result A :=
  match nth_error l i with
  | Some x => Ok x
  | None => Raise IndexError
  end.

(** [l[-1]]. *)
Definition last_item {A : Type} (l : list A) : result A :=
  match rev l with
  | x :: _ => Ok x
  | [] => Raise IndexError
  end.

(** [l[i::k]] for [k >= 1]: [wait] counts the elements to pass over before
    the next one is taken. *)
Fixpoint stride {A : Type} (k : nat) (wait : nat) (l : list A) : list A :=
  match l with
  | [] => []
  | x :: t =>
      match wait with
      | O => x :: stride k (k - 1) t
      | S w => stride k w t
      end
  end.

Definition slice_step {A : Type} (i k : nat) (l : list A) : list A := stride k i l.

(** [sum(l)] on integers. *)
Definition sum (l : list Z) : Z := fold_left Z.add l 0%Z.

(** [l.count(v)] on strings. *)
Definition count (v : string) (l : list string) : nat :=
  List.length (filter (String.eqb v) l).

(** [v in l] on strings. *)
Definition mem (v : string) (l : list string) : bool := existsb (String.eqb v) l.

(** [del l[a:b]] for [0 <= a <= b]: never raises. *)
Definition del_slice {A : Type} (a b : nat) (l : list A) : list A :=
  firstn a l ++ skipn b l.

(** [del l[i]] for [i >= 0]. *)
Definition del_item {A : Type} (i : nat) (l : list A) : result (list A) :=
  if (i <? List.length l)%nat then Ok (firstn i l ++ skipn (S i) l) else Raise IndexError.

(* ================================================================= *)
(** ** Floating point: IEEE 754 binary64, round to nearest even *)

Module B64.

Local Open Scope Z_scope.

(** Every finite binary64 value is an integer multiple of [2^-1074], the
    spacing of the subnormal numbers.  A finite value is kept as its sign
    and its magnitude counted in that unit, so [Fin false U] is [1.0]; the
    values of the format are the magnitudes below [2^2098] (that is, below
    [2^1024]) that need at most 53 significant bits. *)
Definition U : Z := 2 ^ 1074.

Definition overflow_from : Z := 2 ^ 2098.

Inductive float : Type :=
| Fin (neg : bool) (mag : Z)
| Inf (neg : bool)
| NaN.

Definition signed (neg : bool) (mag : Z) : Z := if neg then - mag else mag.

(** The integer nearest to [a / b], ties to even ([0 <= a], [0 < b]). *)
Definition rne_div (a b : Z) : Z :=
  let q := a / b in
  let r := a mod b in
  match 2 * r ?= b with
  | Lt => q
  | Gt => q + 1
  | Eq => if Z.even q then q else q + 1
  end.

(** Number of low bits a value of [a / b] units cannot keep: none below
    [2^53] units, otherwise what exceeds 53 significant bits. *)
Definition shift (a b : Z) : Z := Z.max 0 (Z.log2 (a / b) - 52).

(** Magnitude nearest to [a / b] units among those with 53 significant
    bits (exponent unbounded above). *)
Definition round_mag (a b : Z) : Z :=
  let g := shift a b in rne_div a (b * 2 ^ g) * 2 ^ g.

(** Correct rounding of [(-1)^neg * a / b] units; overflow gives infinity. *)
Definition round (neg : bool) (a b : Z) : float :=
  let m := round_mag a b in
  if m <? overflow_from then Fin neg m else Inf neg.

Definition fneg (x : float) : float :=
  match x with
  | Fin s a => Fin (negb s) a
  | Inf s => Inf (negb s)
  | NaN => NaN
  end.

(** [abs(x)]. *)
Definition fabs (x : float) : float :=
  match x with
  | Fin _ a => Fin false a
  | Inf _ => Inf false
  | NaN => NaN
  end.

(** [x + y]. *)
Definition fadd (x y : float) : float :=
  match x, y with
  | NaN, _ | _, NaN => NaN
  | Inf s, Inf t => if Bool.eqb s t then Inf s else NaN
  | Inf s, Fin _ _ => Inf s
  | Fin _ _, Inf t => Inf t
  | Fin s a, Fin t b =>
      let z := signed s a + signed t b in
      if z =? 0 then Fin (s && t) 0 else round (z <? 0) (Z.abs z) 1
  end.

(** [x - y]. *)
Definition fsub (x y : float) : float := fadd x (fneg y).

(** [x * y]. *)
Definition fmul (x y : float) : float :=
  match x, y with
  | NaN, _ | _, NaN => NaN
  | Inf s, Inf t => Inf (xorb s t)
  | Inf s, Fin t b => if b =? 0 then NaN else Inf (xorb s t)
  | Fin s a, Inf t => if a =? 0 then NaN else Inf (xorb s t)
  | Fin s a, Fin t b => round (xorb s t) (a * b) U
  end.

(** [x / y] on floats: a zero divisor raises. *)
Definition fdiv (x y : float) : result float :=
  match x, y with
  | _, Fin _ 0 => Raise ZeroDivisionError
  | NaN, _ | _, NaN => Ok NaN
  | Inf _, Inf _ => Ok NaN
  | Inf s, Fin t _ => Ok (Inf (xorb s t))
  | Fin s _, Inf t => Ok (Fin (xorb s t) 0)
  | Fin s a, Fin t b => Ok (round (xorb s t) (a * U) b)
  end.

(** [a / b] on integers: the quotient is rounded once, from its exact
    value; a quotient too large for a float raises. *)
Definition true_divide (a b : Z) : result float :=
  if b =? 0 then Raise ZeroDivisionError
  else match round (xorb (a <? 0) (b <? 0)) (Z.abs a * U) (Z.abs b) with
       | Inf _ => Raise OverflowError
       | q => Ok q
       end.

(** [float(z)], the conversion applied to an integer operand of a float
    operation. *)
Definition of_int (z : Z) : result float :=
  match round (z <? 0) (Z.abs z * U) 1 with
  | Inf _ => Raise OverflowError
  | f => Ok f
  end.

(** [x < y]. *)
Definition flt (x y : float) : bool :=
  match x, y with
  | NaN, _ | _, NaN => false
  | Inf s, Inf t => s && negb t
  | Inf s, Fin _ _ => s
  | Fin _ _, Inf t => negb t
  | Fin s a, Fin t b => signed s a <? signed t b
  end.

(** [x > y]. *)
Definition fgt (x y : float) : bool := flt y x.

(** [x <= y]. *)
Definition fle (x y : float) : bool :=
  match x, y with
  | NaN, _ | _, NaN => false
  | Inf s, Inf t => s || negb t
  | Inf s, Fin _ _ => s
  | Fin _ _, Inf t => negb t
  | Fin s a, Fin t b => signed s a <=? signed t b
  end.

(** [z > x] for an integer [z] and a float [x]: the comparison is exact. *)
Definition int_gt (z : Z) (x : float) : bool :=
  match x with
  | NaN => false
  | Inf s => s
  | Fin s a => signed s a <? z * U
  end.

(** [round(x, ndigits)] for [0 <= ndigits <= 323]: the decimal with
    [ndigits] fractional digits nearest to the exact value of [x] (ties to
    even), converted back to the nearest float. *)
Definition round_ndigits (x : float) (ndigits : nat) : result float :=
  match x with
  | Fin s a =>
      let p := 10 ^ Z.of_nat ndigits in
      match round s (rne_div (a * p) U * U) p with
      | Inf _ => Raise OverflowError
      | r => Ok r
      end
  | _ => Ok x
  end.

(** The float of a small integer constant, which is exact. *)
Definition const (z : Z) : float := Fin (z <? 0) (Z.abs z * U).

(** The value of a binary64 given by its sign, mantissa and exponent. *)
Definition of_spec (x : SpecFloat.spec_float) : float :=
  match x with
  | SpecFloat.S754_zero s => Fin s 0
  | SpecFloat.S754_infinity s => Inf s
  | SpecFloat.S754_nan => NaN
  | SpecFloat.S754_finite s m e => Fin s (Z.pos m * 2 ^ (e + 1074))
  end.

(** The float nearest to a dyadic number [m * 2^e], as a binary64 of the
    library. *)
Definition spec_of (m : positive) (e : Z) : SpecFloat.spec_float :=
  SpecFloat.binary_normalize 53 1024 (Z.pos m) e false.

End B64.

Import B64.

(* ================================================================= *)
(** ** [get_data]: the record cleaner *)

Definition newline : ascii := "010"%char.

(** The local variables of [get_data] that the loop updates, and the lines
    written by [print]. *)
Record cleaner : Type := mk_cleaner {
  cleaned_dataset : list (list string);
  bad_records : nat;
  printed : list string
}.

Definition cleaner_init : cleaner := mk_cleaner [] 0 [].

(** Lines 73-76 and the handler at lines 80-83, for the list of fields
    [record] of a row.  The [try] body can raise [ValueError] only at
    [raise ValueError("Empty Record")], when [record] is the empty list;
    the handler then counts the record and prints [record[0]], which is
    evaluated on that same list.  Any other exception leaves the loop. *)
Definition clean_fields (st : cleaner) (record : list string) : result cleaner :=
  match record with
  | [] =>
      let st := mk_cleaner (cleaned_dataset st) (bad_records st + 1) (printed st) in
      first <- index record 0 ;;
      Ok (mk_cleaner (cleaned_dataset st) (bad_records st)
            (printed st ++ [("Record " ++ first ++ " rejected: Empty Record")%string]))
  | _ :: _ =>
      record <- del_item 11 (del_slice 2 4 record) ;;
      Ok (mk_cleaner (cleaned_dataset st ++ [record]) (bad_records st) (printed st))
  end.

(** One iteration of [for record in data] (lines 69-83): a row with the
    marker is passed over by [continue]. *)
Definition clean_record (st : cleaner) (record : string) : result cleaner :=
  if contains_char "?"%char record then Ok st
  else clean_fields st (split ","%char record).

(** [data.replace(', ', ',').replace(' ,', ',').strip().split('\n')]. *)
Definition lines_of (data : string) : list string :=
  split newline (strip (replace " ," "," (replace ", " "," data))).

Definition clean_lines (data : list string) (st : cleaner) : result cleaner :=
  for_each clean_record data st.

Definition get_data (data : string) : result (list (list string)) :=
  st <- clean_lines (lines_of data) cleaner_init ;;
  Ok (cleaned_dataset st).

(* ================================================================= *)
(** ** [create_classifier]: the classifier builder *)

(** ['pos'], ['neg'] and ['neutral']. *)
Inductive sentiment : Type := Positive | Negative | Neutral.

(** A [dict] from strings to sentiments, in insertion order. *)
Definition dict : Type := list (string * sentiment).

Fixpoint dict_set (d : dict) (k : string) (v : sentiment) : dict :=
  match d with
  | [] => [(k, v)]
  | (k', v') :: d' =>
      if String.eqb k' k then (k, v) :: d' else (k', v') :: dict_set d' k v
  end.

(** [dict(pairs)]. *)
Definition dict_of (pairs : list (string * sentiment)) : dict :=
  fold_left (fun d kv => dict_set d (fst kv) (snd kv)) pairs [].

(** [d.get(k)]. *)
Fixpoint dict_get (d : dict) (k : string) : option sentiment :=
  match d with
  | [] => None
  | (k', v) :: d' => if String.eqb k' k then Some v else dict_get d' k
  end.

(** The lists that the loop over the training records fills. *)
Record pools : Type := mk_pools {
  pos_num_attr : list Z;
  neg_num_attr : list Z;
  pos_not_num_attr : list string;
  neg_not_num_attr : list string;
  not_num_sub_attr : list string
}.

Definition pools_init : pools := mk_pools [] [] [] [] [].

(** [record[i] for i in range(0, len(record) - 1)]. *)
Definition attributes (record : list string) : list string := removelast record.

(** Body of the loops at lines 113-117 and 120-124. *)
Definition add_attr (acc : list Z * list string) (a : string)
  : result (list Z * list string) :=
  let '(num, not_num) := acc in
  if isnumeric a then v <- int a ;; Ok (num ++ [v], not_num)
  else Ok (num, not_num ++ [a]).

(** Body of the comprehension at lines 128-129. *)
Definition add_sub_attr (seen : list string) (a : string) : list string :=
  if negb (mem a seen) && negb (isnumeric a) then seen ++ [a] else seen.

(** One iteration of [for record in data] (lines 111-129). *)
Definition pool_record (p : pools) (record : list string) : result pools :=
  label <- last_item record ;;
  p <- (if String.eqb label ">50K" then
          '(num, not_num) <-
            for_each add_attr (attributes record) (pos_num_attr p, pos_not_num_attr p) ;;
          Ok (mk_pools num (neg_num_attr p) not_num (neg_not_num_attr p)
                (not_num_sub_attr p))
        else
          '(num, not_num) <-
            for_each add_attr (attributes record) (neg_num_attr p, neg_not_num_attr p) ;;
          Ok (mk_pools (pos_num_attr p) num (pos_not_num_attr p) not_num
                (not_num_sub_attr p))) ;;
  Ok (mk_pools (pos_num_attr p) (neg_num_attr p) (pos_not_num_attr p)
        (neg_not_num_attr p)
        (fold_left add_sub_attr (attributes record) (not_num_sub_attr p))).

Definition fill_pools (data : list (list string)) : result pools :=
  for_each pool_record data pools_init.

(** [sum(l) / len(l)]. *)
Definition mean (l : list Z) : result float :=
  true_divide (sum l) (Z.of_nat (List.length l)).

(** The value appended to [midpoint_num] for lane [i] (lines 133-134). *)
Definition midpoint (p : pools) (i : nat) : result float :=
  pos_mean <- mean (slice_step i 5 (pos_num_attr p)) ;;
  neg_mean <- mean (slice_step i 5 (neg_num_attr p)) ;;
  fdiv (fadd pos_mean neg_mean) (const 2).

Definition midpoints (p : pools) : result (list float) :=
  map_result (midpoint p) (seq 0 5).

(** The value appended to [not_num_sub_attr_outcome] for the value [v]
    (lines 138-145). *)
Definition outcome (p : pools) (v : string) : result sentiment :=
  pos_ave <- true_divide (Z.of_nat (count v (pos_not_num_attr p)))
               (Z.of_nat (List.length (slice_step 0 6 (pos_not_num_attr p)))) ;;
  neg_ave <- true_divide (Z.of_nat (count v (neg_not_num_attr p)))
               (Z.of_nat (List.length (slice_step 0 6 (neg_not_num_attr p)))) ;;
  Ok (if fgt pos_ave neg_ave then Positive
      else if flt pos_ave neg_ave then Negative
      else Neutral).

Definition outcomes (p : pools) : result (list sentiment) :=
  map_result (outcome p) (not_num_sub_attr p).

Definition classifier : Type := list float * dict.

Definition create_classifier (data : list (list string)) : result classifier :=
  p <- fill_pools data ;;
  midpoint_num <- midpoints p ;;
  not_num_sub_attr_outcome <- outcomes p ;;
  Ok (midpoint_num, dict_of (combine (not_num_sub_attr p) not_num_sub_attr_outcome)).

(* ================================================================= *)
(** ** [test_classifier]: the evaluator *)

(** The counters of the loop over the attributes of one record. *)
Record counters : Type := mk_counters {
  pos_counter : nat;
  neg_counter : nat;
  next_index : nat
}.

Definition counters_init : counters := mk_counters 0 0 0.

(** One iteration of [for i in range(0, len(record) - 1)] (lines 171-184). *)
Definition vote (c : classifier) (v : counters) (a : string) : result counters :=
  if isnumeric a then
    x <- int a ;;
    t <- index (fst c) (next_index v) ;;
    if int_gt x t
    then Ok (mk_counters (pos_counter v + 1) (neg_counter v) (next_index v + 1))
    else Ok (mk_counters (pos_counter v) (neg_counter v + 1) (next_index v + 1))
  else
    match dict_get (snd c) a with
    | Some Positive => Ok (mk_counters (pos_counter v + 1) (neg_counter v) (next_index v))
    | Some Negative => Ok (mk_counters (pos_counter v) (neg_counter v + 1) (next_index v))
    | _ => Ok v
    end.

Definition count_votes (c : classifier) (record : list string) : result counters :=
  for_each (vote c) (attributes record) counters_init.

(** The two income classes, and the label text of each. *)
Inductive income : Type := AT_MOST_50K | ABOVE_50K.

Definition label_of (i : income) : string :=
  match i with
  | ABOVE_50K => ">50K"
  | AT_MOST_50K => "<=50K"
  end.

(** The branch taken at line 186. *)
Definition predict (c : classifier) (record : list string) : result income :=
  v <- count_votes c record ;;
  Ok (if (neg_counter v <? pos_counter v)%nat then ABOVE_50K else AT_MOST_50K).

(** One iteration of [for record in test_dataset] (lines 166-195). *)
Definition check_record (c : classifier) (incorrect_classification : nat)
  (record : list string) : result nat :=
  predicted <- predict c record ;;
  label <- last_item record ;;
  Ok (if String.eqb label (label_of predicted) then incorrect_classification
      else incorrect_classification + 1).

Definition count_incorrect (test_dataset : list (list string)) (c : classifier)
  : result nat :=
  for_each (check_record c) test_dataset 0%nat.

(** [round(abs(incorrect_classification / len(test_dataset) * 100 - 100), 2)]. *)
Definition accuracy (incorrect_classification total : nat) : result float :=
  ratio <- true_divide (Z.of_nat incorrect_classification) (Z.of_nat total) ;;
  round_ndigits (fabs (fsub (fmul ratio (const 100)) (const 100))) 2.

Definition test_classifier (test_dataset : list (list string)) (c : classifier)
  : result float :=
  incorrect_classification <- count_incorrect test_dataset c ;;
  accuracy incorrect_classification (List.length test_dataset).


(* ================================================================= *)
(** ** The record schema, in the words of the specification *)

(** "5 numeric + 6 categorical + 1 label field": the attributes are all
    fields but the last one. *)
Definition numeric_attributes (record : list string) : list string :=
  filter isnumeric (attributes record).

Definition categorical_attributes (record : list string) : list string :=
  filter (fun a => negb (isnumeric a)) (attributes record).

Definition five_six_one (record : list string) : Prop :=
  List.length record = 12
  /\ List.length (numeric_attributes record) = 5
  /\ List.length (categorical_attributes record) = 6.

(** The positions that the columns of the census layout take in a cleaned
    record: age, education-num, capital-gain, capital-loss and
    hours-per-week are numeric; workclass, marital-status, occupation,
    relationship, race and sex are categorical; the label is last. *)
Definition numeric_positions : list nat := [0; 2; 8; 9; 10].
Definition categorical_positions : list nat := [1; 3; 4; 5; 6; 7].

Definition field (record : list string) (i : nat) : string := nth i record "".

Definition schema_record (record : list string) : bool :=
  (List.length record =? 12)
  && forallb (fun i => isnumeric (field record i)) numeric_positions
  && forallb (fun i => negb (isnumeric (field record i))) categorical_positions.

(** A line of the 15-column census layout: the columns that survive the
    cleaning are numeric at 0, 4, 10, 11, 12 and categorical at 1, 5..9. *)
Definition census_row (line : string) : bool :=
  let fields := split "," line in
  (List.length fields =? 15)
  && forallb (fun i => isnumeric (field fields i)) [0; 4; 10; 11; 12]
  && forallb (fun i => negb (isnumeric (field fields i))) [1; 5; 6; 7; 8; 9].

(** What a cleaned record is, for the row it comes from. *)
Definition cleaned_from (row : string) (record : list string) : Prop :=
  14 <= List.length (split "," row)
  /\ del_item 11 (del_slice 2 4 (split "," row)) = Ok record
  /\ List.length record = List.length (split "," row) - 3.

(** ** Sample inputs *)

Definition nl : string := String newline "".

Definition row_state_gov : string :=
  "39, State-gov, 77516, Bachelors, 13, Never-married, Adm-clerical, Not-in-family, White, Male, 2174, 0, 40, United-States, <=50K".

Definition row_self_emp : string :=
  "52, Self-emp-not-inc, 209642, HS-grad, 9, Married-civ-spouse, Exec-managerial, Husband, White, Male, 0, 0, 45, United-States, >50K".

(** The row of the specification's scenario, with its missing value. *)
Definition row_missing_value : string := "39,State-gov,?,Bachelors,13,...".

(** A row without the native-country column: 14 fields. *)
Definition row_without_country : string :=
  "39,State-gov,77516,Bachelors,13,Never-married,Adm-clerical,Not-in-family,White,Male,2174,0,40,<=50K".

Definition two_rows : string := (row_state_gov ++ nl ++ row_self_emp ++ nl)%string.

(** Two rows of the layout with an empty line between them. *)
Definition rows_with_empty_line : string :=
  (row_state_gov ++ nl ++ nl ++ row_self_emp)%string.

(* ================================================================= *)
(** ** The votes of a record, in the words of the specification *)

Inductive ballot : Type := ForPositive | ForNegative | NoVote.

Definition ballot_eqb (a b : ballot) : bool :=
  match a, b with
  | ForPositive, ForPositive | ForNegative, ForNegative | NoVote, NoVote => true
  | _, _ => false
  end.

Definition tally (b : ballot) (bs : list ballot) : nat :=
  List.length (filter (ballot_eqb b) bs).

(** The numeric-lane cursor when the attribute at position [j] is reached:
    the number of numeric attributes before it. *)
Definition cursor_at (attrs : list string) (j : nat) : nat :=
  List.length (filter isnumeric (firstn j attrs)).

(** The vote of the attribute at position [j]: a numeric attribute is
    compared with the threshold at the cursor, a categorical attribute
    votes by its sentiment, a neutral or unknown value does not vote. *)
Definition ballot_at (c : classifier) (attrs : list string) (j : nat) : result ballot :=
  let a := nth j attrs "" in
  if isnumeric a then
    x <- int a ;;
    t <- index (fst c) (cursor_at attrs j) ;;
    Ok (if int_gt x t then ForPositive else ForNegative)
  else
    Ok (match dict_get (snd c) a with
        | Some Positive => ForPositive
        | Some Negative => ForNegative
        | Some Neutral | None => NoVote
        end).

Definition ballots (c : classifier) (attrs : list string) : result (list ballot) :=
  map_result (ballot_at c attrs) (seq 0 (List.length attrs)).

(** A record the evaluator can process: each numeric attribute is the text
    of an integer, and there is a threshold for each of them. *)
Definition parses (a : string) : bool :=
  match int a with
  | Ok _ => true
  | Raise _ => false
  end.

Definition evaluable (c : classifier) (record : list string) : bool :=
  forallb parses (numeric_attributes record)
  && (List.length (numeric_attributes record) <=? List.length (fst c)).

(** A record of the schema and a classifier to evaluate it with. *)
Definition sample_record : list string :=
  ["39"; "State-gov"; "13"; "Never-married"; "Adm-clerical"; "Not-in-family";
   "White"; "Male"; "2174"; "0"; "40"; "<=50K"].

Definition sample_classifier : classifier :=
  ([const 45; const 10; const 1000; const 40; const 38],
   [("State-gov", Positive); ("Never-married", Negative); ("White", Neutral);
    ("Male", Positive)]).

(* ================================================================= *)
(** ** The pools and the lanes, in the words of the specification *)

(** The records of the positive pool are those labelled [>50K]; every
    other record is of the negative pool. *)
Definition is_positive (record : list string) : bool :=
  match last_item record with
  | Ok label => String.eqb label ">50K"
  | Raise _ => false
  end.

Definition positives (data : list (list string)) : list (list string) :=
  filter is_positive data.

Definition negatives (data : list (list string)) : list (list string) :=
  filter (fun record => negb (is_positive record)) data.

(** The integer values of the numeric attributes of a record, in order. *)
Definition numbers (record : list string) : result (list Z) :=
  map_result int (numeric_attributes record).

Definition number_list (record : list string) : list Z :=
  match numbers record with
  | Ok vs => vs
  | Raise _ => []
  end.

(** A record the builder can pool: it has a label, and its numeric
    attributes are texts of integers. *)
Definition poolable (record : list string) : bool :=
  match record, numbers record with
  | _ :: _, Ok _ => true
  | _, _ => false
  end.

(** "Every record carries exactly 5 numeric attributes". *)
Definition has_five_numbers (record : list string) : bool :=
  poolable record && (List.length (number_list record) =? 5).

(** "Exactly 6 categorical attributes". *)
Definition has_six_categories (record : list string) : bool :=
  List.length (categorical_attributes record) =? 6.

(** The values landing in numeric lane [i]: the [i]-th numeric attribute
    of each record. *)
Definition lane (i : nat) (records : list (list string)) : list Z :=
  map (fun record => nth i (number_list record) 0%Z) records.

(** An integer within the float range with room to spare: at most the
    largest power of two below the overflow threshold. *)
Definition in_float_range (z : Z) : bool := (z <=? 2 ^ 1023)%Z.

(** The midpoint of the means of two lanes. *)
Definition midpoint_of (xs ys : list Z) : result float :=
  pos_mean <- mean xs ;;
  neg_mean <- mean ys ;;
  fdiv (fadd pos_mean neg_mean) (const 2).

(** The categorical values of a pool of records, record after record. *)
Definition categorical_pool (records : list (list string)) : list string :=
  flat_map categorical_attributes records.

(** The distinct values of a list, each at its first occurrence. *)
Fixpoint first_occurrences (l : list string) : list string :=
  match l with
  | [] => []
  | x :: t => x :: filter (fun y => negb (String.eqb x y)) (first_occurrences t)
  end.

(** The number of entries of lane 0 when a categorical pool is read with
    stride 6, and the occurrence rate of a value: its count divided by
    that number. *)
Definition lane_count (pool : list string) : nat :=
  List.length (slice_step 0 6 pool).

Definition rate (v : string) (pool : list string) : result float :=
  true_divide (Z.of_nat (count v pool)) (Z.of_nat (lane_count pool)).

(** Appending a value that is not yet in the list. *)
Definition add_new (seen : list string) (a : string) : list string :=
  if mem a seen then seen else seen ++ [a].

(** The pools after one more record. *)
Definition pooled (p : pools) (record : list string) : pools :=
  if is_positive record
  then mk_pools (pos_num_attr p ++ number_list record) (neg_num_attr p)
         (pos_not_num_attr p ++ categorical_attributes record) (neg_not_num_attr p)
         (fold_left add_new (categorical_attributes record) (not_num_sub_attr p))
  else mk_pools (pos_num_attr p) (neg_num_attr p ++ number_list record)
         (pos_not_num_attr p) (neg_not_num_attr p ++ categorical_attributes record)
         (fold_left add_new (categorical_attributes record) (not_num_sub_attr p)).

(** The pools after a list of records. *)
Definition pooled_all (p : pools) (data : list (list string)) : pools :=
  mk_pools (pos_num_attr p ++ flat_map number_list (positives data))
    (neg_num_attr p ++ flat_map number_list (negatives data))
    (pos_not_num_attr p ++ categorical_pool (positives data))
    (neg_not_num_attr p ++ categorical_pool (negatives data))
    (fold_left add_new (categorical_pool data) (not_num_sub_attr p)).

(** The two records of the specification's scenario for the thresholds:
    lane 0 holds 50 in the record labelled [>50K] and 30 in the other. *)
Definition record_fifty : list string :=
  ["50"; "Private"; "13"; "Married-civ-spouse"; "Exec-managerial"; "Husband";
   "White"; "Male"; "0"; "0"; "45"; ">50K"].

Definition record_thirty : list string :=
  ["30"; "Private"; "9"; "Never-married"; "Adm-clerical"; "Not-in-family";
   "White"; "Female"; "2174"; "0"; "40"; "<=50K"].

(** The characters of ASCII. *)
Definition is_ascii (c : ascii) : bool := code c <? 128.

Fixpoint repeat_char (c : ascii) (n : nat) : string :=
  match n with
  | O => EmptyString
  | S k => String c (repeat_char c k)
  end.

(** A text of 4301 digits: one more than [int] converts. *)
Definition digits_beyond_limit : string := repeat_char "1" (S int_max_str_digits).

(** The character of code point 178, superscript two. *)
Definition superscript_two : string := String (ascii_of_nat 178) "".

(* ================================================================= *)
(** ** Misclassified records, in the words of the specification *)

(** A record is misclassified when its label is not the text of the
    predicted class. *)
Definition misclassified (c : classifier) (record : list string) : bool :=
  match predict c record, last_item record with
  | Ok predicted, Ok label => negb (String.eqb label (label_of predicted))
  | _, _ => false
  end.

(** A record the evaluator can check: it has a label and is [evaluable]. *)
Definition checkable (c : classifier) (record : list string) : bool :=
  match record with
  | [] => false
  | _ :: _ => evaluable c record
  end.

(* ================================================================= *)
(** ** The binary64 operations of the library, for comparison *)

Definition lib_add := SpecFloat.SFadd 53 1024.
Definition lib_sub := SpecFloat.SFsub 53 1024.
Definition lib_mul := SpecFloat.SFmul 53 1024.
Definition lib_div := SpecFloat.SFdiv 53 1024.

(** 0.1, 0.2, 0.3 and 1/3 as the nearest floats. *)
Definition tenth : SpecFloat.spec_float := lib_div (spec_of 1 0) (spec_of 10 0).
Definition fifth : SpecFloat.spec_float := lib_div (spec_of 2 0) (spec_of 10 0).
Definition three_tenths : SpecFloat.spec_float := lib_div (spec_of 3 0) (spec_of 10 0).
Definition third : SpecFloat.spec_float := lib_div (spec_of 1 0) (spec_of 3 0).

(* ================================================================= *)
(** ** [main]: the split of the cleaned records and the pipeline *)

Definition PERCENT : Z := 75.

(** [int(x)] for a float [x]: truncation towards zero. *)
Definition int_of_float (x : float) : result Z :=
  match x with
  | NaN => Raise ValueError
  | Inf _ => Raise OverflowError
  | Fin s m => Ok (signed s (m / U))
  end.

(** The bound [k] of a slice of a list of [n] elements, as an offset:
    a negative bound counts from the end, and bounds are clipped. *)
Definition slice_bound (k : Z) (n : nat) : nat :=
  if (k <? 0)%Z then Z.to_nat (Z.max 0 (Z.of_nat n + k))
  else Z.to_nat (Z.min k (Z.of_nat n)).

(** [l[:k]] and [l[k:]]. *)
Definition slice_to {A : Type} (k : Z) (l : list A) : list A :=
  firstn (slice_bound k (List.length l)) l.

Definition slice_from {A : Type} (k : Z) (l : list A) : list A :=
  skipn (slice_bound k (List.length l)) l.

(** [int(len(cleaned_dataset) * PERCENT / 100)] for a list of [n] records. *)
Definition split_index (n : nat) : result Z :=
  x <- true_divide (Z.of_nat n * PERCENT) 100 ;;
  int_of_float x.

(** Lines 204-207 of [main], for the text [net_content] that
    [get_file_from_net] returned: the value of [accuracy_score].  The
    summary that [main] prints from it is not part of the embedding. *)
Definition accuracy_score (net_content : string) : result float :=
  cleaned_dataset <- get_data net_content ;;
  k <- split_index (List.length cleaned_dataset) ;;
  let training_dataset := slice_to k cleaned_dataset in
  k' <- split_index (List.length cleaned_dataset) ;;
  let test_dataset := slice_from k' cleaned_dataset in
  c <- create_classifier training_dataset ;;
  test_classifier test_dataset c.

(* ================================================================= *)
(** ** Further notions for the properties *)

(** The position in a row of the field at position [i] of its cleaned
    record: the fields 2, 3 and 13 are gone. *)
Definition kept_column (i : nat) : nat :=
  if i <? 2 then i else if i <? 11 then i + 2 else i + 3.

(** A row with the marker. *)
Definition has_marker (row : string) : bool := contains_char "?" row.

(** Two adjacent characters [a], [b] somewhere in a string. *)
Fixpoint has_pair (a b : ascii) (s : string) : bool :=
  match s with
  | String x ((String y _) as t) => (Ascii.eqb x a && Ascii.eqb y b) || has_pair a b t
  | _ => false
  end.

(** Whether [s] begins with the character [c]. *)
Definition starts_with (c : ascii) (s : string) : bool :=
  match s with
  | String y _ => Ascii.eqb y c
  | EmptyString => false
  end.

(** The text after the two replacements of [get_data]. *)
Definition normalized (data : string) : string :=
  replace " ," "," (replace ", " "," data).

(** The magnitudes of the floats computed at line 197, step by step:
    [k / n], [... * 100], [abs(... - 100)] and [round(..., 2)]. *)
Definition ratio_mag (k n : Z) : Z := round_mag (k * U) n.
Definition percent_mag (x : Z) : Z := round_mag (x * (100 * U)) U.
Definition distance_mag (y : Z) : Z := round_mag (100 * U - y) 1.
Definition hundredths_mag (a : Z) : Z := round_mag (rne_div (a * 100) U * U) 100.

Definition accuracy_mag (k n : nat) : Z :=
  hundredths_mag (distance_mag (percent_mag (ratio_mag (Z.of_nat k) (Z.of_nat n)))).

(** A label that is the text of neither class. *)
Definition unknown_label (record : list string) : bool :=
  match last_item record with
  | Ok label => negb (String.eqb label ">50K") && negb (String.eqb label "<=50K")
  | Raise _ => false
  end.

(** A categorical value that casts no vote. *)
Definition silent (c : classifier) (a : string) : bool :=
  negb (isnumeric a)
  && match dict_get (snd c) a with
     | Some Positive | Some Negative => false
     | Some Neutral | None => true
     end.

(** A record of the test file of the census data: its label ends with a
    full stop. *)
Definition record_with_dotted_label : list string :=
  ["25"; "Private"; "7"; "Never-married"; "Machine-op-inspct"; "Own-child";
   "Black"; "Male"; "0"; "0"; "40"; "<=50K."].
(* ================================================================= *)
(** * Properties *)

(** ** The exception monad and loops *)

Lemma for_each_app {S A : Type} (body : S -> A -> result S) (xs ys : list A) (st : S) :
  for_each body (xs ++ ys) st = (st' <- for_each body xs st ;; for_each body ys st').
Proof.
  revert st; induction xs as [|x xs IH]; intros st; simpl; [reflexivity|].
  destruct (body st x) as [st'|e]; simpl; [apply IH | reflexivity].
Qed.

(** ** Strings *)

Lemma split_not_nil (sep : ascii) (s : string) : split sep s <> [].
Proof.
  destruct s as [|c t]; simpl; [discriminate|].
  destruct (Ascii.eqb c sep); [discriminate|].
  destruct (split sep t); discriminate.
Qed.

Lemma contains_char_append (c : ascii) (a b : string) :
  contains_char c (a ++ b) = contains_char c a || contains_char c b.
Proof.
  induction a as [|d a IH]; simpl; [reflexivity|].
  rewrite IH, orb_assoc; reflexivity.
Qed.

(** A character of a field is a character of the line. *)
Lemma contains_char_split (c sep : ascii) (s : string) :
  existsb (contains_char c) (split sep s) = true -> contains_char c s = true.
Proof.
  induction s as [|d t IH]; simpl.
  - trivial.
  - destruct (Ascii.eqb d sep); simpl.
    + intros H; rewrite (IH H); apply orb_true_r.
    + destruct (split sep t) as [|h r] eqn:E; simpl in *.
      * exfalso; exact (split_not_nil sep t E).
      * rewrite <- orb_assoc; intros H.
        apply orb_true_iff in H; destruct H as [H|H]; [rewrite H; reflexivity|].
        rewrite (IH H); apply orb_true_r.
Qed.

Lemma contains_char_field (c sep : ascii) (s f : string) :
  contains_char c s = false -> In f (split sep s) -> contains_char c f = false.
Proof.
  intros Hs Hf.
  destruct (contains_char c f) eqn:E; [|reflexivity].
  rewrite <- Hs; symmetry; apply (contains_char_split c sep).
  apply existsb_exists; exists f; split; assumption.
Qed.

Lemma contains_char_lstrip (c : ascii) (p : ascii -> bool) (s : string) :
  contains_char c s = false -> contains_char c (lstrip_with p s) = false.
Proof.
  induction s as [|d t IH]; simpl; [trivial|].
  intros H; apply orb_false_iff in H; destruct H as [Hd Ht].
  destruct (p d); [apply IH; exact Ht|].
  simpl; rewrite Hd, Ht; reflexivity.
Qed.

Lemma contains_char_rstrip (c : ascii) (p : ascii -> bool) (s : string) :
  contains_char c s = false -> contains_char c (rstrip_with p s) = false.
Proof.
  induction s as [|d t IH]; simpl; [trivial|].
  intros H; apply orb_false_iff in H; destruct H as [Hd Ht].
  specialize (IH Ht).
  destruct (rstrip_with p t) as [|e u].
  - destruct (p d); simpl; [reflexivity|rewrite Hd; reflexivity].
  - change (contains_char c (String d (String e u)))
      with (Ascii.eqb d c || contains_char c (String e u)).
    rewrite Hd, IH; reflexivity.
Qed.

Lemma contains_char_replace_from (c : ascii) (old new : string) (k : nat) (s : string) :
  contains_char c new = false -> contains_char c s = false ->
  contains_char c (replace_from old new k s) = false.
Proof.
  intros Hnew; revert k; induction s as [|d t IH]; intros k H; [reflexivity|].
  simpl in H; apply orb_false_iff in H; destruct H as [Hd Ht].
  destruct k as [|k]; [|apply IH; exact Ht].
  cbn [replace_from].
  destruct (String.prefix old (String d t)).
  - rewrite contains_char_append, Hnew, (IH _ Ht); reflexivity.
  - cbn [contains_char]; rewrite Hd, (IH _ Ht); reflexivity.
Qed.

(** The lines of a text without the marker are without the marker. *)
Lemma lines_of_marker_free (data line : string) :
  contains_char "?" data = false -> In line (lines_of data) ->
  contains_char "?" line = false.
Proof.
  intros H Hin; unfold lines_of, strip, strip_with in Hin.
  apply (contains_char_field _ newline _ _) with (2 := Hin).
  apply contains_char_rstrip, contains_char_lstrip.
  apply contains_char_replace_from; [reflexivity|].
  apply contains_char_replace_from; [reflexivity|exact H].
Qed.

(** ** The record cleaner *)

Lemma del_slice_length {A : Type} (l : list A) :
  List.length (del_slice 2 4 l) = Nat.min 2 (List.length l) + (List.length l - 4).
Proof. unfold del_slice; rewrite length_app, length_firstn, length_skipn; reflexivity. Qed.

Lemma del_fields_short (fields : list string) :
  List.length fields < 14 -> del_item 11 (del_slice 2 4 fields) = Raise IndexError.
Proof.
  intros H; unfold del_item.
  replace (11 <? List.length (del_slice 2 4 fields)) with false; [reflexivity|].
  symmetry; apply Nat.ltb_ge; rewrite del_slice_length; lia.
Qed.

Lemma del_fields_long (fields : list string) :
  14 <= List.length fields ->
  exists record, del_item 11 (del_slice 2 4 fields) = Ok record
                 /\ List.length record = List.length fields - 3.
Proof.
  intros H; unfold del_item.
  replace (11 <? List.length (del_slice 2 4 fields)) with true.
  - eexists; split; [reflexivity|].
    rewrite length_app, length_firstn, length_skipn, del_slice_length; lia.
  - symmetry; apply Nat.ltb_lt; rewrite del_slice_length; lia.
Qed.

Lemma clean_record_marker (st : cleaner) (row : string) :
  contains_char "?" row = true -> clean_record st row = Ok st.
Proof. intros H; unfold clean_record; rewrite H; reflexivity. Qed.

(** [IndexError] is the only exception that leaves an iteration. *)
Lemma clean_record_raises (st : cleaner) (row : string) (e : exn) :
  clean_record st row = Raise e -> e = IndexError.
Proof.
  unfold clean_record, clean_fields.
  destruct (contains_char "?" row); [discriminate|].
  destruct (split "," row) as [|f fs]; simpl; [congruence|].
  unfold del_item; destruct (11 <? _); simpl; congruence.
Qed.

Lemma clean_lines_raises (rows : list string) (st : cleaner) (e : exn) :
  clean_lines rows st = Raise e -> e = IndexError.
Proof.
  unfold clean_lines; revert st; induction rows as [|r rows IH]; intros st; simpl.
  - discriminate.
  - destruct (clean_record st r) as [st'|e'] eqn:E; simpl.
    + apply IH.
    + intros H; injection H as <-; exact (clean_record_raises _ _ _ E).
Qed.

Lemma clean_record_short (st : cleaner) (row : string) :
  contains_char "?" row = false -> List.length (split "," row) < 14 ->
  clean_record st row = Raise IndexError.
Proof.
  intros Hm Hlen; unfold clean_record, clean_fields; rewrite Hm.
  destruct (split "," row) as [|f fs] eqn:E; [exfalso; exact (split_not_nil _ _ E)|].
  rewrite del_fields_short by exact Hlen; reflexivity.
Qed.

Lemma clean_lines_abort (before after : list string) (row : string) (st : cleaner) :
  (forall st', clean_record st' row = Raise IndexError) ->
  clean_lines (before ++ row :: after) st = Raise IndexError.
Proof.
  intros H; unfold clean_lines; rewrite for_each_app.
  destruct (for_each clean_record before st) as [st'|e] eqn:E; simpl.
  - rewrite H; reflexivity.
  - rewrite (clean_lines_raises _ _ _ E); reflexivity.
Qed.

Lemma clean_record_eq (st : cleaner) (row : string) :
  clean_record st row =
  if contains_char "?" row then Ok st
  else record <- del_item 11 (del_slice 2 4 (split "," row)) ;;
       Ok (mk_cleaner (cleaned_dataset st ++ [record]) (bad_records st) (printed st)).
Proof.
  unfold clean_record, clean_fields; destruct (contains_char "?" row); [reflexivity|].
  destruct (split "," row) as [|f fs] eqn:E; [|reflexivity].
  exfalso; exact (split_not_nil _ _ E).
Qed.

(** A loop that completes has appended one record per row without the
    marker, in order, and has neither counted nor printed anything. *)
Lemma clean_lines_ok (rows : list string) (st st' : cleaner) :
  clean_lines rows st = Ok st' ->
  bad_records st' = bad_records st /\ printed st' = printed st
  /\ exists records,
       cleaned_dataset st' = cleaned_dataset st ++ records
       /\ Forall2 cleaned_from
            (filter (fun row => negb (contains_char "?" row)) rows) records.
Proof.
  unfold clean_lines; revert st; induction rows as [|row rows IH]; intros st; simpl.
  - intros H; injection H as <-; repeat split.
    exists []; rewrite app_nil_r; split; [reflexivity|constructor].
  - rewrite clean_record_eq.
    destruct (contains_char "?" row) eqn:Hm; simpl; [apply IH|].
    destruct (del_item 11 (del_slice 2 4 (split "," row))) as [record|e] eqn:Hd;
      simpl; [|discriminate].
    intros H; destruct (IH _ H) as (Hb & Hp & records & Hc & Hall); simpl in *.
    split; [exact Hb|]; split; [exact Hp|].
    exists (record :: records); split.
    + rewrite Hc, <- app_assoc; reflexivity.
    + constructor; [|exact Hall].
      assert (Hlen : 14 <= List.length (split "," row)).
      { destruct (Nat.lt_ge_cases (List.length (split "," row)) 14) as [Hlt|Hge];
          [|exact Hge].
        rewrite (del_fields_short _ Hlt) in Hd; discriminate. }
      destruct (del_fields_long _ Hlen) as (record' & Hd' & Hl).
      rewrite Hd in Hd'; injection Hd' as <-.
      repeat split; assumption.
Qed.

(* ----------------------------------------------------------------- *)
(** ** Rows with a missing value *)

(** C7: a row with the missing-value marker [?] in one of its fields gives
    no cleaned record, no diagnostic and no change of the discard counter
    (the iteration returns the state it was given), and the loop goes on
    with the next row: the rows before and after are cleaned as if the row
    were not there. *)
Theorem marker_row_is_skipped_silently :
  forall (row : string),
    existsb (contains_char "?") (split "," row) = true ->
    (forall st, clean_record st row = Ok st)
    /\ (forall before after st,
          clean_lines (before ++ row :: after) st = clean_lines (before ++ after) st).
Proof.
  intros row H.
  assert (Hm : contains_char "?" row = true) by exact (contains_char_split _ _ _ H).
  split; [intros st; exact (clean_record_marker st row Hm)|].
  intros before after st; unfold clean_lines; rewrite !for_each_app.
  destruct (for_each clean_record before st) as [st'|e]; simpl; [|reflexivity].
  rewrite (clean_record_marker st' row Hm); reflexivity.
Qed.

Lemma marker_row_is_skipped_silently_witness :
  clean_record cleaner_init row_missing_value = Ok cleaner_init.
Proof.
  exact (proj1 (marker_row_is_skipped_silently row_missing_value eq_refl) cleaner_init).
Defined.

(** C8, as stated, fails on the row of its own scenario: the row is
    dropped, but the discard counter is not increased by 1. *)
Lemma marker_row_counter_not_incremented :
  ~ (exists st, clean_record cleaner_init row_missing_value = Ok st
                /\ bad_records st = bad_records cleaner_init + 1
                /\ cleaned_dataset st = cleaned_dataset cleaner_init).
Proof.
  intros (st & H & Hb & _).
  rewrite (clean_record_marker cleaner_init row_missing_value eq_refl) in H.
  injection H as <-; discriminate Hb.
Qed.

(** C8, amended: processing a row that contains the marker drops the
    record, leaves the discard counter as it was and adds no entry to the
    cleaned output. *)
Theorem marker_row_dropped_counter_unchanged :
  forall (st : cleaner) (row : string),
    contains_char "?" row = true ->
    exists st', clean_record st row = Ok st'
                /\ bad_records st' = bad_records st
                /\ cleaned_dataset st' = cleaned_dataset st
                /\ printed st' = printed st.
Proof.
  intros st row H; exists st; rewrite (clean_record_marker st row H).
  repeat split.
Qed.

Lemma marker_row_dropped_counter_unchanged_witness :
  exists st', clean_record cleaner_init row_missing_value = Ok st'
              /\ bad_records st' = 0
              /\ cleaned_dataset st' = []
              /\ printed st' = [].
Proof.
  exact (marker_row_dropped_counter_unchanged cleaner_init row_missing_value eq_refl).
Defined.

(* ----------------------------------------------------------------- *)
(** ** Rows that are too short, and the empty row *)

(** C10: a line without [?] that splits into fewer than 14 fields raises
    [IndexError] at the deletion of the fields; the handler of
    [ValueError] does not catch it, so the loop, and [get_data] with it,
    ends with that exception whatever the other lines are.  The empty
    line is such a line: it splits into one empty field. *)
Theorem short_row_aborts_cleaning :
  forall (row : string),
    contains_char "?" row = false ->
    List.length (split "," row) < 14 ->
    del_item 11 (del_slice 2 4 (split "," row)) = Raise IndexError
    /\ (forall st, clean_record st row = Raise IndexError)
    /\ (forall before after st,
          clean_lines (before ++ row :: after) st = Raise IndexError)
    /\ (forall data, In row (lines_of data) -> get_data data = Raise IndexError)
    /\ split "," "" = [""].
Proof.
  intros row Hm Hlen.
  assert (Hrow : forall st, clean_record st row = Raise IndexError)
    by (intros st; exact (clean_record_short st row Hm Hlen)).
  split; [exact (del_fields_short _ Hlen)|].
  split; [exact Hrow|].
  split; [intros before after st; exact (clean_lines_abort before after row st Hrow)|].
  split; [|reflexivity].
  intros data Hin; unfold get_data.
  destruct (in_split _ _ Hin) as (before & after & ->).
  rewrite (clean_lines_abort before after row cleaner_init Hrow); reflexivity.
Qed.

Lemma short_row_aborts_cleaning_witness :
  get_data "" = Raise IndexError.
Proof.
  refine (proj1 (proj2 (proj2 (proj2
    (short_row_aborts_cleaning "" eq_refl _)))) "" _).
  - simpl; lia.
  - simpl; left; reflexivity.
Defined.

(** C9 (the code does not do what its docstring and the claim say): no
    row splits into zero fields, so [raise ValueError("Empty Record")] is
    never reached, and if it were, the handler would count the record and
    then end the cleaning with [IndexError] at [record[0]].  The empty row
    has one empty field, passes the test and ends the whole cleaning with
    [IndexError] at the deletion of the fields, here between two rows of
    the census layout: it is neither counted nor reported nor skipped. *)
Theorem empty_row_aborts_instead_of_being_rejected :
  (forall row, split "," row <> [])
  /\ (forall st, clean_fields st [] = Raise IndexError)
  /\ (forall st, clean_record st "" = Raise IndexError)
  /\ In "" (lines_of rows_with_empty_line)
  /\ get_data rows_with_empty_line = Raise IndexError.
Proof.
  split; [intros row; apply split_not_nil|].
  split; [intros st; reflexivity|].
  split; [intros st; reflexivity|].
  split; [vm_compute; tauto|vm_compute; reflexivity].
Qed.

(* ----------------------------------------------------------------- *)
(** ** The schema of the cleaned records *)

Lemma census_row_schema (line : string) :
  census_row line = true ->
  exists record, del_item 11 (del_slice 2 4 (split "," line)) = Ok record
                 /\ schema_record record = true.
Proof.
  unfold census_row.
  generalize (split "," line); intros l H.
  apply andb_prop in H; destruct H as [H Hcat].
  apply andb_prop in H; destruct H as [Hlen Hnum].
  apply Nat.eqb_eq in Hlen.
  do 15 (destruct l as [|? l]; [discriminate Hlen|]).
  destruct l; [|discriminate Hlen].
  eexists; split; [reflexivity|].
  unfold schema_record, field in *; simpl in *.
  rewrite Hnum, Hcat; reflexivity.
Qed.

Lemma schema_record_counts (record : list string) :
  schema_record record = true -> five_six_one record.
Proof.
  unfold schema_record; intros H.
  apply andb_prop in H; destruct H as [H Hcat].
  apply andb_prop in H; destruct H as [Hlen Hnum].
  apply Nat.eqb_eq in Hlen.
  do 12 (destruct record as [|? record]; [discriminate Hlen|]).
  destruct record; [|discriminate Hlen].
  unfold field in *; simpl in Hnum, Hcat.
  repeat (apply andb_prop in Hnum; destruct Hnum as [? Hnum]).
  repeat (apply andb_prop in Hcat; destruct Hcat as [? Hcat]).
  repeat match goal with H : negb _ = true |- _ => apply negb_true_iff in H end.
  unfold five_six_one, numeric_attributes, categorical_attributes, attributes.
  split; [reflexivity|].
  simpl removelast; simpl filter.
  repeat match goal with H : isnumeric _ = _ |- _ => rewrite H; clear H end.
  simpl; split; reflexivity.
Qed.

Lemma clean_lines_census (rows : list string) (st : cleaner) :
  forallb census_row rows = true ->
  Forall (fun row => contains_char "?" row = false) rows ->
  exists records,
    clean_lines rows st
    = Ok (mk_cleaner (cleaned_dataset st ++ records) (bad_records st) (printed st))
    /\ List.length records = List.length rows
    /\ Forall (fun r => schema_record r = true) records.
Proof.
  unfold clean_lines; revert st; induction rows as [|row rows IH]; intros st Hc Hm; simpl.
  - exists []; rewrite app_nil_r; destruct st; repeat split; constructor.
  - simpl in Hc; apply andb_prop in Hc; destruct Hc as [Hrow Hrows].
    inversion Hm as [|? ? Hrowm Hrowsm]; subst.
    rewrite clean_record_eq, Hrowm.
    destruct (census_row_schema row Hrow) as (record & Hd & Hs).
    rewrite Hd; simpl.
    destruct (IH (mk_cleaner (cleaned_dataset st ++ [record]) (bad_records st)
                    (printed st)) Hrows Hrowsm) as (records & Hr & Hl & Hall).
    exists (record :: records); simpl in *.
    rewrite Hr, <- app_assoc; repeat split; [congruence|].
    constructor; assumption.
Qed.

(** C5, as stated, fails: this text has no [?], and its row, which lacks
    the native-country column, survives the cleaning with 11 fields, the
    label being the field that is deleted. *)
Lemma short_layout_survives_with_eleven_fields :
  contains_char "?" row_without_country = false
  /\ get_data row_without_country
     = Ok [["39"; "State-gov"; "13"; "Never-married"; "Adm-clerical";
            "Not-in-family"; "White"; "Male"; "2174"; "0"; "40"]]
  /\ ~ five_six_one ["39"; "State-gov"; "13"; "Never-married"; "Adm-clerical";
                     "Not-in-family"; "White"; "Male"; "2174"; "0"; "40"].
Proof.
  split; [reflexivity|]; split; [vm_compute; reflexivity|].
  intros (H & _); discriminate H.
Qed.

(** C5, amended: for a text without [?], every record the cleaner returns
    is a line of at least 14 fields without its fields 2, 3 and 13, hence
    three fields shorter; when every line follows the 15-column census
    layout the cleaner returns one record per line, each with exactly 12
    fields: numeric at the positions 0, 2, 8, 9, 10, categorical at 1, 3,
    4, 5, 6, 7, and the label last, that is 5 numeric and 6 categorical
    attributes and 1 label. *)
Theorem cleaned_records_follow_the_row_layout :
  forall (data : string),
    contains_char "?" data = false ->
    (forall records, get_data data = Ok records ->
       Forall2 cleaned_from (lines_of data) records)
    /\ (forallb census_row (lines_of data) = true ->
        exists records,
          get_data data = Ok records
          /\ List.length records = List.length (lines_of data)
          /\ Forall (fun r => schema_record r = true /\ five_six_one r) records).
Proof.
  intros data Hm.
  assert (Hlines : Forall (fun row => contains_char "?" row = false) (lines_of data))
    by (apply Forall_forall; intros line; apply lines_of_marker_free; exact Hm).
  split.
  - intros records H; unfold get_data in H.
    destruct (clean_lines (lines_of data) cleaner_init) as [st|e] eqn:E;
      simpl in H; [|discriminate].
    injection H as <-.
    destruct (clean_lines_ok _ _ _ E) as (_ & _ & records & Hc & Hall).
    simpl in Hc; rewrite Hc.
    replace (filter (fun row => negb (contains_char "?" row)) (lines_of data))
      with (lines_of data) in Hall; [exact Hall|].
    clear -Hlines; induction Hlines as [|row rows Hrow _ IH]; simpl; [reflexivity|].
    rewrite Hrow; simpl; f_equal; exact IH.
  - intros Hc.
    destruct (clean_lines_census _ cleaner_init Hc Hlines) as (records & Hr & Hl & Hall).
    exists records; unfold get_data; rewrite Hr; simpl.
    repeat split; [exact Hl|].
    apply Forall_forall; intros r Hin.
    rewrite Forall_forall in Hall.
    split; [exact (Hall r Hin)|exact (schema_record_counts r (Hall r Hin))].
Qed.

Lemma cleaned_records_follow_the_row_layout_witness :
  exists records,
    get_data two_rows = Ok records
    /\ List.length records = List.length (lines_of two_rows)
    /\ Forall (fun r => schema_record r = true /\ five_six_one r) records.
Proof.
  apply (cleaned_records_follow_the_row_layout two_rows); vm_compute; reflexivity.
Defined.

(* ----------------------------------------------------------------- *)
(** ** The evaluator: the votes of one record *)

Lemma tally_cons (b b' : ballot) (bs : list ballot) :
  tally b (b' :: bs) = (if ballot_eqb b b' then 1 else 0) + tally b bs.
Proof. unfold tally; simpl; destruct (ballot_eqb b b'); reflexivity. Qed.

Lemma cursor_at_prefix (pre suf : list string) :
  cursor_at (pre ++ suf) (List.length pre) = List.length (filter isnumeric pre).
Proof.
  unfold cursor_at.
  rewrite firstn_app, Nat.sub_diag, firstn_all, firstn_O, app_nil_r; reflexivity.
Qed.

(** The loop over the attributes, started after the prefix [pre] with the
    cursor at the number of numeric attributes of [pre]. *)
Lemma vote_loop (c : classifier) (suf pre : list string) (st : counters) :
  next_index st = List.length (filter isnumeric pre) ->
  for_each (vote c) suf st
  = (bs <- map_result (ballot_at c (pre ++ suf)) (seq (List.length pre) (List.length suf)) ;;
     Ok (mk_counters (pos_counter st + tally ForPositive bs)
           (neg_counter st + tally ForNegative bs)
           (next_index st + List.length (filter isnumeric suf)))).
Proof.
  revert pre st; induction suf as [|a suf IH]; intros pre st Hst.
  - simpl; unfold tally; simpl; rewrite !Nat.add_0_r; destruct st; reflexivity.
  - assert (Hpre : next_index st + (if isnumeric a then 1 else 0)
                   = List.length (filter isnumeric (pre ++ [a]))).
    { rewrite filter_app, length_app, Hst; simpl; destruct (isnumeric a); reflexivity. }
    cbn [for_each List.length seq map_result].
    unfold ballot_at at 1.
    rewrite nth_middle, cursor_at_prefix, <- Hst.
    replace (pre ++ a :: suf) with ((pre ++ [a]) ++ suf)
      by (rewrite <- app_assoc; reflexivity).
    replace (S (List.length pre)) with (List.length (pre ++ [a]))
      by (rewrite length_app; simpl; lia).
    unfold vote; cbn [filter].
    destruct (isnumeric a) eqn:Hnum.
    + destruct (int a) as [x|e]; cbn [bind]; [|reflexivity].
      destruct (index (fst c) (next_index st)) as [t|e]; cbn [bind]; [|reflexivity].
      destruct (int_gt x t); cbn [bind];
        (rewrite (IH (pre ++ [a])) by (cbn [next_index]; rewrite <- Hpre; reflexivity));
        destruct (map_result _ _) as [bs|e]; cbn [bind]; try reflexivity;
        rewrite !tally_cons; cbn [pos_counter neg_counter next_index ballot_eqb List.length];
        f_equal; f_equal; lia.
    + destruct (dict_get (snd c) a) as [[| |]|]; cbn [bind];
        (rewrite (IH (pre ++ [a])) by (cbn [next_index]; rewrite <- Hpre; lia));
        destruct (map_result _ _) as [bs|e]; cbn [bind]; try reflexivity;
        rewrite !tally_cons; cbn [pos_counter neg_counter next_index ballot_eqb];
        f_equal; f_equal; lia.
Qed.

Lemma count_votes_ballots (c : classifier) (record : list string) :
  count_votes c record
  = (bs <- ballots c (attributes record) ;;
     Ok (mk_counters (tally ForPositive bs) (tally ForNegative bs)
           (List.length (numeric_attributes record)))).
Proof.
  unfold count_votes, ballots.
  rewrite (vote_loop c (attributes record) [] counters_init eq_refl); reflexivity.
Qed.

(** Positions of the attributes whose vote is defined. *)
Lemma map_result_ok {A B : Type} (f : A -> result B) (xs : list A) :
  (forall x, In x xs -> exists y, f x = Ok y) -> exists ys, map_result f xs = Ok ys.
Proof.
  induction xs as [|x xs IH]; intros H; simpl; [eexists; reflexivity|].
  destruct (H x (or_introl eq_refl)) as (y & ->); simpl.
  destruct IH as (ys & ->); [intros z Hz; apply H; right; exact Hz|].
  simpl; eexists; reflexivity.
Qed.

Lemma cursor_at_lt (attrs : list string) (j : nat) :
  j < List.length attrs -> isnumeric (nth j attrs "") = true ->
  cursor_at attrs j < List.length (filter isnumeric attrs).
Proof.
  intros Hj Hnum; unfold cursor_at.
  rewrite <- (firstn_skipn j attrs) at 2.
  rewrite filter_app, length_app.
  destruct (skipn j attrs) as [|a rest] eqn:E.
  - apply (f_equal (@List.length string)) in E; rewrite length_skipn in E; simpl in E; lia.
  - assert (Ha : nth j attrs "" = a).
    { rewrite <- (firstn_skipn j attrs), E, app_nth2; rewrite length_firstn.
      - replace (j - Nat.min j (List.length attrs)) with 0 by lia; reflexivity.
      - lia. }
    simpl; rewrite <- Ha, Hnum; simpl; lia.
Qed.

Lemma ballots_defined (c : classifier) (record : list string) :
  evaluable c record = true -> exists bs, ballots c (attributes record) = Ok bs.
Proof.
  unfold evaluable, numeric_attributes; intros H.
  apply andb_prop in H; destruct H as [Hparse Hlen].
  apply Nat.leb_le in Hlen; rewrite forallb_forall in Hparse.
  apply map_result_ok; intros j Hj; apply in_seq in Hj; simpl in Hj.
  unfold ballot_at.
  destruct (isnumeric (nth j (attributes record) "")) eqn:Hnum; [|eexists; reflexivity].
  assert (Hin : In (nth j (attributes record) "") (filter isnumeric (attributes record))).
  { apply filter_In; split; [apply nth_In; lia|exact Hnum]. }
  specialize (Hparse _ Hin); unfold parses in Hparse.
  destruct (int (nth j (attributes record) "")) as [x|e]; [|discriminate]; simpl.
  pose proof (cursor_at_lt _ _ (proj2 Hj) Hnum) as Hc.
  unfold index.
  destruct (nth_error (fst c) (cursor_at (attributes record) j)) as [t|] eqn:E.
  - simpl; eexists; reflexivity.
  - apply nth_error_None in E; lia.
Qed.

(** C3: the votes of a record are those of its attributes taken in order,
    the attribute at position [j] voting as [ballot_at] says: a numeric
    attribute votes Positive exactly when its integer value is strictly
    greater than the threshold at the cursor, which is the number of
    numeric attributes before it, and Negative otherwise; a categorical
    attribute votes by its sentiment, and not at all when the sentiment is
    Neutral or the value unknown.  The counters of the loop are the
    tallies of these votes, the record is predicted ABOVE_50K exactly when
    the Positive votes strictly exceed the Negative ones, so AT_MOST_50K
    on a tie, and every record with parsable numeric attributes and a
    threshold for each of them gets a prediction. *)
Theorem prediction_follows_the_votes :
  forall (c : classifier) (record : list string),
    count_votes c record
    = (bs <- ballots c (attributes record) ;;
       Ok (mk_counters (tally ForPositive bs) (tally ForNegative bs)
             (List.length (numeric_attributes record))))
    /\ predict c record
       = (bs <- ballots c (attributes record) ;;
          Ok (if tally ForNegative bs <? tally ForPositive bs
              then ABOVE_50K else AT_MOST_50K))
    /\ (forall bs, ballots c (attributes record) = Ok bs ->
        (predict c record = Ok ABOVE_50K <-> tally ForNegative bs < tally ForPositive bs)
        /\ (tally ForPositive bs = tally ForNegative bs ->
            predict c record = Ok AT_MOST_50K))
    /\ (evaluable c record = true ->
        exists bs, ballots c (attributes record) = Ok bs).
Proof.
  intros c record.
  assert (Hp : predict c record
               = (bs <- ballots c (attributes record) ;;
                  Ok (if tally ForNegative bs <? tally ForPositive bs
                      then ABOVE_50K else AT_MOST_50K))).
  { unfold predict; rewrite count_votes_ballots.
    destruct (ballots c (attributes record)); reflexivity. }
  split; [apply count_votes_ballots|].
  split; [exact Hp|].
  split; [|apply ballots_defined].
  intros bs Hbs; rewrite Hp, Hbs; simpl; split.
  - destruct (Nat.ltb_spec (tally ForNegative bs) (tally ForPositive bs)); split;
      intros H'; try assumption; try reflexivity; try discriminate; lia.
  - intros ->; rewrite Nat.ltb_irrefl; reflexivity.
Qed.

Lemma prediction_follows_the_votes_witness :
  exists bs, ballots sample_classifier (attributes sample_record) = Ok bs.
Proof.
  exact (proj2 (proj2 (proj2
    (prediction_follows_the_votes sample_classifier sample_record))) eq_refl).
Defined.

(* ----------------------------------------------------------------- *)
(** ** Numeric and categorical values *)

Ltac by_code :=
  repeat match goal with
  | H : context [Nat.leb ?a ?b] |- _ => destruct (Nat.leb_spec a b)
  | |- context [Nat.leb ?a ?b] => destruct (Nat.leb_spec a b)
  | H : context [Nat.eqb ?a ?b] |- _ => destruct (Nat.eqb_spec a b)
  | |- context [Nat.eqb ?a ?b] => destruct (Nat.eqb_spec a b)
  end; simpl in *; try discriminate; try reflexivity; try lia.

Lemma numeric_ascii_is_decimal (c : ascii) :
  is_numeric_char c = true -> code c < 128 -> is_decimal c = true.
Proof.
  unfold is_numeric_char, is_decimal; generalize (code c); intros n H Hn; by_code.
Qed.

Lemma decimal_is_not_space (c : ascii) : is_decimal c = true -> is_int_space c = false.
Proof. unfold is_decimal, is_int_space; generalize (code c); intros n H; by_code. Qed.

Lemma decimal_is_not_sign (c : ascii) :
  is_decimal c = true -> Ascii.eqb c "+" = false /\ Ascii.eqb c "-" = false.
Proof.
  intros H; split;
    match goal with |- Ascii.eqb c ?s = false =>
      destruct (Ascii.eqb_spec c s) as [->|_]; [discriminate H|reflexivity]
    end.
Qed.

Lemma rstrip_decimal (s : string) :
  all_chars is_decimal s = true -> rstrip_with is_int_space s = s.
Proof.
  induction s as [|c t IH]; [reflexivity|].
  cbn [all_chars rstrip_with]; intros H; apply andb_prop in H; destruct H as [Hc Ht].
  rewrite (IH Ht), (decimal_is_not_space c Hc); destruct t; reflexivity.
Qed.

Lemma strip_decimal (s : string) :
  all_chars is_decimal s = true -> strip_with is_int_space s = s.
Proof.
  intros H; unfold strip_with.
  replace (lstrip_with is_int_space s) with s; [apply rstrip_decimal; exact H|].
  destruct s as [|c t]; [reflexivity|].
  cbn [all_chars] in H; apply andb_prop in H; destruct H as [Hc _].
  cbn [lstrip_with]; rewrite (decimal_is_not_space c Hc); reflexivity.
Qed.

Lemma digit_value_nonneg (c : ascii) : (0 <= digit_value c)%Z.
Proof. unfold digit_value; lia. Qed.

Lemma digits_loop_decimal (s : string) (acc : Z) :
  all_chars is_decimal s = true -> (0 <= acc)%Z ->
  exists n, digits_loop acc false s = Some n /\ (0 <= n)%Z.
Proof.
  revert acc; induction s as [|c t IH]; intros acc H Hacc.
  - exists acc; split; [reflexivity|exact Hacc].
  - cbn [all_chars digits_loop] in *; apply andb_prop in H; destruct H as [Hc Ht].
    rewrite Hc; apply IH; [exact Ht|].
    pose proof (digit_value_nonneg c); lia.
Qed.

Lemma count_digits_app (s1 s2 : string) :
  count_digits (s1 ++ s2) = count_digits s1 + count_digits s2.
Proof.
  induction s1 as [|c t IH]; [reflexivity|].
  cbn [append count_digits]; rewrite IH; apply Nat.add_assoc.
Qed.

Lemma count_digits_decimal (s : string) :
  all_chars is_decimal s = true -> count_digits s = String.length s.
Proof.
  induction s as [|c t IH]; [reflexivity|].
  cbn [all_chars count_digits String.length]; intros H.
  apply andb_prop in H; destruct H as [-> Ht]; rewrite (IH Ht); reflexivity.
Qed.

Lemma space_is_not_decimal (c : ascii) : is_int_space c = true -> is_decimal c = false.
Proof.
  intros H; destruct (is_decimal c) eqn:E; [|reflexivity].
  rewrite (decimal_is_not_space c E) in H; discriminate.
Qed.

Lemma count_digits_white (w : string) :
  all_chars is_int_space w = true -> count_digits w = 0.
Proof.
  induction w as [|c t IH]; [reflexivity|].
  cbn [all_chars count_digits]; intros H; apply andb_prop in H; destruct H as [Hc Ht].
  rewrite (space_is_not_decimal c Hc), (IH Ht); reflexivity.
Qed.

(** [int] returns exactly when the text is that of an integer and has no
    more digits than the limit. *)
Lemma int_ok (a : string) (n : Z) :
  int a = Ok n <-> parse_int a = Some n /\ count_digits a <= int_max_str_digits.
Proof.
  unfold int; destruct (parse_int a) as [z|].
  - destruct (Nat.leb_spec (count_digits a) int_max_str_digits) as [H|H]; split.
    + intros E; injection E as <-; split; [reflexivity|exact H].
    + intros [E _]; injection E as <-; reflexivity.
    + discriminate.
    + intros [_ H']; lia.
  - split; [discriminate|intros [E _]; discriminate E].
Qed.

Lemma parse_int_decimal (s : string) :
  all_chars is_decimal s = true -> parse_int s = parse_decimal s.
Proof.
  intros H; unfold parse_int; rewrite (strip_decimal s H).
  destruct s as [|c t]; [reflexivity|].
  cbn [all_chars] in H; apply andb_prop in H; destruct H as [Hc Ht].
  destruct (decimal_is_not_sign c Hc) as [-> ->]; reflexivity.
Qed.

(** A non-empty string of decimal digits is the text of a non-negative
    integer, and [int] returns it when the string is not longer than the
    limit on the digits. *)
Lemma decimal_parse (s : string) :
  s <> "" -> all_chars is_decimal s = true ->
  exists n, parse_int s = Some n /\ (0 <= n)%Z.
Proof.
  intros Hne H; rewrite (parse_int_decimal s H).
  destruct s as [|c t]; [congruence|].
  cbn [all_chars] in H; apply andb_prop in H; destruct H as [Hc Ht].
  unfold parse_decimal; rewrite Hc.
  destruct (digits_loop_decimal t (digit_value c) Ht (digit_value_nonneg c))
    as (n & -> & Hn).
  exists n; split; [reflexivity|exact Hn].
Qed.

Lemma decimal_parses (s : string) :
  s <> "" -> all_chars is_decimal s = true ->
  String.length s <= int_max_str_digits ->
  exists n, int s = Ok n /\ (0 <= n)%Z.
Proof.
  intros Hne H Hlen.
  destruct (decimal_parse s Hne H) as (n & Hp & Hn).
  exists n; split; [|exact Hn].
  apply int_ok; split; [exact Hp|].
  rewrite (count_digits_decimal s H); exact Hlen.
Qed.

Lemma all_chars_and (p q : ascii -> bool) (s : string) :
  all_chars p s = true -> all_chars q s = true ->
  all_chars (fun c => p c && q c) s = true.
Proof.
  induction s as [|c t IH]; [reflexivity|]; cbn [all_chars]; intros Hp Hq.
  apply andb_prop in Hp; apply andb_prop in Hq.
  destruct Hp as [-> Hp], Hq as [-> Hq]; rewrite (IH Hp Hq); reflexivity.
Qed.

Lemma all_chars_impl (p q : ascii -> bool) (s : string) :
  (forall c, p c = true -> q c = true) -> all_chars p s = true -> all_chars q s = true.
Proof.
  intros Hpq; induction s as [|c t IH]; [reflexivity|]; cbn [all_chars]; intros H.
  apply andb_prop in H; destruct H as [Hc Ht]; rewrite (Hpq c Hc), (IH Ht); reflexivity.
Qed.

Lemma isnumeric_iff (a : string) :
  isnumeric a = true <-> a <> "" /\ all_chars is_numeric_char a = true.
Proof.
  destruct a as [|c t]; cbn [isnumeric].
  - split; [discriminate|intros [H _]; congruence].
  - split; [intros H; split; [discriminate|exact H]|tauto].
Qed.

Lemma numeric_is_not_space (c : ascii) : is_numeric_char c = true -> is_int_space c = false.
Proof.
  unfold is_numeric_char, is_decimal, is_int_space; generalize (code c); intros n H; by_code.
Qed.

Lemma numeric_is_not_sign (c : ascii) :
  is_numeric_char c = true -> Ascii.eqb c "+" = false /\ Ascii.eqb c "-" = false.
Proof.
  intros H; split;
    match goal with |- Ascii.eqb c ?s = false =>
      destruct (Ascii.eqb_spec c s) as [->|_]; [discriminate H|reflexivity]
    end.
Qed.

Lemma strip_nothing (p : ascii -> bool) (s : string) :
  all_chars (fun c => negb (p c)) s = true -> strip_with p s = s.
Proof.
  intros H; unfold strip_with.
  replace (lstrip_with p s) with s.
  - induction s as [|c t IH]; [reflexivity|].
    cbn [all_chars rstrip_with] in *; apply andb_prop in H; destruct H as [Hc Ht].
    apply negb_true_iff in Hc; rewrite (IH Ht), Hc; destruct t; reflexivity.
  - destruct s as [|c t]; [reflexivity|].
    cbn [all_chars] in H; apply andb_prop in H; destruct H as [Hc _].
    apply negb_true_iff in Hc; cbn [lstrip_with]; rewrite Hc; reflexivity.
Qed.

Lemma digits_loop_nonneg (s : string) (acc : Z) (u : bool) (n : Z) :
  digits_loop acc u s = Some n -> (0 <= acc)%Z -> (0 <= n)%Z.
Proof.
  revert acc u; induction s as [|c t IH]; intros acc u; cbn [digits_loop].
  - destruct u; [discriminate|]; intros H; injection H as <-; trivial.
  - destruct (is_decimal c).
    + intros H Hacc; apply (IH _ _ H); pose proof (digit_value_nonneg c); lia.
    + destruct (Ascii.eqb c "_" && negb u); [apply IH|discriminate].
Qed.

(** The numeric pools hold non-negative integers only. *)
Lemma numeric_value_nonneg (a : string) (z : Z) :
  isnumeric a = true -> int a = Ok z -> (0 <= z)%Z.
Proof.
  intros Hnum; apply isnumeric_iff in Hnum; destruct Hnum as [Hne Hall].
  intros Hint; apply int_ok in Hint; destruct Hint as [Hint _]; revert Hint.
  unfold parse_int.
  rewrite strip_nothing
    by (apply (all_chars_impl is_numeric_char); [|exact Hall];
        intros c Hc; rewrite (numeric_is_not_space c Hc); reflexivity).
  destruct a as [|c t]; [congruence|].
  cbn [all_chars] in Hall; apply andb_prop in Hall; destruct Hall as [Hc _].
  destruct (numeric_is_not_sign c Hc) as [-> ->].
  unfold parse_decimal.
  destruct (is_decimal c); [|discriminate].
  destruct (digits_loop (digit_value c) false t) as [n|] eqn:E; [|discriminate].
  intros H; injection H as <-.
  exact (digits_loop_nonneg _ _ _ _ E (digit_value_nonneg c)).
Qed.

(** The cursor advances once for each numeric attribute, which casts one
    vote; any other attribute casts one vote at most. *)
Lemma vote_counts (c : classifier) (attrs : list string) (st st' : counters) :
  for_each (vote c) attrs st = Ok st' ->
  next_index st' = next_index st + List.length (filter isnumeric attrs)
  /\ pos_counter st + neg_counter st + List.length (filter isnumeric attrs)
     <= pos_counter st' + neg_counter st'
  /\ pos_counter st' + neg_counter st'
     <= pos_counter st + neg_counter st + List.length attrs
  /\ pos_counter st <= pos_counter st' /\ neg_counter st <= neg_counter st'.
Proof.
  revert st; induction attrs as [|a attrs IH]; intros st; cbn [for_each filter].
  - intros H; injection H as <-; simpl; lia.
  - unfold vote at 1.
    destruct (isnumeric a).
    + destruct (int a) as [x|]; cbn [bind]; [|discriminate].
      destruct (index (fst c) (next_index st)) as [t|]; cbn [bind]; [|discriminate].
      destruct (int_gt x t); cbn [bind]; intros H; apply IH in H; simpl in *; lia.
    + destruct (dict_get (snd c) a) as [[| |]|]; cbn [bind]; intros H; apply IH in H;
        simpl in *; lia.
Qed.

(* ----------------------------------------------------------------- *)
(** ** The builder: the pools *)

Lemma last_item_cons {A : Type} (x : A) (l : list A) :
  exists y, last_item (x :: l) = Ok y.
Proof.
  unfold last_item; destruct (rev (x :: l)) as [|y r] eqn:E; [|eexists; reflexivity].
  apply (f_equal (@List.length A)) in E; rewrite length_rev in E; discriminate.
Qed.

(** The loops at lines 113-117 and 120-124 split the attributes by
    [isnumeric]. *)
Lemma add_attr_loop (attrs : list string) (num : list Z) (not_num : list string) :
  for_each add_attr attrs (num, not_num)
  = (vs <- map_result int (filter isnumeric attrs) ;;
     Ok (num ++ vs, not_num ++ filter (fun a => negb (isnumeric a)) attrs)).
Proof.
  revert num not_num; induction attrs as [|a attrs IH]; intros num not_num.
  - simpl; rewrite !app_nil_r; reflexivity.
  - cbn [for_each filter]; unfold add_attr at 1.
    destruct (isnumeric a); cbn [negb map_result].
    + destruct (int a) as [v|e]; cbn [bind]; [|reflexivity].
      rewrite IH.
      destruct (map_result int (filter isnumeric attrs)); cbn [bind]; [|reflexivity].
      rewrite <- app_assoc; reflexivity.
    + cbn [bind]; rewrite IH.
      destruct (map_result int (filter isnumeric attrs)); cbn [bind]; [|reflexivity].
      rewrite <- app_assoc; reflexivity.
Qed.

Lemma add_sub_attr_eq (seen : list string) (a : string) :
  add_sub_attr seen a = if isnumeric a then seen else add_new seen a.
Proof.
  unfold add_sub_attr, add_new.
  destruct (isnumeric a), (mem a seen); reflexivity.
Qed.

Lemma add_sub_attr_loop (attrs seen : list string) :
  fold_left add_sub_attr attrs seen
  = fold_left add_new (filter (fun a => negb (isnumeric a)) attrs) seen.
Proof.
  revert seen; induction attrs as [|a attrs IH]; intros seen; [reflexivity|].
  cbn [fold_left filter]; rewrite add_sub_attr_eq.
  destruct (isnumeric a); cbn [negb fold_left]; apply IH.
Qed.

Lemma pool_record_eq (p : pools) (record : list string) :
  pool_record p record
  = match record with
    | [] => Raise IndexError
    | _ :: _ => _ <- numbers record ;; Ok (pooled p record)
    end.
Proof.
  unfold pool_record, pooled, is_positive, number_list, numbers,
    numeric_attributes, categorical_attributes.
  destruct record as [|f fs]; [reflexivity|].
  destruct (last_item_cons f fs) as (label & ->); cbn [bind].
  destruct (String.eqb label ">50K"); rewrite add_attr_loop;
    destruct (map_result int (filter isnumeric (attributes (f :: fs)))); cbn [bind];
    try reflexivity; rewrite add_sub_attr_loop; reflexivity.
Qed.

Lemma pool_record_poolable (p : pools) (record : list string) :
  poolable record = true -> pool_record p record = Ok (pooled p record).
Proof.
  rewrite pool_record_eq; unfold poolable.
  destruct record; [discriminate|].
  destruct (numbers _); [reflexivity|discriminate].
Qed.

Lemma pool_record_ok (p p' : pools) (record : list string) :
  pool_record p record = Ok p' -> poolable record = true /\ p' = pooled p record.
Proof.
  rewrite pool_record_eq; unfold poolable.
  destruct record; [discriminate|].
  destruct (numbers _); cbn [bind]; [|discriminate].
  intros H; injection H as <-; split; reflexivity.
Qed.

Lemma pooled_all_cons (p : pools) (record : list string) (data : list (list string)) :
  pooled_all (pooled p record) data = pooled_all p (record :: data).
Proof.
  unfold pooled_all, pooled, positives, negatives, categorical_pool.
  cbn [filter flat_map]; rewrite fold_left_app.
  destruct (is_positive record); cbn [negb flat_map pos_num_attr neg_num_attr
    pos_not_num_attr neg_not_num_attr not_num_sub_attr];
    rewrite <- !app_assoc; reflexivity.
Qed.

Lemma pools_loop_poolable (data : list (list string)) (p : pools) :
  forallb poolable data = true ->
  for_each pool_record data p = Ok (pooled_all p data).
Proof.
  revert p; induction data as [|record data IH]; intros p H.
  - unfold pooled_all; simpl; rewrite !app_nil_r; destruct p; reflexivity.
  - simpl in H; apply andb_prop in H; destruct H as [Hr Hd].
    cbn [for_each]; rewrite (pool_record_poolable p record Hr); cbn [bind].
    rewrite (IH _ Hd); f_equal; apply pooled_all_cons.
Qed.

Lemma pools_loop_ok (data : list (list string)) (p p' : pools) :
  for_each pool_record data p = Ok p' ->
  forallb poolable data = true /\ p' = pooled_all p data.
Proof.
  revert p; induction data as [|record data IH]; intros p H.
  - simpl in H; injection H as <-; split; [reflexivity|].
    unfold pooled_all; simpl; rewrite !app_nil_r; destruct p; reflexivity.
  - cbn [for_each] in H.
    destruct (pool_record p record) as [q|e] eqn:E; cbn [bind] in H; [|discriminate].
    destruct (pool_record_ok _ _ _ E) as [Hr ->].
    destruct (IH _ H) as [Hd ->].
    split; [simpl; rewrite Hr, Hd; reflexivity|apply pooled_all_cons].
Qed.

Lemma fill_pools_poolable (data : list (list string)) :
  forallb poolable data = true ->
  fill_pools data = Ok (pooled_all pools_init data).
Proof. apply pools_loop_poolable. Qed.

Lemma fill_pools_ok (data : list (list string)) (p : pools) :
  fill_pools data = Ok p ->
  forallb poolable data = true /\ p = pooled_all pools_init data.
Proof. apply pools_loop_ok. Qed.

(* ----------------------------------------------------------------- *)
(** ** Reading a pool with a stride *)

Lemma stride_skip {A : Type} (k w : nat) (l1 l2 : list A) :
  List.length l1 <= w -> stride k w (l1 ++ l2) = stride k (w - List.length l1) l2.
Proof.
  revert w; induction l1 as [|x l1 IH]; intros w H; simpl.
  - rewrite Nat.sub_0_r; reflexivity.
  - simpl in H; destruct w as [|w]; [lia|].
    apply IH; lia.
Qed.

(** One record's worth of values gives the lane its entry and leaves the
    stride in phase for the next record. *)
Lemma stride_chunk {A : Type} (k w : nat) (chunk rest : list A) (d : A) :
  List.length chunk = k -> w < k ->
  stride k w (chunk ++ rest) = nth w chunk d :: stride k w rest.
Proof.
  intros Hlen Hw.
  destruct (nth_split chunk d (n := w)) as (a & b & Hc & Ha); [lia|].
  rewrite Hc at 1; rewrite <- app_assoc, stride_skip by lia.
  rewrite Ha, Nat.sub_diag; cbn [app stride]; f_equal.
  assert (Hb : List.length b = k - 1 - w).
  { apply (f_equal (@List.length A)) in Hc.
    rewrite length_app in Hc; simpl in Hc; lia. }
  rewrite stride_skip by lia; f_equal; lia.
Qed.

Lemma stride_chunks {A B : Type} (k w : nat) (f : B -> list A) (d : A) (l : list B) :
  (forall x, In x l -> List.length (f x) = k) -> w < k ->
  stride k w (flat_map f l) = map (fun x => nth w (f x) d) l.
Proof.
  intros H Hw; induction l as [|x l IH]; [reflexivity|].
  cbn [flat_map map].
  rewrite (stride_chunk k w (f x) _ d) by (try apply H; try left; auto).
  f_equal; apply IH; intros y Hy; apply H; right; exact Hy.
Qed.

(* ----------------------------------------------------------------- *)
(** ** The builder: numeric thresholds *)

Lemma map_result_ext_in {A B : Type} (f g : A -> result B) (xs : list A) :
  (forall x, In x xs -> f x = g x) -> map_result f xs = map_result g xs.
Proof.
  induction xs as [|x xs IH]; intros H; simpl; [reflexivity|].
  rewrite (H x (or_introl eq_refl)), IH; [reflexivity|].
  intros y Hy; apply H; right; exact Hy.
Qed.

Lemma map_result_length {A B : Type} (f : A -> result B) (xs : list A) (ys : list B) :
  map_result f xs = Ok ys -> List.length ys = List.length xs.
Proof.
  revert ys; induction xs as [|x xs IH]; intros ys; simpl.
  - intros H; injection H as <-; reflexivity.
  - destruct (f x); cbn [bind]; [|discriminate].
    destruct (map_result f xs) as [zs|]; cbn [bind]; [|discriminate].
    intros H; injection H as <-; simpl; f_equal; apply IH; reflexivity.
Qed.

Lemma map_result_nth {A B : Type} (f : A -> result B) (xs : list A) (ys : list B)
  (i : nat) (d : A) (e : B) :
  map_result f xs = Ok ys -> i < List.length xs -> f (nth i xs d) = Ok (nth i ys e).
Proof.
  revert ys i; induction xs as [|x xs IH]; intros ys i; simpl; [lia|].
  destruct (f x) as [y|] eqn:E; cbn [bind]; [|discriminate].
  destruct (map_result f xs) as [zs|]; cbn [bind]; [|discriminate].
  intros H Hi; injection H as <-.
  destruct i as [|i]; [exact E|].
  simpl; apply IH; [reflexivity|lia].
Qed.

Lemma has_five_numbers_poolable (data : list (list string)) :
  forallb has_five_numbers data = true -> forallb poolable data = true.
Proof.
  rewrite !forallb_forall; intros H r Hr.
  specialize (H r Hr); unfold has_five_numbers in H.
  apply andb_prop in H; tauto.
Qed.

Lemma has_five_numbers_length (data : list (list string)) (r : list string) :
  forallb has_five_numbers data = true -> In r data ->
  List.length (number_list r) = 5.
Proof.
  rewrite forallb_forall; intros H Hr.
  specialize (H r Hr); unfold has_five_numbers in H.
  apply andb_prop in H; destruct H as [_ H]; apply Nat.eqb_eq in H; exact H.
Qed.

(** With five numbers in every record, reading a numeric pool with
    stride 5 from position [i] gives the [i]-th number of each record. *)
Lemma numeric_pool_lane (data : list (list string)) (keep : list string -> bool) (i : nat) :
  forallb has_five_numbers data = true -> i < 5 ->
  slice_step i 5 (flat_map number_list (filter keep data)) = lane i (filter keep data).
Proof.
  intros H Hi; unfold slice_step, lane.
  apply stride_chunks; [|exact Hi].
  intros r Hr; apply filter_In in Hr.
  apply (has_five_numbers_length data r H); tauto.
Qed.

Lemma midpoints_lanes (data : list (list string)) :
  forallb has_five_numbers data = true ->
  midpoints (pooled_all pools_init data)
  = map_result (fun i => midpoint_of (lane i (positives data)) (lane i (negatives data)))
      (seq 0 5).
Proof.
  intros H; unfold midpoints; apply map_result_ext_in.
  intros i Hi; apply in_seq in Hi.
  unfold midpoint, midpoint_of, pooled_all, positives, negatives;
    cbn [pos_num_attr neg_num_attr pools_init app].
  rewrite !numeric_pool_lane by (try exact H; lia); reflexivity.
Qed.

Lemma create_classifier_midpoints (data : list (list string)) (midpoint_num : list float)
  (table : dict) :
  create_classifier data = Ok (midpoint_num, table) ->
  exists p, fill_pools data = Ok p /\ midpoints p = Ok midpoint_num.
Proof.
  unfold create_classifier.
  destruct (fill_pools data) as [p|]; cbn [bind]; [|discriminate].
  destruct (midpoints p) as [m|] eqn:Em; cbn [bind]; [|discriminate].
  destruct (outcomes p); cbn [bind]; [|discriminate].
  intros H; injection H as <- _; exists p; split; [reflexivity|exact Em].
Qed.



(* ----------------------------------------------------------------- *)
(** ** The builder: distinct values and the sentiment table *)

Lemma mem_app (v : string) (l1 l2 : list string) :
  mem v (l1 ++ l2) = mem v l1 || mem v l2.
Proof. unfold mem; apply existsb_app. Qed.

Lemma filter_comp {A : Type} (f g : A -> bool) (l : list A) :
  filter f (filter g l) = filter (fun x => g x && f x) l.
Proof.
  induction l as [|x l IH]; simpl; [reflexivity|].
  destruct (g x); simpl; [destruct (f x)|]; rewrite IH; reflexivity.
Qed.

Lemma filter_other_absorbed (p : string -> bool) (y : string) (l : list string) :
  p y = false ->
  filter p (filter (fun z => negb (String.eqb y z)) l) = filter p l.
Proof.
  intros Hy; rewrite filter_comp; apply filter_ext; intros z.
  destruct (String.eqb_spec y z) as [->|_]; simpl; [rewrite Hy|]; reflexivity.
Qed.

Lemma first_occurrences_filter (p : string -> bool) (l : list string) :
  first_occurrences (filter p l) = filter p (first_occurrences l).
Proof.
  induction l as [|y t IH]; [reflexivity|].
  cbn [filter first_occurrences]; destruct (p y) eqn:Hy.
  - cbn [first_occurrences]; f_equal.
    rewrite IH, !filter_comp; apply filter_ext; intros z; apply andb_comm.
  - rewrite IH, filter_other_absorbed by exact Hy; reflexivity.
Qed.

(** The loop of the comprehension collects the first occurrences. *)
Lemma add_new_loop (l seen : list string) :
  fold_left add_new l seen
  = seen ++ first_occurrences (filter (fun x => negb (mem x seen)) l).
Proof.
  revert seen; induction l as [|x t IH]; intros seen.
  - simpl; rewrite app_nil_r; reflexivity.
  - cbn [fold_left filter]; unfold add_new at 2.
    destruct (mem x seen) eqn:Hx; cbn [negb]; [apply IH|].
    rewrite IH, <- app_assoc; cbn [app first_occurrences]; do 2 f_equal.
    rewrite <- first_occurrences_filter, filter_comp.
    f_equal; apply filter_ext; intros y.
    rewrite mem_app; unfold mem at 2; cbn [existsb].
    rewrite orb_false_r, negb_orb, (String.eqb_sym y x); reflexivity.
Qed.

Lemma add_new_first_occurrences (l : list string) :
  fold_left add_new l [] = first_occurrences l.
Proof.
  rewrite add_new_loop; cbn [app]; f_equal.
  induction l as [|x t IH]; [reflexivity|]; simpl; f_equal; exact IH.
Qed.

Lemma first_occurrences_In (l : list string) (y : string) :
  In y (first_occurrences l) <-> In y l.
Proof.
  induction l as [|x t IH]; [reflexivity|].
  cbn [first_occurrences]; split.
  - intros [->|H]; [left; reflexivity|].
    apply filter_In in H; right; apply IH; tauto.
  - intros [->|H]; [left; reflexivity|].
    destruct (String.eqb_spec x y) as [->|Hn]; [left; reflexivity|].
    right; apply filter_In; split; [apply IH; exact H|].
    apply negb_true_iff, String.eqb_neq; exact Hn.
Qed.

Lemma first_occurrences_NoDup (l : list string) : NoDup (first_occurrences l).
Proof.
  induction l as [|x t IH]; [constructor|].
  cbn [first_occurrences]; constructor; [|apply NoDup_filter; exact IH].
  intros H; apply filter_In in H; destruct H as [_ H].
  rewrite String.eqb_refl in H; discriminate.
Qed.

(** *** The dictionary built from distinct keys *)

Lemma dict_set_fresh (d : dict) (k : string) (v : sentiment) :
  ~ In k (map fst d) -> dict_set d k v = d ++ [(k, v)].
Proof.
  induction d as [|[k' v'] d IH]; intros H; simpl; [reflexivity|].
  simpl in H.
  destruct (String.eqb_spec k' k) as [->|_]; [exfalso; apply H; left; reflexivity|].
  rewrite IH; [reflexivity|]; intros Hin; apply H; right; exact Hin.
Qed.

Lemma dict_of_loop (pairs acc : list (string * sentiment)) :
  NoDup (map fst acc ++ map fst pairs) ->
  fold_left (fun d kv => dict_set d (fst kv) (snd kv)) pairs acc = acc ++ pairs.
Proof.
  revert acc; induction pairs as [|[k v] pairs IH]; intros acc H.
  - simpl; rewrite app_nil_r; reflexivity.
  - cbn [fold_left fst snd map] in *.
    rewrite dict_set_fresh.
    + rewrite IH; [rewrite <- app_assoc; reflexivity|].
      rewrite map_app, <- app_assoc; exact H.
    + intros Hin; apply NoDup_remove_2 in H; apply H, in_or_app; left; exact Hin.
Qed.

Lemma dict_of_distinct (pairs : list (string * sentiment)) :
  NoDup (map fst pairs) -> dict_of pairs = pairs.
Proof. intros H; unfold dict_of; rewrite dict_of_loop; [reflexivity|exact H]. Qed.

Lemma combine_keys {A : Type} (f : string -> result A) (keys : list string) (vals : list A) :
  map_result f keys = Ok vals -> map fst (combine keys vals) = keys.
Proof.
  revert vals; induction keys as [|k keys IH]; intros vals; simpl; [reflexivity|].
  destruct (f k); cbn [bind]; [|discriminate].
  destruct (map_result f keys) as [vs|]; cbn [bind]; [|discriminate].
  intros H; injection H as <-; simpl; f_equal; apply IH; reflexivity.
Qed.

Lemma dict_get_combine (f : string -> result sentiment) (keys : list string)
  (vals : list sentiment) (v : string) :
  map_result f keys = Ok vals ->
  (In v keys -> exists s, f v = Ok s /\ dict_get (combine keys vals) v = Some s)
  /\ (~ In v keys -> dict_get (combine keys vals) v = None).
Proof.
  revert vals; induction keys as [|k keys IH]; intros vals; simpl.
  - intros _; split; [tauto|reflexivity].
  - destruct (f k) as [y|] eqn:Ek; cbn [bind]; [|discriminate].
    destruct (map_result f keys) as [vs|]; cbn [bind]; [|discriminate].
    intros H; injection H as <-; cbn [combine dict_get].
    destruct (IH vs eq_refl) as [IH1 IH2].
    destruct (String.eqb_spec k v) as [->|Hn]; split.
    + intros _; exists y; split; [exact Ek|reflexivity].
    + intros Hv; exfalso; apply Hv; left; reflexivity.
    + intros [->|Hv]; [congruence|apply IH1; exact Hv].
    + intros Hv; apply IH2; intros Hin; apply Hv; right; exact Hin.
Qed.

(** *** Occurrence rates *)

Lemma true_divide_nat (a b : nat) (q : float) :
  true_divide (Z.of_nat a) (Z.of_nat b) = Ok q -> exists m, q = Fin false m.
Proof.
  unfold true_divide, round.
  destruct (Z.of_nat b =? 0)%Z; [discriminate|].
  replace (Z.of_nat a <? 0)%Z with false by (symmetry; apply Z.ltb_ge; lia).
  replace (Z.of_nat b <? 0)%Z with false by (symmetry; apply Z.ltb_ge; lia).
  cbn [xorb].
  destruct (_ <? overflow_from)%Z; [|discriminate].
  intros H; injection H as <-; eexists; reflexivity.
Qed.

Lemma six_categories_lane_count (data : list (list string)) (keep : list string -> bool) :
  forallb has_six_categories data = true ->
  lane_count (categorical_pool (filter keep data)) = List.length (filter keep data).
Proof.
  intros H; unfold lane_count, slice_step, categorical_pool.
  rewrite (stride_chunks 6 0 categorical_attributes "") by
    (try lia; intros r Hr; apply filter_In in Hr; rewrite forallb_forall in H;
     apply Nat.eqb_eq, H; tauto).
  apply length_map.
Qed.

Lemma create_classifier_outcomes (data : list (list string)) (midpoint_num : list float)
  (table : dict) :
  create_classifier data = Ok (midpoint_num, table) ->
  exists outs,
    outcomes (pooled_all pools_init data) = Ok outs
    /\ table = combine (first_occurrences (categorical_pool data)) outs.
Proof.
  unfold create_classifier.
  destruct (fill_pools data) as [p|] eqn:Ep; cbn [bind]; [|discriminate].
  destruct (fill_pools_ok _ _ Ep) as [_ ->].
  destruct (midpoints _); cbn [bind]; [|discriminate].
  destruct (outcomes _) as [outs|] eqn:Eo; cbn [bind]; [|discriminate].
  intros H; injection H as _ <-; exists outs; split; [reflexivity|].
  unfold outcomes in Eo.
  cbn [pooled_all not_num_sub_attr pools_init] in *.
  rewrite add_new_first_occurrences in *.
  apply dict_of_distinct.
  rewrite (combine_keys _ _ _ Eo); apply first_occurrences_NoDup.
Qed.

(** C2: the table of a classifier has one entry for each distinct
    categorical value of the training records, in the order of the first
    occurrences.  The sentiment of a value [v] compares two floats: the
    count of [v] in the positive categorical pool divided by the lane
    count [len(pool[::6])] of that pool, and the same for the negative
    pool.  It is Positive exactly when the first is strictly greater,
    Negative exactly when it is strictly less, Neutral exactly when the
    two are equal; no other value has an entry.  With 6 categorical
    attributes in every record the lane count of a pool is its number of
    records. *)
Theorem sentiment_compares_occurrence_rates :
  forall (data : list (list string)) (midpoint_num : list float) (table : dict),
    create_classifier data = Ok (midpoint_num, table) ->
    map fst table = first_occurrences (categorical_pool data)
    /\ (forall v, In v (categorical_pool data) ->
        exists pos_ave neg_ave,
          rate v (categorical_pool (positives data)) = Ok pos_ave
          /\ rate v (categorical_pool (negatives data)) = Ok neg_ave
          /\ (dict_get table v = Some Positive <-> fgt pos_ave neg_ave = true)
          /\ (dict_get table v = Some Negative <-> flt pos_ave neg_ave = true)
          /\ (dict_get table v = Some Neutral <-> pos_ave = neg_ave))
    /\ (forall v, ~ In v (categorical_pool data) -> dict_get table v = None)
    /\ (forallb has_six_categories data = true ->
        lane_count (categorical_pool (positives data)) = List.length (positives data)
        /\ lane_count (categorical_pool (negatives data)) = List.length (negatives data)).
Proof.
  intros data midpoint_num table H.
  destruct (create_classifier_outcomes _ _ _ H) as (outs & Ho & ->).
  unfold outcomes in Ho; cbn [pooled_all not_num_sub_attr pools_init] in Ho.
  rewrite add_new_first_occurrences in Ho.
  split; [exact (combine_keys _ _ _ Ho)|].
  split; [|split].
  - intros v Hv.
    destruct (proj1 (dict_get_combine _ _ _ v Ho)) as (s & Hs & Hg);
      [apply first_occurrences_In; exact Hv|].
    rewrite Hg; clear Hg Ho.
    unfold outcome in Hs; cbn [pooled_all pos_not_num_attr neg_not_num_attr pools_init app]
      in Hs.
    fold (lane_count (categorical_pool (positives data))) in Hs.
    fold (lane_count (categorical_pool (negatives data))) in Hs.
    fold (rate v (categorical_pool (positives data))) in Hs.
    fold (rate v (categorical_pool (negatives data))) in Hs.
    destruct (rate v (categorical_pool (positives data))) as [pos_ave|] eqn:Ep;
      cbn [bind] in Hs; [|discriminate].
    destruct (rate v (categorical_pool (negatives data))) as [neg_ave|] eqn:En;
      cbn [bind] in Hs; [|discriminate].
    exists pos_ave, neg_ave; split; [reflexivity|]; split; [reflexivity|].
    destruct (true_divide_nat _ _ _ Ep) as (a & ->).
    destruct (true_divide_nat _ _ _ En) as (b & ->).
    injection Hs as <-; unfold fgt, flt, signed.
    destruct (Z.ltb_spec b a), (Z.ltb_spec a b); try lia;
      repeat split; intros H'; try discriminate; try reflexivity; try lia;
      try (injection H' as H'; lia); f_equal; lia.
  - intros v Hv; apply (proj2 (dict_get_combine _ _ _ v Ho)).
    rewrite first_occurrences_In; exact Hv.
  - intros H6; split; apply six_categories_lane_count; exact H6.
Qed.

Lemma sentiment_compares_occurrence_rates_witness :
  exists midpoint_num table,
    create_classifier [record_fifty; record_thirty] = Ok (midpoint_num, table)
    /\ map fst table
       = first_occurrences (categorical_pool [record_fifty; record_thirty]).
Proof.
  assert (H : {c | create_classifier [record_fifty; record_thirty] = Ok c})
    by (eexists; vm_compute; reflexivity).
  destruct H as [[midpoint_num table] H].
  exists midpoint_num, table; split; [exact H|].
  exact (proj1 (sentiment_compares_occurrence_rates _ _ _ H)).
Defined.

(** The specification's scenario: [Private] occurs once per record in both
    pools, so its sentiment is Neutral. *)
Example private_is_neutral :
  exists midpoint_num table,
    create_classifier [record_fifty; record_thirty] = Ok (midpoint_num, table)
    /\ dict_get table "Private" = Some Neutral
    /\ dict_get table "Female" = Some Negative
    /\ dict_get table "Husband" = Some Positive.
Proof. do 2 eexists; vm_compute; repeat split. Qed.

(* ----------------------------------------------------------------- *)
(** ** Numeric values and texts of integers *)

Lemma decimal_is_numeric (c : ascii) : is_decimal c = true -> is_numeric_char c = true.
Proof. intros H; unfold is_numeric_char; rewrite H; reflexivity. Qed.

Lemma space_is_not_numeric (c : ascii) : is_int_space c = true -> is_numeric_char c = false.
Proof.
  intros H; destruct (is_numeric_char c) eqn:E; [|reflexivity].
  rewrite (numeric_is_not_space c E) in H; discriminate.
Qed.

Lemma numeric_is_not_underscore (c : ascii) :
  is_numeric_char c = true -> Ascii.eqb c "_" = false.
Proof.
  intros H; destruct (Ascii.eqb_spec c "_") as [->|_]; [discriminate H|reflexivity].
Qed.

Lemma all_chars_app (p : ascii -> bool) (s1 s2 : string) :
  all_chars p (s1 ++ s2) = all_chars p s1 && all_chars p s2.
Proof.
  induction s1 as [|c t IH]; [reflexivity|].
  cbn [append all_chars]; rewrite IH; apply andb_assoc.
Qed.

(** A text with a character that is not numeric is not numeric. *)
Lemma not_numeric_with (s1 s2 : string) (c : ascii) :
  is_numeric_char c = false -> isnumeric (s1 ++ String c s2) = false.
Proof.
  intros Hc; destruct (isnumeric (s1 ++ String c s2)) eqn:E; [|reflexivity].
  apply isnumeric_iff in E; destruct E as [_ E].
  rewrite all_chars_app in E; cbn [all_chars] in E; rewrite Hc in E.
  rewrite andb_false_r in E; discriminate.
Qed.

(** Numeric characters that are not decimal digits stop the conversion. *)
Lemma digits_loop_not_decimal (s : string) (acc : Z) (u : bool) :
  all_chars is_numeric_char s = true -> all_chars is_decimal s = false ->
  digits_loop acc u s = None.
Proof.
  revert acc u; induction s as [|c t IH]; intros acc u; [discriminate|].
  cbn [all_chars digits_loop]; intros Hn Hd.
  apply andb_prop in Hn; destruct Hn as [Hc Ht].
  destruct (is_decimal c); [apply IH; assumption|].
  rewrite (numeric_is_not_underscore c Hc); reflexivity.
Qed.

Lemma numeric_not_decimal_fails (a : string) :
  isnumeric a = true -> all_chars is_decimal a = false -> parse_int a = None.
Proof.
  intros Hnum Hd; apply isnumeric_iff in Hnum; destruct Hnum as [Hne Hall].
  unfold parse_int.
  rewrite strip_nothing
    by (apply (all_chars_impl is_numeric_char); [|exact Hall];
        intros c Hc; rewrite (numeric_is_not_space c Hc); reflexivity).
  destruct a as [|c t]; [congruence|].
  cbn [all_chars] in Hall, Hd; apply andb_prop in Hall; destruct Hall as [Hc Ht].
  destruct (numeric_is_not_sign c Hc) as [-> ->].
  unfold parse_decimal.
  destruct (is_decimal c); [apply digits_loop_not_decimal; assumption|reflexivity].
Qed.

Lemma numeric_ascii_decimal (a : string) :
  all_chars is_numeric_char a = true -> all_chars is_ascii a = true ->
  all_chars is_decimal a = true.
Proof.
  intros Hall Hascii.
  apply (all_chars_impl (fun ch => is_numeric_char ch && is_ascii ch)).
  - intros ch H; apply andb_prop in H; destruct H as [H1 H2].
    apply numeric_ascii_is_decimal; [exact H1|apply Nat.ltb_lt; exact H2].
  - apply all_chars_and; assumption.
Qed.

(** *** White space around a text *)

Lemma lstrip_app_white (p : ascii -> bool) (w s : string) :
  all_chars p w = true -> lstrip_with p (w ++ s) = lstrip_with p s.
Proof.
  induction w as [|c t IH]; [reflexivity|].
  cbn [all_chars append lstrip_with]; intros H; apply andb_prop in H.
  destruct H as [-> Ht]; exact (IH Ht).
Qed.

Lemma rstrip_white (p : ascii -> bool) (w : string) :
  all_chars p w = true -> rstrip_with p w = "".
Proof.
  induction w as [|c t IH]; [reflexivity|].
  cbn [all_chars rstrip_with]; intros H; apply andb_prop in H.
  destruct H as [-> Ht]; rewrite (IH Ht); reflexivity.
Qed.

Lemma rstrip_app_white (p : ascii -> bool) (s w : string) :
  all_chars p w = true -> rstrip_with p (s ++ w) = rstrip_with p s.
Proof.
  intros H; induction s as [|c t IH]; [exact (rstrip_white p w H)|].
  cbn [append rstrip_with]; rewrite IH; reflexivity.
Qed.

Lemma rstrip_nothing (p : ascii -> bool) (s : string) :
  all_chars (fun c => negb (p c)) s = true -> rstrip_with p s = s.
Proof.
  induction s as [|c t IH]; [reflexivity|].
  cbn [all_chars rstrip_with]; intros H; apply andb_prop in H; destruct H as [Hc Ht].
  apply negb_true_iff in Hc; rewrite (IH Ht), Hc; destruct t; reflexivity.
Qed.

(** Stripping gives back a text that holds no white space, whatever white
    space is put around it. *)
Lemma strip_surrounded (p : ascii -> bool) (w core w' : string) :
  core <> "" -> all_chars (fun c => negb (p c)) core = true ->
  all_chars p w = true -> all_chars p w' = true ->
  strip_with p (w ++ core ++ w') = core.
Proof.
  intros Hne Hcore Hw Hw'; unfold strip_with.
  rewrite (lstrip_app_white p w _ Hw).
  replace (lstrip_with p (core ++ w')) with (core ++ w')%string.
  - rewrite (rstrip_app_white p core w' Hw'); exact (rstrip_nothing p core Hcore).
  - destruct core as [|c t]; [congruence|].
    cbn [all_chars] in Hcore; apply andb_prop in Hcore; destruct Hcore as [Hc _].
    apply negb_true_iff in Hc; cbn [append lstrip_with]; rewrite Hc; reflexivity.
Qed.

Lemma decimal_has_no_space (d : string) :
  all_chars is_decimal d = true ->
  all_chars (fun c => negb (is_int_space c)) d = true.
Proof.
  apply all_chars_impl; intros c Hc; rewrite (decimal_is_not_space c Hc); reflexivity.
Qed.

Lemma count_digits_surrounded (w core w' : string) :
  all_chars is_int_space w = true -> all_chars is_int_space w' = true ->
  count_digits (w ++ core ++ w') = count_digits core.
Proof.
  intros Hw Hw'.
  rewrite !count_digits_app, (count_digits_white w Hw), (count_digits_white w' Hw'); lia.
Qed.

(** White space around a text of digits, and a sign before it, are
    accepted by [int]. *)
Lemma int_surrounded (d w w' : string) (n : Z) :
  all_chars is_decimal d = true -> int d = Ok n ->
  all_chars is_int_space w = true -> all_chars is_int_space w' = true ->
  int (w ++ d ++ w') = Ok n
  /\ int (w ++ "+" ++ d ++ w') = Ok n
  /\ int (w ++ "-" ++ d ++ w') = Ok (- n)%Z.
Proof.
  intros Hd Hint Hw Hw'.
  assert (Hne : d <> "") by (intros ->; discriminate Hint).
  apply int_ok in Hint; destruct Hint as [Hp Hc].
  rewrite (parse_int_decimal d Hd) in Hp.
  pose proof (decimal_has_no_space d Hd) as Hns.
  split; [|split]; apply int_ok.
  - rewrite (count_digits_surrounded w d w' Hw Hw'); split; [|exact Hc].
    unfold parse_int; rewrite (strip_surrounded _ w d w' Hne Hns Hw Hw').
    destruct d as [|c t]; [congruence|].
    cbn [all_chars] in Hd; apply andb_prop in Hd; destruct Hd as [Hc' _].
    destruct (decimal_is_not_sign c Hc') as [-> ->]; exact Hp.
  - change (w ++ "+" ++ d ++ w')%string with (w ++ (String "+" d) ++ w')%string.
    rewrite (count_digits_surrounded w (String "+" d) w' Hw Hw').
    split; [|exact Hc].
    unfold parse_int; rewrite (strip_surrounded _ w (String "+" d) w');
      [exact Hp|discriminate|cbn [all_chars]; rewrite Hns; reflexivity|exact Hw|exact Hw'].
  - change (w ++ "-" ++ d ++ w')%string with (w ++ (String "-" d) ++ w')%string.
    rewrite (count_digits_surrounded w (String "-" d) w' Hw Hw').
    split; [|exact Hc].
    unfold parse_int; rewrite (strip_surrounded _ w (String "-" d) w');
      [|discriminate|cbn [all_chars]; rewrite Hns; reflexivity|exact Hw|exact Hw'].
    change (Ascii.eqb "-" "+") with false; change (Ascii.eqb "-" "-") with true.
    cbv iota; rewrite Hp; reflexivity.
Qed.

(** *** An underscore between digits *)

Lemma digits_loop_underscore (d d' : string) (acc : Z) :
  all_chars is_decimal d = true -> d' <> "" -> all_chars is_decimal d' = true ->
  digits_loop acc false (d ++ "_" ++ d') = digits_loop acc false (d ++ d').
Proof.
  intros Hd Hne Hd'; revert acc; induction d as [|c t IH]; intros acc.
  - destruct d' as [|c' t']; [congruence|].
    cbn [all_chars] in Hd'; apply andb_prop in Hd'; destruct Hd' as [Hc' _].
    change ("" ++ "_" ++ String c' t')%string with (String "_" (String c' t')).
    change ("" ++ String c' t')%string with (String c' t').
    cbn [digits_loop]; rewrite Hc'.
    change (is_decimal "_") with false; change (Ascii.eqb "_" "_") with true.
    reflexivity.
  - cbn [all_chars] in Hd; apply andb_prop in Hd; destruct Hd as [Hc Ht].
    cbn [append digits_loop]; rewrite Hc; apply (IH Ht).
Qed.

Lemma int_underscore (d d' : string) :
  d <> "" -> d' <> "" ->
  all_chars is_decimal d = true -> all_chars is_decimal d' = true ->
  int (d ++ "_" ++ d') = int (d ++ d').
Proof.
  intros Hne Hne' Hd Hd'.
  assert (Hp : parse_int (d ++ "_" ++ d') = parse_int (d ++ d')).
  { pose proof (decimal_has_no_space d Hd) as Hs.
    pose proof (decimal_has_no_space d' Hd') as Hs'.
    unfold parse_int; rewrite !strip_nothing.
    - destruct d as [|c t]; [congruence|].
      cbn [all_chars] in Hd; apply andb_prop in Hd; destruct Hd as [Hc Ht].
      cbn [append]; destruct (decimal_is_not_sign c Hc) as [-> ->].
      unfold parse_decimal; rewrite Hc.
      apply digits_loop_underscore; assumption.
    - rewrite all_chars_app, Hs, Hs'; reflexivity.
    - rewrite all_chars_app; cbn [append all_chars]; rewrite Hs, Hs'; reflexivity. }
  assert (Hc : count_digits (d ++ "_" ++ d') = count_digits (d ++ d')).
  { rewrite !count_digits_app; reflexivity. }
  unfold int; rewrite Hp, Hc; reflexivity.
Qed.

(** The numeric attributes of the records that the builder has pooled are
    texts of integers. *)
Lemma poolable_numbers (record : list string) :
  poolable record = true -> numbers record = Ok (number_list record).
Proof.
  unfold poolable, number_list.
  destruct record; [discriminate|].
  destruct (numbers _); [reflexivity|discriminate].
Qed.

(** C6, as stated, fails in both directions.  The text [-5] parses as the
    integer [-5], yet the builder puts it in the categorical pool and the
    evaluator looks it up in the table, without touching the cursor.  The
    superscript two is numeric for both, yet it is not the text of an
    integer, and the builder ends with [ValueError]. *)
Lemma signed_integer_is_categorical :
  int "-5" = Ok (-5)%Z
  /\ isnumeric "-5" = false
  /\ fill_pools [["-5"; ">50K"]] = Ok (mk_pools [] [] ["-5"] [] ["-5"])
  /\ count_votes ([], [("-5", Positive)]) ["-5"; ">50K"] = Ok (mk_counters 1 0 0)
  /\ isnumeric superscript_two = true
  /\ int superscript_two = Raise ValueError
  /\ fill_pools [[superscript_two; ">50K"]] = Raise ValueError.
Proof. repeat split. Qed.

(** C6, amended.  In the builder and in the evaluator a value is treated
    as numeric exactly when [isnumeric] holds for it, that is when it is
    not empty and all its characters are numeric, and as categorical
    otherwise.  The builder appends the integer of a numeric value to the
    numeric pool and any other value to the categorical pool, so that the
    pools of a class hold the integers of the numeric attributes, and the
    other attributes, of its records.  The evaluator compares the integer
    of a numeric value with the threshold at the cursor and advances the
    cursor, which ends at the number of numeric attributes; it looks any
    other value up in the table and leaves the cursor.

    Being numeric is not being the text of an integer.  A numeric value is
    converted, to a non-negative integer, exactly when it consists of
    decimal digits, at most 4300 of them; for any other numeric value (one
    with a superscript digit or a fraction character, or of more than 4300
    digits) [int] raises [ValueError], and so do the builder's and the
    evaluator's handling of the value.  A numeric value of ASCII
    characters consists of decimal digits.  Among the texts of integers
    the numeric ones are those of decimal digits only: a text of digits
    with a sign, with white space around it or with an underscore between
    its digits is the text of an integer and is categorical. *)
Theorem numeric_exactly_when_isnumeric :
  (forall (a : string),
     (isnumeric a = true <-> a <> "" /\ all_chars is_numeric_char a = true)
     /\ (forall num not_num num' not_num',
           add_attr (num, not_num) a = Ok (num', not_num') ->
           if isnumeric a
           then exists v, int a = Ok v /\ num' = num ++ [v] /\ not_num' = not_num
           else num' = num /\ not_num' = not_num ++ [a])
     /\ (forall c v v',
           vote c v a = Ok v' ->
           if isnumeric a
           then next_index v' = next_index v + 1
                /\ exists x t, int a = Ok x /\ index (fst c) (next_index v) = Ok t
                   /\ pos_counter v' = pos_counter v + (if int_gt x t then 1 else 0)
                   /\ neg_counter v' = neg_counter v + (if int_gt x t then 0 else 1)
           else next_index v' = next_index v
                /\ pos_counter v' = pos_counter v
                   + match dict_get (snd c) a with Some Positive => 1 | _ => 0 end
                /\ neg_counter v' = neg_counter v
                   + match dict_get (snd c) a with Some Negative => 1 | _ => 0 end))
  /\ (forall (data : list (list string)) (p : pools),
        fill_pools data = Ok p ->
        pos_num_attr p = flat_map number_list (positives data)
        /\ neg_num_attr p = flat_map number_list (negatives data)
        /\ pos_not_num_attr p = categorical_pool (positives data)
        /\ neg_not_num_attr p = categorical_pool (negatives data)
        /\ forall record, In record data -> numbers record = Ok (number_list record))
  /\ (forall (c : classifier) (record : list string) (v : counters),
        count_votes c record = Ok v ->
        next_index v = List.length (numeric_attributes record))
  /\ (forall (a : string),
        isnumeric a = true ->
        (all_chars is_ascii a = true -> all_chars is_decimal a = true)
        /\ if all_chars is_decimal a && (String.length a <=? int_max_str_digits)
           then exists n, int a = Ok n /\ (0 <= n)%Z
           else int a = Raise ValueError
                /\ (forall acc, add_attr acc a = Raise ValueError)
                /\ (forall c v, vote c v a = Raise ValueError))
  /\ (forall (a : string) (n : Z),
        int a = Ok n -> (isnumeric a = true <-> all_chars is_decimal a = true))
  /\ (forall (d w w' : string) (n : Z),
        all_chars is_decimal d = true -> int d = Ok n ->
        all_chars is_int_space w = true -> all_chars is_int_space w' = true ->
        (int (w ++ d ++ w') = Ok n
         /\ int (w ++ "+" ++ d ++ w') = Ok n
         /\ int (w ++ "-" ++ d ++ w') = Ok (- n)%Z)
        /\ isnumeric (w ++ "+" ++ d ++ w') = false
        /\ isnumeric (w ++ "-" ++ d ++ w') = false
        /\ ((w ++ w')%string <> "" -> isnumeric (w ++ d ++ w') = false))
  /\ (forall (d d' : string),
        d <> "" -> d' <> "" ->
        all_chars is_decimal d = true -> all_chars is_decimal d' = true ->
        int (d ++ "_" ++ d') = int (d ++ d')
        /\ isnumeric (d ++ "_" ++ d') = false).
Proof.
  split; [|split; [|split; [|split; [|split; [|split]]]]].
  - intros a; split; [apply isnumeric_iff|]; split.
    + intros num not_num num' not_num'; unfold add_attr.
      destruct (isnumeric a).
      * destruct (int a) as [v|]; cbn [bind]; [|discriminate].
        intros H; injection H as <- <-; exists v; repeat split.
      * intros H; injection H as <- <-; split; reflexivity.
    + intros c v v'; unfold vote.
      destruct (isnumeric a).
      * destruct (int a) as [x|]; cbn [bind]; [|discriminate].
        destruct (index (fst c) (next_index v)) as [t|]; cbn [bind]; [|discriminate].
        destruct (int_gt x t) eqn:E; intros H; injection H as <-;
          (split; [reflexivity|]); exists x, t; rewrite E; cbn; repeat split; lia.
      * destruct (dict_get (snd c) a) as [[| |]|]; intros H; injection H as <-;
          cbn; repeat split; lia.
  - intros data p H; destruct (fill_pools_ok data p H) as [Hall ->].
    repeat split.
    intros record Hin; apply poolable_numbers.
    exact (proj1 (forallb_forall _ _) Hall record Hin).
  - intros c record v H; unfold count_votes in H.
    destruct (vote_counts c _ _ _ H) as [Hn _]; exact Hn.
  - intros a Hnum; pose proof (proj1 (isnumeric_iff a) Hnum) as [Hne Hall].
    split; [apply numeric_ascii_decimal; exact Hall|].
    destruct (all_chars is_decimal a) eqn:Hd; cbn [andb].
    + destruct (Nat.leb_spec (String.length a) int_max_str_digits) as [Hl|Hl].
      * apply decimal_parses; assumption.
      * assert (Hint : int a = Raise ValueError).
        { unfold int; destruct (parse_int a); [|reflexivity].
          rewrite (count_digits_decimal a Hd).
          destruct (Nat.leb_spec (String.length a) int_max_str_digits); [lia|reflexivity]. }
        split; [exact Hint|]; split.
        -- intros [num not_num]; unfold add_attr; rewrite Hnum, Hint; reflexivity.
        -- intros c v; unfold vote; rewrite Hnum, Hint; reflexivity.
    + assert (Hint : int a = Raise ValueError)
        by (unfold int; rewrite (numeric_not_decimal_fails a Hnum Hd); reflexivity).
      split; [exact Hint|]; split.
      * intros [num not_num]; unfold add_attr; rewrite Hnum, Hint; reflexivity.
      * intros c v; unfold vote; rewrite Hnum, Hint; reflexivity.
  - intros a n Hint; split.
    + intros Hnum; destruct (all_chars is_decimal a) eqn:Hd; [reflexivity|].
      apply int_ok in Hint; destruct Hint as [Hp _].
      rewrite (numeric_not_decimal_fails a Hnum Hd) in Hp; discriminate.
    + intros Hd; apply isnumeric_iff; split.
      * intros ->; discriminate Hint.
      * exact (all_chars_impl _ _ a decimal_is_numeric Hd).
  - intros d w w' n Hd Hint Hw Hw'.
    split; [exact (int_surrounded d w w' n Hd Hint Hw Hw')|].
    split; [exact (not_numeric_with w (d ++ w') "+" eq_refl)|].
    split; [exact (not_numeric_with w (d ++ w') "-" eq_refl)|].
    intros Hne; destruct w as [|c t].
    + destruct w' as [|c' t']; [exfalso; apply Hne; reflexivity|].
      cbn [all_chars] in Hw'; apply andb_prop in Hw'; destruct Hw' as [Hc' _].
      exact (not_numeric_with d t' c' (space_is_not_numeric c' Hc')).
    + cbn [all_chars] in Hw; apply andb_prop in Hw; destruct Hw as [Hc _].
      exact (not_numeric_with "" (t ++ d ++ w') c (space_is_not_numeric c Hc)).
  - intros d d' Hne Hne' Hd Hd'; split.
    + apply int_underscore; assumption.
    + exact (not_numeric_with d d' "_" eq_refl).
Qed.

Lemma numeric_exactly_when_isnumeric_witness :
  (exists n, int "2174" = Ok n /\ (0 <= n)%Z)
  /\ int digits_beyond_limit = Raise ValueError
  /\ (int " -5 " = Ok (-5)%Z /\ isnumeric " -5 " = false)
  /\ (int "1_0" = Ok 10%Z /\ isnumeric "1_0" = false).
Proof.
  destruct numeric_exactly_when_isnumeric as (_ & _ & _ & Hnum & _ & Hspace & Hunder).
  split; [exact (proj2 (Hnum "2174" eq_refl))|].
  split.
  - assert (H : isnumeric digits_beyond_limit = true) by (vm_compute; reflexivity).
    exact (proj1 (proj2 (Hnum digits_beyond_limit H))).
  - split.
    + destruct (Hspace "5" " " " " 5%Z eq_refl eq_refl eq_refl eq_refl)
        as ((_ & _ & Hint) & _ & Hcat & _).
      split; [exact Hint|exact Hcat].
    + assert (Hd : "1"%string <> ""%string) by discriminate.
      assert (Hd' : "0"%string <> ""%string) by discriminate.
      destruct (Hunder "1" "0" Hd Hd' eq_refl eq_refl) as [Hint Hcat].
      split; [exact Hint|exact Hcat].
Defined.

(* ----------------------------------------------------------------- *)
(** ** Rounding to nearest is monotone *)

Section Rounding.

Local Open Scope Z_scope.

Lemma U_pos : 0 < U.
Proof. unfold U; apply Z.pow_pos_nonneg; lia. Qed.

Lemma div_floor_mono (a b a' b' : Z) :
  0 < b -> 0 < b' -> a * b' <= a' * b -> a / b <= a' / b'.
Proof.
  intros Hb Hb' H.
  apply Z.div_le_lower_bound; try exact Hb'.
  pose proof (Z.mul_div_le a b Hb) as Hq.
  assert (H1 : b * (b' * (a / b)) <= b * a') by nia.
  apply Z.mul_le_mono_pos_l in H1; assumption.
Qed.

Lemma rne_div_between (a b : Z) :
  0 < b -> a / b <= rne_div a b <= a / b + 1.
Proof.
  intros Hb; unfold rne_div.
  destruct (2 * (a mod b) ?= b); [destruct (Z.even (a / b))| |]; lia.
Qed.

(** With the same integer part, the fractional parts decide. *)
Lemma rne_div_mono_same_floor (a b a' b' : Z) :
  0 < b -> 0 < b' -> a * b' <= a' * b -> a / b = a' / b' ->
  rne_div a b <= rne_div a' b'.
Proof.
  intros Hb Hb' H Hq; unfold rne_div; rewrite <- Hq.
  pose proof (Z.div_mod a b ltac:(lia)) as Ha.
  pose proof (Z.div_mod a' b' ltac:(lia)) as Ha'.
  pose proof (Z.mod_pos_bound a b Hb) as Hr.
  pose proof (Z.mod_pos_bound a' b' Hb') as Hr'.
  rewrite <- Hq in Ha'.
  set (q := a / b) in *; set (r := a mod b) in *; set (r' := a' mod b') in *.
  assert (Hfrac : r * b' <= r' * b) by nia.
  destruct (Z.compare_spec (2 * r) b) as [E|E|E];
    destruct (Z.compare_spec (2 * r') b') as [E'|E'|E'];
    destruct (Z.even q); try lia; exfalso; nia.
Qed.

Lemma rne_div_mono (a b a' b' : Z) :
  0 < b -> 0 < b' -> a * b' <= a' * b -> rne_div a b <= rne_div a' b'.
Proof.
  intros Hb Hb' H.
  pose proof (div_floor_mono a b a' b' Hb Hb' H) as Hq.
  destruct (Z.eq_dec (a / b) (a' / b')) as [E|E].
  - apply rne_div_mono_same_floor; assumption.
  - pose proof (rne_div_between a b Hb); pose proof (rne_div_between a' b' Hb'); lia.
Qed.

Lemma rne_div_exact (n b : Z) : 0 < b -> rne_div (n * b) b = n.
Proof.
  intros Hb; unfold rne_div.
  rewrite Z.div_mul, Z.mod_mul by lia.
  change (2 * 0) with 0.
  destruct (Z.compare_spec 0 b); [lia|reflexivity|lia].
Qed.

Lemma rne_div_le (a b n : Z) : 0 < b -> a <= n * b -> rne_div a b <= n.
Proof.
  intros Hb H; rewrite <- (rne_div_exact n b Hb).
  apply rne_div_mono; try assumption; nia.
Qed.

Lemma rne_div_ge (a b n : Z) : 0 < b -> n * b <= a -> n <= rne_div a b.
Proof.
  intros Hb H; rewrite <- (rne_div_exact n b Hb).
  apply rne_div_mono; try assumption; nia.
Qed.

Lemma shift_nonneg (a b : Z) : 0 <= shift a b.
Proof. unfold shift; lia. Qed.

Lemma shift_mono (a b a' b' : Z) :
  0 < b -> 0 < b' -> a * b' <= a' * b -> shift a b <= shift a' b'.
Proof.
  intros Hb Hb' H; unfold shift.
  pose proof (Z.log2_le_mono _ _ (div_floor_mono a b a' b' Hb Hb' H)); lia.
Qed.

(** The rounded magnitude has at most 53 significant bits... *)
Lemma round_mag_upper (a b : Z) :
  0 <= a -> 0 < b -> round_mag a b <= 2 ^ 53 * 2 ^ shift a b.
Proof.
  intros Ha Hb; unfold round_mag.
  pose proof (shift_nonneg a b) as Hg.
  set (g := shift a b) in *.
  assert (Hp : 0 < 2 ^ g) by (apply Z.pow_pos_nonneg; lia).
  apply Z.mul_le_mono_nonneg_r; [lia|].
  apply rne_div_le; [nia|].
  assert (Hq : a / b < 2 ^ (g + 53)).
  { assert (0 <= a / b) by (apply Z.div_pos; lia).
    destruct (Z.eq_dec (a / b) 0) as [->|Hn]; [apply Z.pow_pos_nonneg; lia|].
    apply Z.log2_lt_pow2; [lia|]; unfold g, shift; lia. }
  rewrite Z.pow_add_r in Hq by lia.
  pose proof (Z.div_mod a b ltac:(lia)) as Hdm.
  pose proof (Z.mod_pos_bound a b Hb) as Hr.
  nia.
Qed.

(** ... and exactly 53 of them once some bits are dropped. *)
Lemma round_mag_lower (a b : Z) :
  0 <= a -> 0 < b -> 0 < shift a b -> 2 ^ 52 * 2 ^ shift a b <= round_mag a b.
Proof.
  intros Ha Hb Hg; unfold round_mag.
  set (g := shift a b) in *.
  assert (Hp : 0 < 2 ^ g) by (apply Z.pow_pos_nonneg; lia).
  apply Z.mul_le_mono_nonneg_r; [lia|].
  apply rne_div_ge; [nia|].
  assert (Hlog : Z.log2 (a / b) = g + 52) by (unfold g, shift in *; lia).
  assert (Hq : 2 ^ (g + 52) <= a / b).
  { rewrite <- Hlog; apply Z.log2_spec.
    destruct (Z.lt_trichotomy (a / b) 0) as [H|[H|H]]; [|rewrite H in Hlog; simpl in Hlog|];
      try lia.
    rewrite Z.log2_nonpos in Hlog; lia. }
  rewrite Z.pow_add_r in Hq by lia.
  pose proof (Z.mul_div_le a b Hb) as Hdm.
  nia.
Qed.

Lemma round_mag_nonneg (a b : Z) : 0 <= a -> 0 < b -> 0 <= round_mag a b.
Proof.
  intros Ha Hb; unfold round_mag.
  assert (Hp : 0 < 2 ^ shift a b) by (apply Z.pow_pos_nonneg; [lia|apply shift_nonneg]).
  apply Z.mul_nonneg_nonneg; [|lia].
  apply (rne_div_ge _ _ 0); nia.
Qed.

(** Correct rounding is monotone on the non-negative rationals. *)
Lemma round_mag_mono (a b a' b' : Z) :
  0 <= a -> 0 < b -> 0 < b' -> a * b' <= a' * b ->
  round_mag a b <= round_mag a' b'.
Proof.
  intros Ha Hb Hb' H.
  assert (Ha' : 0 <= a') by nia.
  pose proof (shift_mono a b a' b' Hb Hb' H) as Hg.
  pose proof (shift_nonneg a b) as Hg0.
  destruct (Z.eq_dec (shift a b) (shift a' b')) as [E|E].
  - unfold round_mag; rewrite <- E.
    set (g := shift a b) in *.
    assert (Hp : 0 < 2 ^ g) by (apply Z.pow_pos_nonneg; lia).
    apply Z.mul_le_mono_nonneg_r; [lia|].
    apply rne_div_mono; nia.
  - pose proof (round_mag_upper a b Ha Hb) as Hu.
    pose proof (round_mag_lower a' b' Ha' Hb' ltac:(lia)) as Hl.
    assert (Hpow : 2 ^ (shift a b + 1) <= 2 ^ shift a' b')
      by (apply Z.pow_le_mono_r; lia).
    rewrite Z.pow_add_r in Hpow by lia.
    change (2 ^ 53) with (2 * 2 ^ 52) in Hu.
    assert (0 < 2 ^ 52) by reflexivity.
    assert (0 < 2 ^ shift a b) by (apply Z.pow_pos_nonneg; lia).
    nia.
Qed.

End Rounding.

(* ----------------------------------------------------------------- *)
(** ** The evaluator: the accuracy *)

Section Accuracy.

Local Open Scope Z_scope.

Lemma round_one : round_mag (1 * U) 1 = U.
Proof. vm_compute; reflexivity. Qed.

Lemma round_hundred_units : round_mag (U * (100 * U)) U = 100 * U.
Proof. vm_compute; reflexivity. Qed.

Lemma round_hundred : round_mag (100 * U) 1 = 100 * U.
Proof. vm_compute; reflexivity. Qed.

Lemma round_ten_thousand_hundredths : round_mag (10000 * U) 100 = 100 * U.
Proof. vm_compute; reflexivity. Qed.

Lemma hundred_is_finite : 100 * U < overflow_from.
Proof. vm_compute; reflexivity. Qed.

Lemma round_mag_below (a b a' b' v : Z) :
  round_mag a' b' = v -> 0 <= a -> 0 < b -> 0 < b' -> a * b' <= a' * b ->
  round_mag a b <= v.
Proof. intros <-; apply round_mag_mono. Qed.

Lemma round_finite (s : bool) (a b : Z) :
  round_mag a b <= 100 * U -> round s a b = Fin s (round_mag a b).
Proof.
  intros H; unfold round.
  pose proof hundred_is_finite.
  replace (round_mag a b <? overflow_from) with true; [reflexivity|].
  symmetry; apply Z.ltb_lt; lia.
Qed.

(** [k / n] for [0 <= k <= n] lies between [0.0] and [1.0]. *)
Lemma ratio_in_unit (k n : Z) :
  0 <= k <= n -> 0 < n ->
  exists m, true_divide k n = Ok (Fin false m) /\ 0 <= m <= U.
Proof.
  intros Hk Hn; pose proof U_pos as HU.
  unfold true_divide.
  replace (n =? 0) with false by (symmetry; apply Z.eqb_neq; lia).
  replace (k <? 0) with false by (symmetry; apply Z.ltb_ge; lia).
  replace (n <? 0) with false by (symmetry; apply Z.ltb_ge; lia).
  rewrite !Z.abs_eq by lia; cbn [xorb].
  assert (Hm : 0 <= round_mag (k * U) n <= U).
  { split; [apply round_mag_nonneg; nia|].
    apply (round_mag_below _ _ _ _ _ round_one); nia. }
  rewrite round_finite by lia.
  eexists; split; [reflexivity|exact Hm].
Qed.

Lemma const_hundred : const 100 = Fin false (100 * U).
Proof. reflexivity. Qed.

(** [x * 100] for [0.0 <= x <= 1.0] lies between [0.0] and [100.0]. *)
Lemma times_hundred (m : Z) :
  0 <= m <= U ->
  exists m', fmul (Fin false m) (const 100) = Fin false m' /\ 0 <= m' <= 100 * U.
Proof.
  intros Hm; pose proof U_pos as HU.
  rewrite const_hundred; unfold fmul; cbn [xorb].
  assert (Hm' : 0 <= round_mag (m * (100 * U)) U <= 100 * U).
  { split; [apply round_mag_nonneg; nia|].
    apply (round_mag_below _ _ _ _ _ round_hundred_units); nia. }
  rewrite round_finite by lia.
  eexists; split; [reflexivity|exact Hm'].
Qed.

(** For [0.0 <= y <= 100.0], [abs(y - 100)] is [100 - y], between [0.0]
    and [100.0]. *)
Lemma distance_to_hundred (m : Z) :
  0 <= m <= 100 * U ->
  exists m',
    fabs (fsub (Fin false m) (const 100)) = Fin false m'
    /\ fsub (const 100) (Fin false m) = Fin false m'
    /\ 0 <= m' <= 100 * U.
Proof.
  intros Hm; pose proof U_pos as HU.
  rewrite const_hundred; unfold fsub, fneg, fadd, signed; cbn [negb andb].
  destruct (Z.eq_dec m (100 * U)) as [E|E].
  - replace (m + - (100 * U) =? 0) with true by (symmetry; apply Z.eqb_eq; lia).
    replace (100 * U + - m =? 0) with true by (symmetry; apply Z.eqb_eq; lia).
    exists 0; cbn [fabs]; repeat split; lia.
  - replace (m + - (100 * U) =? 0) with false by (symmetry; apply Z.eqb_neq; lia).
    replace (100 * U + - m =? 0) with false by (symmetry; apply Z.eqb_neq; lia).
    replace (m + - (100 * U) <? 0) with true by (symmetry; apply Z.ltb_lt; lia).
    replace (100 * U + - m <? 0) with false by (symmetry; apply Z.ltb_ge; lia).
    replace (Z.abs (m + - (100 * U))) with (100 * U + - m) by lia.
    rewrite (Z.abs_eq (100 * U + - m)) by lia.
    assert (Hm' : 0 <= round_mag (100 * U + - m) 1 <= 100 * U).
    { split; [apply round_mag_nonneg; lia|].
      apply (round_mag_below _ _ _ _ _ round_hundred); lia. }
    rewrite !round_finite by lia.
    eexists; cbn [fabs]; split; [reflexivity|split; [reflexivity|exact Hm']].
Qed.

(** [round(a, 2)] for [0.0 <= a <= 100.0] lies between [0.0] and [100.0]. *)
Lemma round_two_digits (m : Z) :
  0 <= m <= 100 * U ->
  exists m', round_ndigits (Fin false m) 2 = Ok (Fin false m') /\ 0 <= m' <= 100 * U.
Proof.
  intros Hm; pose proof U_pos as HU.
  unfold round_ndigits.
  change (10 ^ Z.of_nat 2) with 100.
  set (n := rne_div (m * 100) U).
  assert (Hn : 0 <= n <= 10000).
  { split; [apply rne_div_ge|apply rne_div_le]; lia. }
  assert (Hm' : 0 <= round_mag (n * U) 100 <= 100 * U).
  { split; [apply round_mag_nonneg; nia|].
    apply (round_mag_below _ _ _ _ _ round_ten_thousand_hundredths); nia. }
  rewrite round_finite by lia.
  eexists; split; [reflexivity|exact Hm'].
Qed.

End Accuracy.

Lemma accuracy_in_range (k n : nat) :
  k <= n -> 0 < n ->
  exists ratio acc,
    true_divide (Z.of_nat k) (Z.of_nat n) = Ok ratio
    /\ accuracy k n = Ok acc
    /\ round_ndigits (fsub (const 100) (fmul ratio (const 100))) 2 = Ok acc
    /\ fle (const 0) acc = true /\ fle acc (const 100) = true.
Proof.
  intros Hk Hn.
  destruct (ratio_in_unit (Z.of_nat k) (Z.of_nat n)) as (mx & Hx & Hmx); [lia|lia|].
  destruct (times_hundred mx Hmx) as (my & Hy & Hmy).
  destruct (distance_to_hundred my Hmy) as (ma & Ha & Ha' & Hma).
  destruct (round_two_digits ma Hma) as (mr & Hr & Hmr).
  exists (Fin false mx), (Fin false mr).
  unfold accuracy; rewrite Hx; cbn [bind]; rewrite Hy, Ha, Ha', Hr.
  repeat split.
  - change (const 0) with (Fin false (0 * U)); unfold fle, signed.
    apply Z.leb_le; lia.
  - rewrite const_hundred; unfold fle, signed; apply Z.leb_le; lia.
Qed.

Lemma check_record_eq (c : classifier) (incorrect : nat) (record : list string) (k : nat) :
  check_record c incorrect record = Ok k ->
  k = incorrect + (if misclassified c record then 1 else 0).
Proof.
  unfold check_record, misclassified.
  destruct (predict c record) as [i|]; cbn [bind]; [|discriminate].
  destruct (last_item record) as [l|]; cbn [bind]; [|discriminate].
  intros H; injection H as <-.
  destruct (String.eqb l (label_of i)); simpl; lia.
Qed.

Lemma count_loop_eq (c : classifier) (test_dataset : list (list string)) (k0 k : nat) :
  for_each (check_record c) test_dataset k0 = Ok k ->
  k = k0 + List.length (filter (misclassified c) test_dataset).
Proof.
  revert k0; induction test_dataset as [|r rs IH]; intros k0; simpl.
  - intros H; injection H as <-; lia.
  - destruct (check_record c k0 r) as [k1|] eqn:E; cbn [bind]; [|discriminate].
    intros H; rewrite (IH _ H), (check_record_eq _ _ _ _ E).
    destruct (misclassified c r); simpl; lia.
Qed.

Lemma check_record_defined (c : classifier) (incorrect : nat) (record : list string) :
  checkable c record = true -> exists k, check_record c incorrect record = Ok k.
Proof.
  unfold checkable, check_record; destruct record as [|f fs]; [discriminate|].
  intros H; destruct (ballots_defined c _ H) as (bs & Hbs).
  unfold predict; rewrite count_votes_ballots, Hbs; cbn [bind].
  destruct (last_item_cons f fs) as (l & ->); cbn [bind].
  eexists; reflexivity.
Qed.

Lemma count_loop_defined (c : classifier) (test_dataset : list (list string)) (k0 : nat) :
  forallb (checkable c) test_dataset = true ->
  exists k, for_each (check_record c) test_dataset k0 = Ok k.
Proof.
  revert k0; induction test_dataset as [|r rs IH]; intros k0 H; simpl.
  - eexists; reflexivity.
  - simpl in H; apply andb_prop in H; destruct H as [Hr Hrs].
    destruct (check_record_defined c k0 r Hr) as (k1 & ->); cbn [bind].
    apply IH; exact Hrs.
Qed.

(** C4: for the empty test set the evaluator ends with
    [ZeroDivisionError].  For a non-empty test set whose records can all
    be checked it returns; and whenever the loop over a non-empty test set
    completes, its counter is the number of misclassified records, at most
    the number of records, and the value returned is
    [round(100 - misclassified / total * 100, 2)] in float arithmetic, a
    float between [0.0] and [100.0]. *)
Theorem accuracy_is_rounded_percentage_in_range :
  forall (c : classifier) (test_dataset : list (list string)),
    test_classifier [] c = Raise ZeroDivisionError
    /\ (forallb (checkable c) test_dataset = true ->
        exists k, count_incorrect test_dataset c = Ok k)
    /\ (forall k,
          test_dataset <> [] ->
          count_incorrect test_dataset c = Ok k ->
          k = List.length (filter (misclassified c) test_dataset)
          /\ k <= List.length test_dataset
          /\ exists ratio acc,
               true_divide (Z.of_nat k) (Z.of_nat (List.length test_dataset)) = Ok ratio
               /\ test_classifier test_dataset c = Ok acc
               /\ round_ndigits (fsub (const 100) (fmul ratio (const 100))) 2 = Ok acc
               /\ fle (const 0) acc = true
               /\ fle acc (const 100) = true).
Proof.
  intros c test_dataset.
  split; [reflexivity|].
  split; [apply count_loop_defined|].
  intros k Hne Hk.
  pose proof (count_loop_eq _ _ _ _ Hk) as Hkeq; simpl in Hkeq.
  pose proof (filter_length_le (misclassified c) test_dataset) as Hle.
  assert (Hpos : 0 < List.length test_dataset)
    by (destruct test_dataset; [congruence|simpl; lia]).
  split; [exact Hkeq|]; split; [lia|].
  destruct (accuracy_in_range k (List.length test_dataset) ltac:(lia) Hpos)
    as (ratio & acc & Hr & Ha & Hf & H0 & H100).
  exists ratio, acc; unfold test_classifier; rewrite Hk; cbn [bind].
  repeat split; assumption.
Qed.

Lemma accuracy_is_rounded_percentage_in_range_witness :
  exists k, count_incorrect [sample_record; record_fifty] sample_classifier = Ok k.
Proof.
  exact (proj1 (proj2 (accuracy_is_rounded_percentage_in_range sample_classifier
                         [sample_record; record_fifty])) eq_refl).
Defined.

(* ----------------------------------------------------------------- *)
(** ** The builder returns on records of the schema *)

Lemma map_result_in {A B : Type} (f : A -> result B) (xs : list A) (ys : list B) (y : B) :
  map_result f xs = Ok ys -> In y ys -> exists x, In x xs /\ f x = Ok y.
Proof.
  revert ys; induction xs as [|x xs IH]; intros ys; simpl.
  - intros H; injection H as <-; intros [].
  - destruct (f x) as [y'|] eqn:E; cbn [bind]; [|discriminate].
    destruct (map_result f xs) as [zs|]; cbn [bind]; [|discriminate].
    intros H; injection H as <-; intros [<-|Hin].
    + exists x; split; [left; reflexivity|exact E].
    + destruct (IH zs eq_refl Hin) as (x' & Hx' & Hf); exists x'; split; [right|]; assumption.
Qed.

Lemma number_list_nonneg (record : list string) (z : Z) :
  In z (number_list record) -> (0 <= z)%Z.
Proof.
  unfold number_list, numbers, numeric_attributes.
  destruct (map_result int (filter isnumeric (attributes record))) as [vs|] eqn:E;
    [|intros []].
  intros Hz; destruct (map_result_in _ _ _ _ E Hz) as (a & Ha & Hint).
  apply filter_In in Ha; exact (numeric_value_nonneg a z (proj2 Ha) Hint).
Qed.

Section Means.

Local Open Scope Z_scope.

Lemma sum_from (l : list Z) (a : Z) : fold_left Z.add l a = a + sum l.
Proof.
  unfold sum; revert a; induction l as [|x l IH]; intros a; simpl; [lia|].
  rewrite (IH (a + x)), (IH x); lia.
Qed.

Lemma sum_bounds (l : list Z) (B : Z) :
  (forall z, In z l -> 0 <= z <= B) -> 0 <= sum l <= Z.of_nat (List.length l) * B.
Proof.
  induction l as [|x l IH]; intros H; [unfold sum; simpl; lia|].
  unfold sum; cbn [fold_left]; rewrite sum_from.
  specialize (IH (fun z Hz => H z (or_intror Hz))).
  pose proof (H x (or_introl eq_refl)).
  cbn [List.length]; lia.
Qed.

Lemma round_top : round_mag (2 ^ 1023 * U) 1 = 2 ^ 1023 * U.
Proof. vm_compute; reflexivity. Qed.

Lemma top_is_finite : 2 ^ 1023 * U < overflow_from.
Proof. vm_compute; reflexivity. Qed.

(** The quotient of a non-negative integer by a positive one is a float as
    soon as it is at most [2^1023]. *)
Lemma true_divide_defined (a b : Z) :
  0 <= a -> 0 < b -> a <= b * 2 ^ 1023 -> exists m, true_divide a b = Ok (Fin false m).
Proof.
  intros Ha Hb Hab; pose proof U_pos as HU; pose proof top_is_finite as Htop.
  unfold true_divide, round.
  replace (b =? 0) with false by (symmetry; apply Z.eqb_neq; lia).
  replace (a <? 0) with false by (symmetry; apply Z.ltb_ge; lia).
  replace (b <? 0) with false by (symmetry; apply Z.ltb_ge; lia).
  rewrite !Z.abs_eq by lia; cbn [xorb].
  assert (Hm : round_mag (a * U) b <= 2 ^ 1023 * U).
  { set (T := 2 ^ 1023) in *.
    apply (round_mag_below _ _ _ _ _ round_top); [nia|lia|lia|nia]. }
  replace (round_mag (a * U) b <? overflow_from) with true
    by (symmetry; apply Z.ltb_lt; lia).
  eexists; reflexivity.
Qed.

Lemma mean_defined (l : list Z) :
  l <> [] -> (forall z, In z l -> 0 <= z <= 2 ^ 1023) ->
  exists m, mean l = Ok (Fin false m).
Proof.
  intros Hne H; unfold mean.
  pose proof (sum_bounds l _ H) as Hs.
  apply true_divide_defined; try lia.
  destruct l; [congruence|simpl; lia].
Qed.

Lemma halving_defined (x : float) : exists y, fdiv x (const 2) = Ok y.
Proof.
  assert (H : exists p, const 2 = Fin false (Z.pos p))
    by (eexists; vm_compute; reflexivity).
  destruct H as (p & ->); destruct x; eexists; reflexivity.
Qed.

End Means.

Lemma lane_values (data : list (list string)) (keep : list string -> bool) (i : nat)
  (z : Z) :
  forallb has_five_numbers data = true ->
  forallb (fun r => forallb in_float_range (number_list r)) data = true ->
  i < 5 -> In z (lane i (filter keep data)) -> (0 <= z <= 2 ^ 1023)%Z.
Proof.
  intros H5 Hr Hi Hz; unfold lane in Hz.
  apply in_map_iff in Hz; destruct Hz as (r & <- & Hin).
  apply filter_In in Hin; destruct Hin as [Hin _].
  assert (Hnth : In (nth i (number_list r) 0%Z) (number_list r))
    by (apply nth_In; rewrite (has_five_numbers_length data r H5 Hin); exact Hi).
  split; [exact (number_list_nonneg r _ Hnth)|].
  rewrite forallb_forall in Hr; specialize (Hr r Hin).
  rewrite forallb_forall in Hr; apply Z.leb_le, Hr, Hnth.
Qed.

Lemma count_le_length (v : string) (l : list string) : count v l <= List.length l.
Proof. unfold count; apply filter_length_le. Qed.

Lemma categorical_pool_length (data : list (list string)) (keep : list string -> bool) :
  forallb has_six_categories data = true ->
  List.length (categorical_pool (filter keep data)) = 6 * List.length (filter keep data).
Proof.
  intros H; unfold categorical_pool.
  induction data as [|r data IH]; [reflexivity|].
  simpl in H; apply andb_prop in H; destruct H as [Hr Hd].
  cbn [filter]; destruct (keep r); [|apply IH; exact Hd].
  cbn [flat_map List.length]; rewrite length_app, (IH Hd).
  apply Nat.eqb_eq in Hr; rewrite Hr; lia.
Qed.

Lemma rate_defined (data : list (list string)) (keep : list string -> bool) (v : string) :
  forallb has_six_categories data = true -> filter keep data <> [] ->
  exists m, rate v (categorical_pool (filter keep data)) = Ok (Fin false m).
Proof.
  intros H6 Hne; unfold rate.
  rewrite (six_categories_lane_count data keep H6).
  pose proof (count_le_length v (categorical_pool (filter keep data))) as Hc.
  rewrite (categorical_pool_length data keep H6) in Hc.
  assert (0 < List.length (filter keep data))
    by (destruct (filter keep data); [congruence|simpl; lia]).
  apply true_divide_defined; lia.
Qed.

(** For training records that each have a label, 5 numeric attributes
    within the float range and 6 categorical attributes, with both classes
    present, the builder returns a classifier. *)
Theorem builder_returns_on_schema_records :
  forall (data : list (list string)),
    forallb has_five_numbers data = true ->
    forallb has_six_categories data = true ->
    forallb (fun r => forallb in_float_range (number_list r)) data = true ->
    positives data <> [] -> negatives data <> [] ->
    exists midpoint_num table, create_classifier data = Ok (midpoint_num, table).
Proof.
  intros data H5 H6 Hr HP HN.
  unfold create_classifier.
  rewrite (fill_pools_poolable data (has_five_numbers_poolable data H5)); cbn [bind].
  rewrite (midpoints_lanes data H5).
  destruct (map_result_ok
              (fun i => midpoint_of (lane i (positives data)) (lane i (negatives data)))
              (seq 0 5)) as (mids & ->).
  { intros i Hi; apply in_seq in Hi; unfold midpoint_of.
    destruct (mean_defined (lane i (positives data))) as (a & ->).
    - unfold lane; intros E; apply map_eq_nil in E; exact (HP E).
    - intros z; apply (lane_values data is_positive i z H5 Hr); lia.
    - destruct (mean_defined (lane i (negatives data))) as (b & ->).
      + unfold lane; intros E; apply map_eq_nil in E; exact (HN E).
      + intros z; apply (lane_values data _ i z H5 Hr); lia.
      + cbn [bind]; apply halving_defined. }
  cbn [bind].
  destruct (map_result_ok (outcome (pooled_all pools_init data))
              (not_num_sub_attr (pooled_all pools_init data))) as (outs & Ho).
  { intros v _; unfold outcome;
      cbn [pooled_all pos_not_num_attr neg_not_num_attr pools_init app].
    destruct (rate_defined data is_positive v H6 HP) as (a & Ha).
    destruct (rate_defined data _ v H6 HN) as (b & Hb).
    unfold rate, lane_count in Ha, Hb; unfold positives, negatives.
    rewrite Ha, Hb; cbn [bind]; eexists; reflexivity. }
  unfold outcomes; rewrite Ho; cbn [bind].
  do 2 eexists; reflexivity.
Qed.

Lemma builder_returns_on_schema_records_witness :
  exists midpoint_num table,
    create_classifier [record_fifty; record_thirty] = Ok (midpoint_num, table).
Proof.
  apply builder_returns_on_schema_records; try (vm_compute; reflexivity);
    vm_compute; discriminate.
Defined.

(* ----------------------------------------------------------------- *)
(** ** The float operations against the library's binary64 operations *)

Section Binary64Agreement.

Local Open Scope Z_scope.

Example one_third : true_divide 1 3 = Ok (of_spec third).
Proof. vm_compute; reflexivity. Qed.

Example two_sevenths : true_divide 2 7 = Ok (of_spec (lib_div (spec_of 2 0) (spec_of 7 0))).
Proof. vm_compute; reflexivity. Qed.

(** An integer quotient is rounded once: 0x1.f543c43337482p+53. *)
Example large_quotient :
  true_divide 123456789123456789 7 = Ok (of_spec (spec_of 0x1f543c43337482 1)).
Proof. vm_compute; reflexivity. Qed.

Example sum_of_tenths : fadd (of_spec tenth) (of_spec fifth) = of_spec (lib_add tenth fifth).
Proof. vm_compute; reflexivity. Qed.

Example difference :
  fsub (of_spec tenth) (of_spec three_tenths) = of_spec (lib_sub tenth three_tenths).
Proof. vm_compute; reflexivity. Qed.

Example product :
  fmul (of_spec third) (const 100) = of_spec (lib_mul third (spec_of 100 0)).
Proof. vm_compute; reflexivity. Qed.

Example product_underflow :
  fmul (of_spec (spec_of 1 (-600))) (of_spec (spec_of 3 (-500)))
  = of_spec (lib_mul (spec_of 1 (-600)) (spec_of 3 (-500))).
Proof. vm_compute; reflexivity. Qed.

Example product_subnormal :
  fmul (of_spec (spec_of 0x1123456789abcd (-652))) (of_spec (spec_of 0x1fedcba9876543 (-502)))
  = of_spec (lib_mul (spec_of 0x1123456789abcd (-652)) (spec_of 0x1fedcba9876543 (-502))).
Proof. vm_compute; reflexivity. Qed.

Example sum_overflow :
  fadd (of_spec (spec_of 0x1fffffffffffff 971)) (of_spec (spec_of 1 1023))
  = of_spec (lib_add (spec_of 0x1fffffffffffff 971) (spec_of 1 1023)).
Proof. vm_compute; reflexivity. Qed.

Example quotient_of_floats :
  fdiv (of_spec (spec_of 91 0)) (const 2) = Ok (of_spec (lib_div (spec_of 91 0) (spec_of 2 0))).
Proof. vm_compute; reflexivity. Qed.

Example quotient_subnormal :
  fdiv (of_spec (spec_of 7 (-1074))) (const 3)
  = Ok (of_spec (lib_div (spec_of 7 (-1074)) (spec_of 3 0))).
Proof. vm_compute; reflexivity. Qed.

Example forty : const 40 = of_spec (spec_of 40 0).
Proof. vm_compute; reflexivity. Qed.

(** The integer operands [2] and [100] of the float operations convert
    exactly. *)
Example operand_two : of_int 2 = Ok (const 2).
Proof. vm_compute; reflexivity. Qed.

Example operand_hundred : of_int 100 = Ok (const 100).
Proof. vm_compute; reflexivity. Qed.

(** An integer beyond the float range does not convert, nor divide. *)
Example operand_too_large :
  of_int (10 ^ 400) = Raise OverflowError /\ true_divide (10 ^ 400) 1 = Raise OverflowError.
Proof. split; vm_compute; reflexivity. Qed.

(** One record in three misclassified: 66.67, the float 0x1.0aae147ae147bp+6. *)
Example accuracy_one_in_three :
  accuracy 1 3 = Ok (of_spec (spec_of 0x10aae147ae147b (-46))).
Proof. vm_compute; reflexivity. Qed.

(** Two records in seven misclassified: 71.43, the float 0x1.1db851eb851ecp+6. *)
Example accuracy_two_in_seven :
  accuracy 2 7 = Ok (of_spec (spec_of 0x11db851eb851ec (-46))).
Proof. vm_compute; reflexivity. Qed.

End Binary64Agreement.

(* ================================================================= *)
(** * Further properties of the code *)

(** ** The record cleaner *)

(** X1: when the cleaner returns, its records are, in the order of the
    text, the rows without the marker, each one a row of at least 14
    fields without its fields 2, 3 and 13. *)
Theorem cleaner_keeps_marker_free_rows_in_order :
  forall (data : string) (records : list (list string)),
    get_data data = Ok records ->
    Forall2 cleaned_from (filter (fun row => negb (has_marker row)) (lines_of data)) records
    /\ List.length records
       = List.length (filter (fun row => negb (has_marker row)) (lines_of data)).
Proof.
  intros data records H; unfold get_data in H.
  destruct (clean_lines (lines_of data) cleaner_init) as [st|] eqn:E;
    cbn [bind] in H; [|discriminate].
  injection H as <-.
  destruct (clean_lines_ok _ _ _ E) as (_ & _ & records & Hc & Hall).
  simpl in Hc; rewrite Hc.
  split; [exact Hall|symmetry; exact (Forall2_length Hall)].
Qed.

Lemma cleaner_keeps_marker_free_rows_in_order_witness :
  Forall2 cleaned_from
    (filter (fun row => negb (has_marker row))
       (lines_of (row_state_gov ++ nl ++ row_missing_value ++ nl ++ row_self_emp)%string))
    [["39"; "State-gov"; "13"; "Never-married"; "Adm-clerical"; "Not-in-family";
      "White"; "Male"; "2174"; "0"; "40"; "<=50K"];
     ["52"; "Self-emp-not-inc"; "9"; "Married-civ-spouse"; "Exec-managerial";
      "Husband"; "White"; "Male"; "0"; "0"; "45"; ">50K"]].
Proof.
  refine (proj1 (cleaner_keeps_marker_free_rows_in_order _ _ _)).
  vm_compute; reflexivity.
Defined.

(** X2: a cleaning that completes has rejected nothing: the discard
    counter and the printed output are what they were before. *)
Theorem cleaner_never_counts_a_rejection :
  forall (rows : list string) (st st' : cleaner),
    clean_lines rows st = Ok st' ->
    bad_records st' = bad_records st /\ printed st' = printed st.
Proof.
  intros rows st st' H.
  destruct (clean_lines_ok _ _ _ H) as (Hb & Hp & _); split; assumption.
Qed.

Lemma cleaner_never_counts_a_rejection_witness :
  exists st', clean_lines (lines_of two_rows) cleaner_init = Ok st'
              /\ bad_records st' = 0 /\ printed st' = [].
Proof.
  assert (H : {st' | clean_lines (lines_of two_rows) cleaner_init = Ok st'})
    by (eexists; vm_compute; reflexivity).
  destruct H as [st' H]; exists st'; split; [exact H|].
  exact (cleaner_never_counts_a_rejection _ _ _ H).
Defined.

Lemma nth_kept (fields : list string) (d : string) (i : nat) :
  14 <= List.length fields ->
  nth i (firstn 11 (del_slice 2 4 fields) ++ skipn 12 (del_slice 2 4 fields)) d
  = nth (kept_column i) fields d.
Proof.
  intros H.
  do 14 (destruct fields as [|? fields]; [simpl in H; lia|]).
  unfold del_slice, kept_column; cbn [firstn skipn app].
  do 11 (destruct i as [|i]; [reflexivity|]).
  simpl; rewrite (Nat.add_comm i 3); reflexivity.
Qed.

(** X3: the deletion of the fields succeeds exactly on the rows of at
    least 14 fields, and the field at position [i] of the record is the
    field at position [i], [i + 2] or [i + 3] of the row, for [i] below 2,
    below 11, and from 11 on: the columns 2, 3 and 13 are dropped and the
    order of the others is kept. *)
Theorem deleted_columns :
  forall (fields : list string),
    (14 <= List.length fields <->
     exists record, del_item 11 (del_slice 2 4 fields) = Ok record)
    /\ forall record, del_item 11 (del_slice 2 4 fields) = Ok record ->
         List.length record + 3 = List.length fields
         /\ forall i d, nth i record d = nth (kept_column i) fields d.
Proof.
  intros fields; split.
  - split.
    + intros H; destruct (del_fields_long fields H) as (r & Hr & _); exists r; exact Hr.
    + intros (r & Hr).
      destruct (Nat.lt_ge_cases (List.length fields) 14) as [Hlt|Hge]; [|exact Hge].
      rewrite (del_fields_short fields Hlt) in Hr; discriminate.
  - intros record Hr.
    assert (Hlen : 14 <= List.length fields).
    { destruct (Nat.lt_ge_cases (List.length fields) 14) as [Hlt|Hge]; [|exact Hge].
      rewrite (del_fields_short fields Hlt) in Hr; discriminate. }
    destruct (del_fields_long fields Hlen) as (r & Hr' & Hl).
    rewrite Hr in Hr'; injection Hr' as <-.
    split; [lia|].
    intros i d; unfold del_item in Hr.
    destruct (11 <? List.length (del_slice 2 4 fields)); [|discriminate].
    injection Hr as <-; apply nth_kept; exact Hlen.
Qed.

Lemma deleted_columns_witness :
  List.length ["39"; "State-gov"; "13"; "Never-married"; "Adm-clerical"; "Not-in-family";
               "White"; "Male"; "2174"; "0"; "40"; "<=50K"] + 3
  = List.length (split "," (replace ", " "," row_state_gov)).
Proof.
  refine (proj1 (proj2 (deleted_columns (split "," (replace ", " "," row_state_gov))) _ _)).
  vm_compute; reflexivity.
Defined.

(* ----------------------------------------------------------------- *)
(** ** The evaluator: votes *)

(** X4: when the votes of a record are counted, the cursor ends at the
    number of its numeric attributes, every numeric attribute has cast
    exactly one vote and every other attribute at most one: the number of
    votes lies between the number of numeric attributes and the number of
    attributes. *)
Theorem votes_are_bounded_by_the_attributes :
  forall (c : classifier) (record : list string) (v : counters),
    count_votes c record = Ok v ->
    next_index v = List.length (numeric_attributes record)
    /\ List.length (numeric_attributes record) <= pos_counter v + neg_counter v
    /\ pos_counter v + neg_counter v <= List.length (attributes record).
Proof.
  intros c record v H; unfold count_votes in H.
  apply vote_counts in H; unfold numeric_attributes; simpl in H; lia.
Qed.

Lemma votes_are_bounded_by_the_attributes_witness :
  exists v, count_votes sample_classifier sample_record = Ok v
            /\ next_index v = 5 /\ 5 <= pos_counter v + neg_counter v <= 11.
Proof.
  assert (H : {v | count_votes sample_classifier sample_record = Ok v})
    by (eexists; vm_compute; reflexivity).
  destruct H as [v H]; exists v; split; [exact H|].
  exact (votes_are_bounded_by_the_attributes _ _ _ H).
Defined.

Lemma vote_loop_out_of_thresholds (c : classifier) (attrs : list string) (st : counters) :
  forallb parses (filter isnumeric attrs) = true ->
  next_index st <= List.length (fst c) ->
  List.length (fst c) < next_index st + List.length (filter isnumeric attrs) ->
  for_each (vote c) attrs st = Raise IndexError.
Proof.
  revert st; induction attrs as [|a attrs IH]; intros st Hp Hle Hlen;
    cbn [for_each filter] in *.
  - simpl in Hlen; lia.
  - unfold vote at 1.
    destruct (isnumeric a) eqn:Hnum.
    + cbn [forallb List.length] in *; apply andb_prop in Hp; destruct Hp as [Ha Hp].
      unfold parses in Ha; destruct (int a) as [x|]; [|discriminate]; cbn [bind].
      unfold index.
      destruct (nth_error (fst c) (next_index st)) as [t|] eqn:E; cbn [bind];
        [|reflexivity].
      assert (next_index st < List.length (fst c))
        by (apply nth_error_Some; congruence).
      destruct (int_gt x t); cbn [bind]; apply IH; simpl; try assumption; lia.
    + destruct (dict_get (snd c) a) as [[| |]|]; cbn [bind]; apply IH; simpl;
        assumption.
Qed.

Lemma check_record_step (c : classifier) (k : nat) (record : list string) :
  checkable c record = true ->
  check_record c k record = Ok (k + (if misclassified c record then 1 else 0)).
Proof.
  intros H; destruct (check_record_defined c k record H) as (k' & Hk).
  rewrite Hk, (check_record_eq _ _ _ _ Hk); reflexivity.
Qed.

Lemma count_loop_checkable (c : classifier) (test_dataset : list (list string)) (k0 : nat) :
  forallb (checkable c) test_dataset = true ->
  for_each (check_record c) test_dataset k0
  = Ok (k0 + List.length (filter (misclassified c) test_dataset)).
Proof.
  intros H; destruct (count_loop_defined c test_dataset k0 H) as (k & Hk).
  rewrite Hk, (count_loop_eq _ _ _ _ Hk); reflexivity.
Qed.

(** X5: a record with more numeric attributes than the classifier has
    thresholds, all of them texts of integers, cannot be evaluated: the
    vote count ends with [IndexError], and so does the evaluation of any
    test set in which such a record follows records that can be checked. *)
Theorem missing_threshold_raises_index_error :
  forall (c : classifier) (record : list string),
    forallb parses (numeric_attributes record) = true ->
    List.length (fst c) < List.length (numeric_attributes record) ->
    count_votes c record = Raise IndexError
    /\ predict c record = Raise IndexError
    /\ forall before after,
         forallb (checkable c) before = true ->
         test_classifier (before ++ record :: after) c = Raise IndexError.
Proof.
  intros c record Hp Hlen.
  assert (Hv : count_votes c record = Raise IndexError).
  { unfold count_votes; apply vote_loop_out_of_thresholds; simpl;
      unfold numeric_attributes in *; try assumption; lia. }
  assert (Hpr : predict c record = Raise IndexError)
    by (unfold predict; rewrite Hv; reflexivity).
  split; [exact Hv|]; split; [exact Hpr|].
  intros before after Hb; unfold test_classifier, count_incorrect.
  rewrite for_each_app, (count_loop_checkable c before 0 Hb); cbn [bind for_each].
  unfold check_record at 1; rewrite Hpr; reflexivity.
Qed.

Lemma missing_threshold_raises_index_error_witness :
  test_classifier [sample_record; sample_record] ([const 45; const 10], [])
  = Raise IndexError.
Proof.
  refine (proj2 (proj2 (missing_threshold_raises_index_error
                          ([const 45; const 10], []) sample_record _ _)) [] [sample_record] _);
    vm_compute; try reflexivity; lia.
Defined.

Lemma removelast_app_nonempty {A : Type} (l l' : list A) :
  l' <> [] -> removelast (l ++ l') = l ++ removelast l'.
Proof.
  intros H; induction l as [|x l IH]; [reflexivity|].
  cbn [app removelast]; rewrite IH.
  destruct (l ++ l') eqn:E; [|reflexivity].
  apply app_eq_nil in E; destruct E as [_ E]; congruence.
Qed.

Lemma last_item_app {A : Type} (l l' : list A) :
  l' <> [] -> last_item (l ++ l') = last_item l'.
Proof.
  intros H; unfold last_item; rewrite rev_app_distr.
  destruct (rev l') as [|x r] eqn:E; [|reflexivity].
  exfalso; apply H; apply (f_equal (@rev A)) in E; rewrite rev_involutive in E; exact E.
Qed.

Lemma vote_silent (c : classifier) (st : counters) (a : string) :
  silent c a = true -> vote c st a = Ok st.
Proof.
  unfold silent, vote; intros H; apply andb_prop in H; destruct H as [Hn Hd].
  apply negb_true_iff in Hn; rewrite Hn.
  destruct (dict_get (snd c) a) as [[| |]|]; try discriminate; reflexivity.
Qed.

(** X6: a categorical value that is unknown to the classifier, or whose
    sentiment is neutral, has no influence: the record without that
    attribute gets the same votes, the same prediction and the same
    verdict. *)
Theorem silent_values_change_nothing :
  forall (c : classifier) (before after : list string) (a : string),
    silent c a = true -> after <> [] ->
    count_votes c (before ++ a :: after) = count_votes c (before ++ after)
    /\ predict c (before ++ a :: after) = predict c (before ++ after)
    /\ forall k, check_record c k (before ++ a :: after)
                 = check_record c k (before ++ after).
Proof.
  intros c before after a Hs Hne.
  assert (Hv : count_votes c (before ++ a :: after) = count_votes c (before ++ after)).
  { unfold count_votes, attributes.
    change (a :: after) with ([a] ++ after).
    rewrite (removelast_app_nonempty before after Hne).
    rewrite (removelast_app_nonempty before ([a] ++ after)) by discriminate.
    rewrite (removelast_app_nonempty [a] after Hne).
    rewrite !for_each_app.
    destruct (for_each (vote c) before counters_init) as [st|]; cbn [bind];
      [|reflexivity].
    cbn [app for_each]; rewrite (vote_silent c st a Hs); reflexivity. }
  assert (Hp : predict c (before ++ a :: after) = predict c (before ++ after))
    by (unfold predict; rewrite Hv; reflexivity).
  split; [exact Hv|]; split; [exact Hp|].
  intros k; unfold check_record; rewrite Hp.
  rewrite (last_item_app before (a :: after)) by discriminate.
  change (a :: after) with ([a] ++ after).
  rewrite (last_item_app [a] after Hne), (last_item_app before after Hne); reflexivity.
Qed.

Lemma silent_values_change_nothing_witness :
  predict sample_classifier
    (["39"; "State-gov"; "13"] ++ "Unheard-of" :: ["Male"; "2174"; "<=50K"])
  = predict sample_classifier (["39"; "State-gov"; "13"] ++ ["Male"; "2174"; "<=50K"]).
Proof.
  refine (proj1 (proj2 (silent_values_change_nothing sample_classifier _ _ _ _ _)));
    [reflexivity|discriminate].
Defined.

(* ----------------------------------------------------------------- *)
(** ** The evaluator: the order of the test records *)

Lemma filter_length_permutation {A : Type} (f : A -> bool) (l l' : list A) :
  Permutation l l' -> List.length (filter f l) = List.length (filter f l').
Proof.
  induction 1 as [|x l l' _ IH|x y l|l l' l'' _ IH1 _ IH2]; simpl.
  - reflexivity.
  - destruct (f x); simpl; congruence.
  - destruct (f x), (f y); reflexivity.
  - congruence.
Qed.

Lemma check_record_any_counter (c : classifier) (k k' j : nat) (record : list string) :
  check_record c k record = Ok k' -> exists j', check_record c j record = Ok j'.
Proof.
  unfold check_record.
  destruct (predict c record); cbn [bind]; [|discriminate].
  destruct (last_item record); cbn [bind]; [|discriminate].
  intros _; eexists; reflexivity.
Qed.

Lemma count_loop_each (c : classifier) (test_dataset : list (list string)) (k0 k : nat) :
  for_each (check_record c) test_dataset k0 = Ok k ->
  forall r, In r test_dataset -> exists j, check_record c 0 r = Ok j.
Proof.
  revert k0; induction test_dataset as [|r rs IH]; intros k0 H r' Hin; [destruct Hin|].
  cbn [for_each] in H.
  destruct (check_record c k0 r) as [k1|] eqn:E; cbn [bind] in H; [|discriminate].
  destruct Hin as [<-|Hin]; [exact (check_record_any_counter _ _ _ 0 _ E)|].
  exact (IH _ H r' Hin).
Qed.

Lemma count_loop_all (c : classifier) (test_dataset : list (list string)) (k0 : nat) :
  (forall r, In r test_dataset -> exists j, check_record c 0 r = Ok j) ->
  for_each (check_record c) test_dataset k0
  = Ok (k0 + List.length (filter (misclassified c) test_dataset)).
Proof.
  revert k0; induction test_dataset as [|r rs IH]; intros k0 H; cbn [for_each filter].
  - simpl; f_equal; lia.
  - destruct (H r (or_introl eq_refl)) as (j & Hj).
    destruct (check_record_any_counter _ _ _ k0 _ Hj) as (k1 & Hk1).
    rewrite Hk1; cbn [bind]; rewrite (check_record_eq _ _ _ _ Hk1).
    rewrite IH by (intros r' Hr'; apply H; right; exact Hr').
    f_equal; destruct (misclassified c r); simpl; lia.
Qed.

(** X7: the accuracy does not depend on the order of the test records:
    when the evaluation of a test set completes, the evaluation of any
    rearrangement of it completes with the same counter and the same
    accuracy. *)
Theorem accuracy_ignores_the_order_of_the_test_set :
  forall (c : classifier) (test_dataset rearranged : list (list string)) (k : nat),
    Permutation test_dataset rearranged ->
    count_incorrect test_dataset c = Ok k ->
    count_incorrect rearranged c = Ok k
    /\ test_classifier rearranged c = test_classifier test_dataset c.
Proof.
  intros c test_dataset rearranged k Hperm Hk; unfold count_incorrect in *.
  pose proof (count_loop_each _ _ _ _ Hk) as Heach.
  pose proof (count_loop_eq _ _ _ _ Hk) as Hkeq; simpl in Hkeq.
  assert (Hr : for_each (check_record c) rearranged 0 = Ok k).
  { rewrite count_loop_all.
    - simpl; rewrite Hkeq; f_equal; symmetry.
      apply filter_length_permutation; exact Hperm.
    - intros r Hin; apply Heach.
      apply (Permutation_in r (Permutation_sym Hperm) Hin). }
  split; [exact Hr|].
  unfold test_classifier, count_incorrect; rewrite Hr, Hk; cbn [bind].
  rewrite (Permutation_length Hperm); reflexivity.
Qed.

Lemma accuracy_ignores_the_order_of_the_test_set_witness :
  test_classifier [record_fifty; sample_record] sample_classifier
  = test_classifier [sample_record; record_fifty] sample_classifier.
Proof.
  assert (H : {k | count_incorrect [sample_record; record_fifty] sample_classifier = Ok k})
    by (eexists; vm_compute; reflexivity).
  destruct H as [k H].
  exact (proj2 (accuracy_ignores_the_order_of_the_test_set sample_classifier
                  [sample_record; record_fifty] [record_fifty; sample_record] k
                  (perm_swap _ _ []) H)).
Defined.

(* ----------------------------------------------------------------- *)
(** ** The evaluator: the values of the accuracy *)

Section AccuracyValues.

Local Open Scope Z_scope.

(** Rounding depends on the ratio only. *)
Lemma round_mag_ratio (a b a' b' : Z) :
  0 <= a -> 0 < b -> 0 < b' -> a * b' = a' * b -> round_mag a b = round_mag a' b'.
Proof.
  intros Ha Hb Hb' H.
  assert (0 <= a') by nia.
  apply Z.le_antisymm; apply round_mag_mono; lia.
Qed.

Lemma round_mag_zero (b : Z) : 0 < b -> round_mag 0 b = 0.
Proof.
  intros Hb; rewrite (round_mag_ratio 0 b 0 1) by lia; reflexivity.
Qed.

Lemma ratio_mag_bounds (k n : Z) :
  0 <= k <= n -> 0 < n -> 0 <= ratio_mag k n <= U.
Proof.
  intros Hk Hn; pose proof U_pos; unfold ratio_mag; split.
  - apply round_mag_nonneg; nia.
  - apply (round_mag_below _ _ _ _ _ round_one); nia.
Qed.

Lemma percent_mag_bounds (x : Z) : 0 <= x <= U -> 0 <= percent_mag x <= 100 * U.
Proof.
  intros Hx; pose proof U_pos; unfold percent_mag; split.
  - apply round_mag_nonneg; nia.
  - apply (round_mag_below _ _ _ _ _ round_hundred_units); nia.
Qed.

Lemma distance_mag_bounds (y : Z) : 0 <= y <= 100 * U -> 0 <= distance_mag y <= 100 * U.
Proof.
  intros Hy; pose proof U_pos; unfold distance_mag; split.
  - apply round_mag_nonneg; lia.
  - apply (round_mag_below _ _ _ _ _ round_hundred); lia.
Qed.

Lemma hundredths_mag_bounds (a : Z) :
  0 <= a <= 100 * U -> 0 <= hundredths_mag a <= 100 * U.
Proof.
  intros Ha; pose proof U_pos; unfold hundredths_mag.
  assert (Hn : 0 <= rne_div (a * 100) U <= 10000)
    by (split; [apply rne_div_ge|apply rne_div_le]; lia).
  split.
  - apply round_mag_nonneg; nia.
  - apply (round_mag_below _ _ _ _ _ round_ten_thousand_hundredths); nia.
Qed.

Lemma true_divide_ratio_mag (k n : Z) :
  0 <= k <= n -> 0 < n -> true_divide k n = Ok (Fin false (ratio_mag k n)).
Proof.
  intros Hk Hn; pose proof (ratio_mag_bounds k n Hk Hn) as Hb; unfold ratio_mag in *.
  unfold true_divide.
  replace (n =? 0) with false by (symmetry; apply Z.eqb_neq; lia).
  replace (k <? 0) with false by (symmetry; apply Z.ltb_ge; lia).
  replace (n <? 0) with false by (symmetry; apply Z.ltb_ge; lia).
  rewrite !Z.abs_eq by lia; cbn [xorb].
  pose proof U_pos; rewrite round_finite by lia; reflexivity.
Qed.

Lemma fmul_percent_mag (x : Z) :
  0 <= x <= U -> fmul (Fin false x) (const 100) = Fin false (percent_mag x).
Proof.
  intros Hx; pose proof (percent_mag_bounds x Hx) as Hb; unfold percent_mag in *.
  rewrite const_hundred; unfold fmul; cbn [xorb].
  rewrite round_finite by lia; reflexivity.
Qed.

Lemma fabs_distance_mag (y : Z) :
  0 <= y <= 100 * U ->
  fabs (fsub (Fin false y) (const 100)) = Fin false (distance_mag y).
Proof.
  intros Hy; pose proof (distance_mag_bounds y Hy) as Hb; unfold distance_mag in *.
  pose proof U_pos as HU.
  rewrite const_hundred; unfold fsub, fneg, fadd, signed; cbn [negb andb].
  destruct (Z.eq_dec y (100 * U)) as [E|E].
  - replace (y + - (100 * U) =? 0) with true by (symmetry; apply Z.eqb_eq; lia).
    replace (100 * U - y) with 0 by lia.
    rewrite (round_mag_zero 1) by lia; reflexivity.
  - replace (y + - (100 * U) =? 0) with false by (symmetry; apply Z.eqb_neq; lia).
    replace (y + - (100 * U) <? 0) with true by (symmetry; apply Z.ltb_lt; lia).
    replace (Z.abs (y + - (100 * U))) with (100 * U - y) by lia.
    rewrite round_finite by lia; reflexivity.
Qed.

Lemma round_hundredths_mag (a : Z) :
  0 <= a <= 100 * U ->
  round_ndigits (Fin false a) 2 = Ok (Fin false (hundredths_mag a)).
Proof.
  intros Ha; pose proof (hundredths_mag_bounds a Ha) as Hb; unfold hundredths_mag in *.
  unfold round_ndigits; change (10 ^ Z.of_nat 2) with 100.
  rewrite round_finite by lia; reflexivity.
Qed.

End AccuracyValues.

(** The value computed at line 197. *)
Lemma accuracy_value (k n : nat) :
  k <= n -> 0 < n ->
  accuracy k n = Ok (Fin false (accuracy_mag k n))
  /\ (0 <= accuracy_mag k n <= 100 * U)%Z.
Proof.
  intros Hk Hn; unfold accuracy, accuracy_mag.
  pose proof (ratio_mag_bounds (Z.of_nat k) (Z.of_nat n) ltac:(lia) ltac:(lia)) as H1.
  pose proof (percent_mag_bounds _ H1) as H2.
  pose proof (distance_mag_bounds _ H2) as H3.
  pose proof (hundredths_mag_bounds _ H3) as H4.
  rewrite true_divide_ratio_mag by lia; cbn [bind].
  rewrite (fmul_percent_mag _ H1), (fabs_distance_mag _ H2), (round_hundredths_mag _ H3).
  split; [reflexivity|exact H4].
Qed.

Section AccuracyExtremes.

Local Open Scope Z_scope.

Lemma accuracy_mag_none_wrong (n : nat) : (0 < n)%nat -> accuracy_mag 0 n = 100 * U.
Proof.
  intros Hn; pose proof U_pos; unfold accuracy_mag, ratio_mag.
  change (Z.of_nat 0 * U) with 0.
  rewrite round_mag_zero by lia.
  unfold percent_mag; change (0 * (100 * U)) with 0; rewrite round_mag_zero by lia.
  unfold distance_mag; rewrite Z.sub_0_r, round_hundred.
  unfold hundredths_mag.
  replace (100 * U * 100) with (10000 * U) by lia.
  rewrite rne_div_exact by lia.
  apply round_ten_thousand_hundredths.
Qed.

Lemma accuracy_mag_all_wrong (n : nat) : (0 < n)%nat -> accuracy_mag n n = 0.
Proof.
  intros Hn; pose proof U_pos; unfold accuracy_mag, ratio_mag.
  rewrite (round_mag_ratio (Z.of_nat n * U) (Z.of_nat n) (1 * U) 1) by nia.
  rewrite round_one.
  unfold percent_mag; rewrite round_hundred_units.
  unfold distance_mag; rewrite Z.sub_diag, round_mag_zero by lia.
  unfold hundredths_mag; change (0 * 100) with 0.
  replace (rne_div 0 U) with 0 by (symmetry; apply (rne_div_exact 0 U); lia).
  change (0 * U) with 0; apply round_mag_zero; lia.
Qed.

Lemma ratio_mag_mono (k k' n : Z) :
  0 <= k <= k' -> 0 < n -> ratio_mag k n <= ratio_mag k' n.
Proof.
  intros Hk Hn; pose proof U_pos; unfold ratio_mag.
  apply round_mag_mono; [nia|lia|lia|].
  apply Z.mul_le_mono_nonneg_r; [lia|nia].
Qed.

Lemma percent_mag_mono (x x' : Z) : 0 <= x <= x' -> percent_mag x <= percent_mag x'.
Proof.
  intros Hx; pose proof U_pos; unfold percent_mag.
  apply round_mag_mono; [nia|lia|lia|].
  apply Z.mul_le_mono_nonneg_r; [lia|nia].
Qed.

Lemma distance_mag_antitone (y y' : Z) :
  y <= y' <= 100 * U -> distance_mag y' <= distance_mag y.
Proof. intros Hy; unfold distance_mag; apply round_mag_mono; lia. Qed.

Lemma hundredths_mag_mono (a a' : Z) : 0 <= a <= a' -> hundredths_mag a <= hundredths_mag a'.
Proof.
  intros Ha; pose proof U_pos; unfold hundredths_mag.
  assert (0 <= rne_div (a * 100) U) by (apply rne_div_ge; lia).
  assert (rne_div (a * 100) U <= rne_div (a' * 100) U) by (apply rne_div_mono; nia).
  apply round_mag_mono; nia.
Qed.

Lemma accuracy_mag_antitone (k k' n : nat) :
  (k <= k')%nat -> (k' <= n)%nat -> (0 < n)%nat -> accuracy_mag k' n <= accuracy_mag k n.
Proof.
  intros Hk Hk' Hn; unfold accuracy_mag.
  pose proof (ratio_mag_bounds (Z.of_nat k) (Z.of_nat n) ltac:(lia) ltac:(lia)) as H1.
  pose proof (ratio_mag_bounds (Z.of_nat k') (Z.of_nat n) ltac:(lia) ltac:(lia)) as H1'.
  pose proof (ratio_mag_mono (Z.of_nat k) (Z.of_nat k') (Z.of_nat n) ltac:(lia) ltac:(lia)).
  pose proof (percent_mag_bounds _ H1) as H2.
  pose proof (percent_mag_bounds _ H1') as H2'.
  pose proof (percent_mag_mono _ _ (conj (proj1 H1) H)).
  pose proof (distance_mag_bounds _ H2') as H3'.
  apply hundredths_mag_mono; split; [lia|].
  apply distance_mag_antitone; lia.
Qed.

End AccuracyExtremes.

Lemma test_classifier_extremes (c : classifier) (test_dataset : list (list string)) :
  test_dataset <> [] ->
  (count_incorrect test_dataset c = Ok 0 ->
   test_classifier test_dataset c = Ok (const 100))
  /\ (count_incorrect test_dataset c = Ok (List.length test_dataset) ->
      test_classifier test_dataset c = Ok (const 0)).
Proof.
  intros Hne.
  assert (Hn : 0 < List.length test_dataset)
    by (destruct test_dataset; [congruence|simpl; lia]).
  split; intros H; unfold test_classifier; rewrite H; cbn [bind].
  - rewrite (proj1 (accuracy_value 0 _ ltac:(lia) Hn)), (accuracy_mag_none_wrong _ Hn).
    reflexivity.
  - rewrite (proj1 (accuracy_value _ _ (le_n _) Hn)), (accuracy_mag_all_wrong _ Hn).
    reflexivity.
Qed.

(** X8: an evaluation that misclassifies no record of a non-empty test
    set returns exactly [100.0], and one that misclassifies them all
    returns exactly [0.0]. *)
Theorem accuracy_of_perfect_and_of_hopeless_evaluations :
  forall (c : classifier) (test_dataset : list (list string)),
    test_dataset <> [] ->
    (count_incorrect test_dataset c = Ok 0 ->
     test_classifier test_dataset c = Ok (const 100))
    /\ (count_incorrect test_dataset c = Ok (List.length test_dataset) ->
        test_classifier test_dataset c = Ok (const 0)).
Proof. intros c test_dataset; apply test_classifier_extremes. Qed.

Lemma accuracy_of_perfect_and_of_hopeless_evaluations_witness :
  test_classifier [record_fifty] sample_classifier = Ok (const 100).
Proof.
  refine (proj1 (accuracy_of_perfect_and_of_hopeless_evaluations sample_classifier
                   [record_fifty] _) _); [discriminate|vm_compute; reflexivity].
Defined.

(** X9: on a test set of [n] records, more misclassified records never
    give a higher accuracy: for [k <= k' <= n] the accuracy for [k']
    errors is at most the accuracy for [k] errors, and both are floats
    between [0.0] and [100.0]. *)
Theorem accuracy_decreases_with_the_errors :
  forall (k k' n : nat),
    k <= k' -> k' <= n -> 0 < n ->
    exists a a',
      accuracy k n = Ok a /\ accuracy k' n = Ok a'
      /\ fle a' a = true /\ fle (const 0) a' = true /\ fle a (const 100) = true.
Proof.
  intros k k' n Hk Hk' Hn.
  destruct (accuracy_value k n ltac:(lia) Hn) as [Ha Hb].
  destruct (accuracy_value k' n Hk' Hn) as [Ha' Hb'].
  pose proof (accuracy_mag_antitone k k' n Hk Hk' Hn) as Hmono.
  exists (Fin false (accuracy_mag k n)), (Fin false (accuracy_mag k' n)).
  split; [exact Ha|]; split; [exact Ha'|].
  rewrite const_hundred; change (const 0) with (Fin false (0 * U)%Z).
  unfold fle, signed; repeat split; apply Z.leb_le; lia.
Qed.

Lemma accuracy_decreases_with_the_errors_witness :
  exists a a',
    accuracy 1 3 = Ok a /\ accuracy 2 3 = Ok a'
    /\ fle a' a = true /\ fle (const 0) a' = true /\ fle a (const 100) = true.
Proof. apply accuracy_decreases_with_the_errors; lia. Defined.

Lemma unknown_label_misclassified (c : classifier) (record : list string) :
  checkable c record = true -> unknown_label record = true ->
  misclassified c record = true.
Proof.
  intros Hc Hu; unfold misclassified, unknown_label in *.
  destruct (check_record_defined c 0 record Hc) as (k & Hk).
  unfold check_record in Hk.
  destruct (predict c record) as [p|]; cbn [bind] in Hk; [|discriminate].
  destruct (last_item record) as [l|]; [|discriminate].
  apply andb_prop in Hu; destruct Hu as [H1 H2].
  apply negb_true_iff in H1, H2.
  destruct p; cbn [label_of]; [rewrite H2|rewrite H1]; reflexivity.
Qed.

(** X10: a record whose label is the text of neither class is counted as
    misclassified whatever its prediction; so a non-empty test set of
    records that can be checked and whose labels are all of that kind,
    such as the labels with a final full stop, gets the accuracy [0.0]. *)
Theorem unknown_labels_are_always_misclassified :
  forall (c : classifier) (test_dataset : list (list string)),
    test_dataset <> [] ->
    forallb (checkable c) test_dataset = true ->
    forallb unknown_label test_dataset = true ->
    (forall r, In r test_dataset -> misclassified c r = true)
    /\ count_incorrect test_dataset c = Ok (List.length test_dataset)
    /\ test_classifier test_dataset c = Ok (const 0).
Proof.
  intros c test_dataset Hne Hc Hu.
  assert (Hall : forall r, In r test_dataset -> misclassified c r = true).
  { intros r Hr; rewrite forallb_forall in Hc, Hu.
    apply unknown_label_misclassified; [apply Hc|apply Hu]; exact Hr. }
  assert (Hk : count_incorrect test_dataset c = Ok (List.length test_dataset)).
  { unfold count_incorrect; rewrite (count_loop_checkable c test_dataset 0 Hc).
    simpl; f_equal.
    clear -Hall; induction test_dataset as [|r rs IH]; [reflexivity|].
    cbn [filter]; rewrite (Hall r (or_introl eq_refl)); simpl; f_equal.
    apply IH; intros r' Hr'; apply Hall; right; exact Hr'. }
  split; [exact Hall|]; split; [exact Hk|].
  exact (proj2 (test_classifier_extremes c test_dataset Hne) Hk).
Qed.

Lemma unknown_labels_are_always_misclassified_witness :
  test_classifier [record_with_dotted_label] sample_classifier = Ok (const 0).
Proof.
  refine (proj2 (proj2 (unknown_labels_are_always_misclassified sample_classifier
                          [record_with_dotted_label] _ _ _)));
    [discriminate|reflexivity|reflexivity].
Defined.

(* ----------------------------------------------------------------- *)
(** ** The builder: what it needs *)

Lemma stride_short {A : Type} (k w : nat) (l : list A) :
  List.length l <= w -> stride k w l = [].
Proof.
  revert w; induction l as [|x l IH]; intros w H; [reflexivity|].
  destruct w as [|w]; [simpl in H; lia|].
  simpl in *; apply IH; lia.
Qed.

Lemma map_result_each {A B : Type} (f : A -> result B) (xs : list A) (ys : list B) :
  map_result f xs = Ok ys -> forall x, In x xs -> exists y, f x = Ok y.
Proof.
  revert ys; induction xs as [|x xs IH]; intros ys H x' Hin; [destruct Hin|].
  simpl in H.
  destruct (f x) as [y|] eqn:E; cbn [bind] in H; [|discriminate].
  destruct (map_result f xs) as [zs|]; cbn [bind] in H; [|discriminate].
  destruct Hin as [<-|Hin]; [exists y; exact E|exact (IH zs eq_refl x' Hin)].
Qed.

Lemma midpoint_needs_values (p : pools) (i : nat) (m : float) :
  midpoint p i = Ok m ->
  i < List.length (pos_num_attr p) /\ i < List.length (neg_num_attr p).
Proof.
  unfold midpoint, slice_step.
  destruct (mean (stride 5 i (pos_num_attr p))) as [a|] eqn:Ea; cbn [bind]; [|discriminate].
  destruct (mean (stride 5 i (neg_num_attr p))) as [b|] eqn:Eb; cbn [bind]; [|discriminate].
  intros _; split.
  - destruct (Nat.lt_ge_cases i (List.length (pos_num_attr p))) as [H|H]; [exact H|].
    rewrite (stride_short 5 i _ H) in Ea; discriminate Ea.
  - destruct (Nat.lt_ge_cases i (List.length (neg_num_attr p))) as [H|H]; [exact H|].
    rewrite (stride_short 5 i _ H) in Eb; discriminate Eb.
Qed.

(** X11: the builder needs both classes: it ends with
    [ZeroDivisionError] on the empty training set, and whenever it returns
    a classifier, that classifier has 5 thresholds and each of the two
    pools has received at least 5 numeric values, so that the training
    set has a record labelled [>50K] and a record with another label. *)
Theorem builder_needs_both_classes :
  create_classifier [] = Raise ZeroDivisionError
  /\ forall (data : list (list string)) (midpoint_num : list float) (table : dict),
       create_classifier data = Ok (midpoint_num, table) ->
       List.length midpoint_num = 5
       /\ 5 <= List.length (flat_map number_list (positives data))
       /\ 5 <= List.length (flat_map number_list (negatives data))
       /\ positives data <> [] /\ negatives data <> [].
Proof.
  split; [reflexivity|].
  intros data midpoint_num table H.
  destruct (create_classifier_midpoints _ _ _ H) as (p & Hp & Hm).
  destruct (fill_pools_ok _ _ Hp) as [_ ->].
  unfold midpoints in Hm.
  destruct (map_result_each _ _ _ Hm 4) as (m4 & H4); [simpl; tauto|].
  apply midpoint_needs_values in H4.
  cbn [pooled_all pos_num_attr neg_num_attr pools_init app] in H4.
  split; [rewrite (map_result_length _ _ _ Hm); reflexivity|].
  split; [lia|]; split; [lia|].
  split; intros E; rewrite E in H4; simpl in H4; lia.
Qed.

Lemma builder_needs_both_classes_witness :
  exists midpoint_num table,
    create_classifier [record_fifty; record_thirty] = Ok (midpoint_num, table)
    /\ List.length midpoint_num = 5.
Proof.
  assert (H : {c | create_classifier [record_fifty; record_thirty] = Ok c})
    by (eexists; vm_compute; reflexivity).
  destruct H as [[midpoint_num table] H].
  exists midpoint_num, table; split; [exact H|].
  exact (proj1 (proj2 builder_needs_both_classes _ _ _ H)).
Defined.

(* ----------------------------------------------------------------- *)
(** ** The builder: the order of the training records *)

Lemma filter_permutation {A : Type} (f : A -> bool) (l l' : list A) :
  Permutation l l' -> Permutation (filter f l) (filter f l').
Proof.
  induction 1 as [|x l l' _ IH|x y l|l l' l'' _ IH1 _ IH2]; simpl.
  - constructor.
  - destruct (f x); [constructor|]; exact IH.
  - destruct (f x), (f y); try apply Permutation_refl; apply perm_swap.
  - exact (Permutation_trans IH1 IH2).
Qed.

Lemma sum_cons (x : Z) (l : list Z) : sum (x :: l) = (x + sum l)%Z.
Proof. unfold sum; cbn [fold_left]; rewrite sum_from; reflexivity. Qed.

Lemma sum_permutation (l l' : list Z) : Permutation l l' -> sum l = sum l'.
Proof.
  induction 1 as [|x l l' _ IH|x y l|l l' l'' _ IH1 _ IH2].
  - reflexivity.
  - rewrite !sum_cons, IH; reflexivity.
  - rewrite !sum_cons; lia.
  - congruence.
Qed.

Lemma mean_permutation (l l' : list Z) : Permutation l l' -> mean l = mean l'.
Proof.
  intros H; unfold mean; rewrite (sum_permutation _ _ H), (Permutation_length H).
  reflexivity.
Qed.

Lemma forallb_permutation {A : Type} (f : A -> bool) (l l' : list A) :
  Permutation l l' -> forallb f l = true -> forallb f l' = true.
Proof.
  intros Hp H; rewrite forallb_forall in *; intros x Hx.
  apply H, (Permutation_in x (Permutation_sym Hp) Hx).
Qed.

Lemma stride_length {A B : Type} (k w : nat) (l : list A) (l' : list B) :
  List.length l = List.length l' ->
  List.length (stride k w l) = List.length (stride k w l').
Proof.
  revert w l'; induction l as [|x l IH]; intros w [|y l'] H; try discriminate H;
    [reflexivity|].
  injection H as H; destruct w; simpl; [f_equal|]; apply IH; exact H.
Qed.

Lemma count_permutation (v : string) (l l' : list string) :
  Permutation l l' -> count v l = count v l'.
Proof. intros H; unfold count; apply filter_length_permutation; exact H. Qed.

Lemma outcome_permutation (data rearranged : list (list string)) (v : string) :
  Permutation data rearranged ->
  outcome (pooled_all pools_init rearranged) v = outcome (pooled_all pools_init data) v.
Proof.
  intros H; unfold outcome, pooled_all, positives, negatives, categorical_pool, slice_step;
    cbn [pos_not_num_attr neg_not_num_attr pools_init app].
  pose proof (Permutation_flat_map categorical_attributes
                (filter_permutation is_positive _ _ H)) as Hpos.
  pose proof (Permutation_flat_map categorical_attributes
                (filter_permutation (fun r => negb (is_positive r)) _ _ H)) as Hneg.
  rewrite <- (count_permutation v _ _ Hpos), <- (count_permutation v _ _ Hneg).
  rewrite <- (stride_length 6 0 _ _ (Permutation_length Hpos)).
  rewrite <- (stride_length 6 0 _ _ (Permutation_length Hneg)).
  reflexivity.
Qed.

Lemma vote_same_table (thresholds : list float) (t t' : dict) (st : counters) (a : string) :
  (forall v, dict_get t' v = dict_get t v) ->
  vote (thresholds, t') st a = vote (thresholds, t) st a.
Proof. intros H; unfold vote; cbn [fst snd]; rewrite H; reflexivity. Qed.

Lemma predict_same_table (thresholds : list float) (t t' : dict) (record : list string) :
  (forall v, dict_get t' v = dict_get t v) ->
  predict (thresholds, t') record = predict (thresholds, t) record.
Proof.
  intros H; unfold predict, count_votes.
  generalize counters_init as st.
  induction (attributes record) as [|a attrs IH]; intros st; [reflexivity|].
  cbn [for_each]; rewrite (vote_same_table thresholds t t' st a H).
  destruct (vote (thresholds, t) st a) as [st'|]; cbn [bind]; [apply IH|reflexivity].
Qed.

(** X12: the classifier does not depend on the order of the training
    records.  When every record carries 5 numeric attributes and the
    builder returns a classifier, it returns for any rearrangement of the
    records a classifier with the same thresholds and a table with the
    same entries, in a possibly different order; the two classifiers
    predict the same class for every record. *)
Theorem classifier_ignores_the_order_of_the_training_set :
  forall (data rearranged : list (list string)) (midpoint_num : list float) (table : dict),
    Permutation data rearranged ->
    forallb has_five_numbers data = true ->
    create_classifier data = Ok (midpoint_num, table) ->
    exists table',
      create_classifier rearranged = Ok (midpoint_num, table')
      /\ (forall v, dict_get table' v = dict_get table v)
      /\ Permutation (map fst table) (map fst table')
      /\ forall record,
           predict (midpoint_num, table') record = predict (midpoint_num, table) record.
Proof.
  intros data rearranged midpoint_num table Hperm H5 H.
  pose proof (forallb_permutation _ _ _ Hperm H5) as H5'.
  destruct (create_classifier_midpoints _ _ _ H) as (p & Hp & Hm).
  destruct (fill_pools_ok _ _ Hp) as [_ ->].
  destruct (create_classifier_outcomes _ _ _ H) as (outs & Ho & ->).
  unfold outcomes in Ho; cbn [pooled_all not_num_sub_attr pools_init] in Ho.
  rewrite add_new_first_occurrences in Ho.
  (* the thresholds *)
  assert (Hm' : midpoints (pooled_all pools_init rearranged) = Ok midpoint_num).
  { rewrite <- Hm, (midpoints_lanes data H5), (midpoints_lanes rearranged H5').
    apply map_result_ext_in; intros i _; unfold midpoint_of, lane, positives, negatives.
    rewrite (mean_permutation _ _
               (Permutation_map _ (filter_permutation is_positive _ _ Hperm))).
    rewrite (mean_permutation _ _
               (Permutation_map _ (filter_permutation (fun r => negb (is_positive r))
                                     _ _ Hperm))).
    reflexivity. }
  (* the values of the table *)
  assert (Hpool : forall v, In v (categorical_pool rearranged) <-> In v (categorical_pool data)).
  { intros v; unfold categorical_pool; split; apply Permutation_in;
      [apply Permutation_sym|]; apply Permutation_flat_map; exact Hperm. }
  destruct (map_result_ok (outcome (pooled_all pools_init rearranged))
              (first_occurrences (categorical_pool rearranged))) as (outs' & Ho').
  { intros v Hv; rewrite (outcome_permutation data rearranged v Hperm).
    apply (map_result_each _ _ _ Ho).
    apply first_occurrences_In, Hpool, first_occurrences_In; exact Hv. }
  exists (combine (first_occurrences (categorical_pool rearranged)) outs').
  assert (Hget : forall v,
             dict_get (combine (first_occurrences (categorical_pool rearranged)) outs') v
             = dict_get (combine (first_occurrences (categorical_pool data)) outs) v).
  { intros v.
    destruct (dict_get_combine _ _ _ v Ho) as [Hin Hout].
    destruct (dict_get_combine _ _ _ v Ho') as [Hin' Hout'].
    destruct (in_dec string_dec v (categorical_pool data)) as [Hv|Hv].
    - destruct Hin as (s & Hs & ->); [apply first_occurrences_In; exact Hv|].
      destruct Hin' as (s' & Hs' & ->);
        [apply first_occurrences_In, Hpool; exact Hv|].
      rewrite (outcome_permutation data rearranged v Hperm) in Hs'; congruence.
    - rewrite Hout, Hout'; [reflexivity| |];
        rewrite first_occurrences_In; [rewrite Hpool|]; exact Hv. }
  split; [|split; [exact Hget|split]].
  - unfold create_classifier.
    rewrite (fill_pools_poolable rearranged (has_five_numbers_poolable _ H5')); cbn [bind].
    rewrite Hm'; cbn [bind]; unfold outcomes.
    cbn [pooled_all not_num_sub_attr pools_init].
    rewrite add_new_first_occurrences, Ho'; cbn [bind].
    rewrite dict_of_distinct; [reflexivity|].
    rewrite (combine_keys _ _ _ Ho'); apply first_occurrences_NoDup.
  - rewrite (combine_keys _ _ _ Ho), (combine_keys _ _ _ Ho').
    apply NoDup_Permutation; try apply first_occurrences_NoDup.
    intros v; rewrite !first_occurrences_In; symmetry; apply Hpool.
  - intros record; apply predict_same_table; exact Hget.
Qed.

Lemma classifier_ignores_the_order_of_the_training_set_witness :
  exists midpoint_num table table',
    create_classifier [record_fifty; record_thirty] = Ok (midpoint_num, table)
    /\ create_classifier [record_thirty; record_fifty] = Ok (midpoint_num, table')
    /\ forall v, dict_get table' v = dict_get table v.
Proof.
  assert (H : {c | create_classifier [record_fifty; record_thirty] = Ok c})
    by (eexists; vm_compute; reflexivity).
  destruct H as [[midpoint_num table] H].
  destruct (classifier_ignores_the_order_of_the_training_set
              [record_fifty; record_thirty] [record_thirty; record_fifty]
              midpoint_num table (perm_swap _ _ []) eq_refl H)
    as (table' & H' & Hget & _).
  exists midpoint_num, table, table'; repeat split; assumption.
Defined.

(* ----------------------------------------------------------------- *)
(** ** The builder: where the thresholds lie *)

Section ExactIntegers.

Local Open Scope Z_scope.

(** A magnitude of at most 53 significant bits is rounded to itself. *)
Lemma round_mag_exact_below (m k : Z) :
  0 <= m < 2 ^ 53 -> 0 <= k -> round_mag (m * 2 ^ k) 1 = m * 2 ^ k.
Proof.
  intros Hm Hk.
  destruct (Z.eq_dec m 0) as [->|Hm0]; [apply round_mag_zero; lia|].
  assert (Hpk : 0 < 2 ^ k) by (apply Z.pow_pos_nonneg; lia).
  unfold round_mag, shift; rewrite Z.div_1_r, Z.mul_1_l.
  rewrite Z.log2_mul_pow2 by lia.
  assert (Hlog : Z.log2 m < 53) by (apply Z.log2_lt_pow2; lia).
  pose proof (Z.log2_nonneg m) as Hlog0.
  set (g := Z.max 0 (k + Z.log2 m - 52)).
  assert (Hg : 0 <= g <= k) by (unfold g; lia).
  assert (Hpg : 0 < 2 ^ g) by (apply Z.pow_pos_nonneg; lia).
  replace (m * 2 ^ k) with (m * 2 ^ (k - g) * 2 ^ g).
  - rewrite rne_div_exact by lia; reflexivity.
  - rewrite <- Z.mul_assoc, <- Z.pow_add_r by lia; do 2 f_equal; lia.
Qed.

Lemma round_mag_exact (m k : Z) :
  0 <= m <= 2 ^ 53 -> 0 <= k -> round_mag (m * 2 ^ k) 1 = m * 2 ^ k.
Proof.
  intros Hm Hk.
  destruct (Z.eq_dec m (2 ^ 53)) as [->|Hn]; [|apply round_mag_exact_below; lia].
  replace (2 ^ 53 * 2 ^ k) with (2 ^ 52 * 2 ^ (k + 1))
    by (rewrite (Z.pow_add_r 2 k 1) by lia; change (2 ^ 53) with (2 ^ 52 * 2); lia).
  apply round_mag_exact_below; [split; [|reflexivity]|]; lia.
Qed.

Lemma two_units : 2 * U = 2 ^ 1075.
Proof. vm_compute; reflexivity. Qed.

Lemma doubled_is_finite : 2 * (2 ^ 53 * U) < overflow_from.
Proof. vm_compute; reflexivity. Qed.

Lemma round_integer (z : Z) : 0 <= z <= 2 ^ 53 -> round_mag (z * U) 1 = z * U.
Proof. intros H; unfold U; apply round_mag_exact; lia. Qed.

Lemma round_doubled_integer (z : Z) :
  0 <= z <= 2 ^ 53 -> round_mag (2 * (z * U)) 1 = 2 * (z * U).
Proof.
  intros H; replace (2 * (z * U)) with (z * 2 ^ 1075) by (rewrite <- two_units; lia).
  apply round_mag_exact; lia.
Qed.

Lemma round_below_top (s : bool) (a b : Z) :
  round_mag a b <= 2 * (2 ^ 53 * U) -> round s a b = Fin s (round_mag a b).
Proof.
  intros H; unfold round; pose proof doubled_is_finite.
  replace (round_mag a b <? overflow_from) with true; [reflexivity|].
  symmetry; apply Z.ltb_lt; lia.
Qed.

Lemma sum_between (l : list Z) (lo hi : Z) :
  (forall z, In z l -> lo <= z <= hi) ->
  Z.of_nat (List.length l) * lo <= sum l <= Z.of_nat (List.length l) * hi.
Proof.
  induction l as [|x l IH]; intros H; [unfold sum; simpl; lia|].
  rewrite sum_cons.
  specialize (IH (fun z Hz => H z (or_intror Hz))).
  pose proof (H x (or_introl eq_refl)).
  cbn [List.length]; lia.
Qed.

(** The float mean of integers between [lo] and [hi] lies between them. *)
Lemma mean_between (l : list Z) (lo hi : Z) :
  l <> [] -> 0 <= lo -> hi <= 2 ^ 53 ->
  (forall z, In z l -> lo <= z <= hi) ->
  exists a, mean l = Ok (Fin false a) /\ lo * U <= a <= hi * U.
Proof.
  intros Hne Hlo Hhi H; pose proof U_pos as HU.
  pose proof (sum_between l lo hi H) as Hs.
  assert (Hn : 0 < Z.of_nat (List.length l)) by (destruct l; [congruence|simpl; lia]).
  assert (Hlh : lo <= hi) by (destruct l as [|x l]; [congruence|];
                              pose proof (H x (or_introl eq_refl)); lia).
  set (n := Z.of_nat (List.length l)) in *.
  assert (Hb : lo * U <= round_mag (sum l * U) n <= hi * U).
  { split.
    - rewrite <- (round_integer lo) by lia.
      apply round_mag_mono; nia.
    - apply (round_mag_below _ _ _ _ _ (round_integer hi ltac:(lia))); nia. }
  unfold mean, true_divide; fold n.
  replace (n =? 0) with false by (symmetry; apply Z.eqb_neq; lia).
  replace (sum l <? 0) with false by (symmetry; apply Z.ltb_ge; nia).
  replace (n <? 0) with false by (symmetry; apply Z.ltb_ge; lia).
  rewrite !Z.abs_eq by nia; cbn [xorb].
  rewrite round_below_top by nia.
  eexists; split; [reflexivity|exact Hb].
Qed.

(** The float midpoint of two floats between the integers [lo] and [hi]
    lies between them. *)
Lemma midpoint_between (a b lo hi : Z) :
  0 <= lo -> hi <= 2 ^ 53 ->
  lo * U <= a <= hi * U -> lo * U <= b <= hi * U ->
  exists d, fdiv (fadd (Fin false a) (Fin false b)) (const 2) = Ok (Fin false d)
            /\ lo * U <= d <= hi * U.
Proof.
  intros Hlo Hhi Ha Hb; pose proof U_pos as HU.
  assert (Hlh : lo <= hi) by nia.
  assert (Hsum : exists c, fadd (Fin false a) (Fin false b) = Fin false c
                           /\ 2 * (lo * U) <= c <= 2 * (hi * U)).
  { unfold fadd, signed.
    destruct (Z.eq_dec (a + b) 0) as [E|E].
    - replace (a + b =? 0) with true by (symmetry; apply Z.eqb_eq; exact E).
      exists 0; split; [reflexivity|nia].
    - replace (a + b =? 0) with false by (symmetry; apply Z.eqb_neq; exact E).
      replace (a + b <? 0) with false by (symmetry; apply Z.ltb_ge; nia).
      rewrite Z.abs_eq by nia.
      assert (Hc : 2 * (lo * U) <= round_mag (a + b) 1 <= 2 * (hi * U)).
      { split.
        - rewrite <- (round_doubled_integer lo) by lia.
          apply round_mag_mono; nia.
        - apply (round_mag_below _ _ _ _ _ (round_doubled_integer hi ltac:(lia))); nia. }
      rewrite round_below_top by nia.
      eexists; split; [reflexivity|exact Hc]. }
  destruct Hsum as (c & -> & Hc).
  assert (Hd : lo * U <= round_mag (c * U) (2 * U) <= hi * U).
  { split.
    - rewrite <- (round_integer lo) at 1 by lia.
      apply round_mag_mono; nia.
    - apply (round_mag_below _ _ _ _ _ (round_integer hi ltac:(lia))); nia. }
  change (const 2) with (Fin false (2 * U)); unfold fdiv.
  destruct (2 * U) as [|p|p] eqn:E; [lia| |lia].
  cbn [xorb]; rewrite round_below_top by nia.
  eexists; split; [reflexivity|exact Hd].
Qed.

End ExactIntegers.

(** X13: each threshold lies between the smallest and the largest value
    of its lane.  When every record carries 5 numeric attributes, the
    values of lane [i] over the training records are integers between
    [lo] and [hi], with [0 <= lo] and [hi <= 2^53], and the builder
    returns, the threshold of lane [i] is a float between [lo] and
    [hi]. *)
Theorem threshold_lies_within_its_lane :
  forall (data : list (list string)) (midpoint_num : list float) (table : dict)
         (i : nat) (lo hi : Z),
    forallb has_five_numbers data = true ->
    create_classifier data = Ok (midpoint_num, table) ->
    i < 5 -> (0 <= lo)%Z -> (hi <= 2 ^ 53)%Z ->
    (forall record, In record data -> (lo <= nth i (number_list record) 0 <= hi)%Z) ->
    exists t, nth i midpoint_num NaN = Fin false t /\ (lo * U <= t <= hi * U)%Z.
Proof.
  intros data midpoint_num table i lo hi H5 H Hi Hlo Hhi Hlane.
  destruct (create_classifier_midpoints _ _ _ H) as (p & Hp & Hm).
  rewrite (fill_pools_poolable data (has_five_numbers_poolable data H5)) in Hp.
  injection Hp as <-; rewrite (midpoints_lanes data H5) in Hm.
  pose proof (map_result_nth _ _ _ i 0 NaN Hm) as Hn.
  rewrite length_seq, seq_nth in Hn by exact Hi; specialize (Hn Hi); simpl in Hn.
  assert (Hin : forall keep z, In z (lane i (filter keep data)) -> (lo <= z <= hi)%Z).
  { intros keep z Hz; unfold lane in Hz; apply in_map_iff in Hz.
    destruct Hz as (r & <- & Hr); apply filter_In in Hr; apply Hlane; tauto. }
  unfold midpoint_of in Hn.
  destruct (mean (lane i (positives data))) as [x|] eqn:Ex; cbn [bind] in Hn;
    [|discriminate].
  destruct (mean (lane i (negatives data))) as [y|] eqn:Ey; cbn [bind] in Hn;
    [|discriminate].
  destruct (mean_between (lane i (positives data)) lo hi) as (a & Ha & Hab);
    [intros E; rewrite E in Ex; discriminate Ex|assumption|assumption|apply Hin|].
  destruct (mean_between (lane i (negatives data)) lo hi) as (b & Hb & Hbb);
    [intros E; rewrite E in Ey; discriminate Ey|assumption|assumption|apply Hin|].
  rewrite Ha in Ex; injection Ex as <-; rewrite Hb in Ey; injection Ey as <-.
  destruct (midpoint_between a b lo hi Hlo Hhi Hab Hbb) as (d & Hd & Hdb).
  rewrite Hd in Hn; injection Hn as Hn; exists d; split; [symmetry; exact Hn|exact Hdb].
Qed.

Lemma threshold_lies_within_its_lane_witness :
  exists midpoint_num table t,
    create_classifier [record_fifty; record_thirty] = Ok (midpoint_num, table)
    /\ nth 0 midpoint_num NaN = Fin false t /\ (30 * U <= t <= 50 * U)%Z.
Proof.
  assert (H : {c | create_classifier [record_fifty; record_thirty] = Ok c})
    by (eexists; vm_compute; reflexivity).
  destruct H as [[midpoint_num table] H].
  destruct (threshold_lies_within_its_lane [record_fifty; record_thirty]
              midpoint_num table 0 30 50 eq_refl H) as (t & Ht & Hb);
    try lia.
  - intros record [<-|[<-|[]]]; vm_compute; split; discriminate.
  - exists midpoint_num, table, t; repeat split; try assumption; lia.
Defined.

(* ----------------------------------------------------------------- *)
(** ** The builder: values seen in one class only *)

Lemma true_divide_nat_value (a b : nat) (q : float) :
  true_divide (Z.of_nat a) (Z.of_nat b) = Ok q ->
  0 < b /\ q = Fin false (round_mag (Z.of_nat a * U) (Z.of_nat b)).
Proof.
  unfold true_divide, round.
  destruct (Z.eqb_spec (Z.of_nat b) 0) as [E|E]; [discriminate|].
  replace (Z.of_nat a <? 0)%Z with false by (symmetry; apply Z.ltb_ge; lia).
  replace (Z.of_nat b <? 0)%Z with false by (symmetry; apply Z.ltb_ge; lia).
  rewrite !Z.abs_eq by lia; cbn [xorb].
  destruct (_ <? overflow_from)%Z; [|discriminate].
  intros H; injection H as <-; split; [lia|reflexivity].
Qed.

Lemma table_entry (data : list (list string)) (midpoint_num : list float) (table : dict)
  (v : string) :
  create_classifier data = Ok (midpoint_num, table) ->
  In v (categorical_pool data) ->
  exists pos_ave neg_ave,
    rate v (categorical_pool (positives data)) = Ok pos_ave
    /\ rate v (categorical_pool (negatives data)) = Ok neg_ave
    /\ dict_get table v
       = Some (if fgt pos_ave neg_ave then Positive
               else if flt pos_ave neg_ave then Negative else Neutral).
Proof.
  intros H Hv.
  destruct (create_classifier_outcomes _ _ _ H) as (outs & Ho & ->).
  unfold outcomes in Ho; cbn [pooled_all not_num_sub_attr pools_init] in Ho.
  rewrite add_new_first_occurrences in Ho.
  destruct (proj1 (dict_get_combine _ _ _ v Ho)) as (s & Hs & Hg);
    [apply first_occurrences_In; exact Hv|].
  rewrite Hg; clear Hg Ho.
  unfold outcome in Hs;
    cbn [pooled_all pos_not_num_attr neg_not_num_attr pools_init app] in Hs.
  fold (lane_count (categorical_pool (positives data))) in Hs.
  fold (lane_count (categorical_pool (negatives data))) in Hs.
  fold (rate v (categorical_pool (positives data))) in Hs.
  fold (rate v (categorical_pool (negatives data))) in Hs.
  destruct (rate v (categorical_pool (positives data))) as [pos_ave|]; cbn [bind] in Hs;
    [|discriminate].
  destruct (rate v (categorical_pool (negatives data))) as [neg_ave|]; cbn [bind] in Hs;
    [|discriminate].
  injection Hs as <-; exists pos_ave, neg_ave; repeat split.
Qed.

Lemma count_absent (v : string) (l : list string) : ~ In v l -> count v l = 0.
Proof.
  intros H; unfold count; induction l as [|x l IH]; [reflexivity|].
  cbn [filter]; destruct (String.eqb_spec v x) as [->|_].
  - exfalso; apply H; left; reflexivity.
  - apply IH; intros Hin; apply H; right; exact Hin.
Qed.

Lemma count_present (v : string) (l : list string) : In v l -> 0 < count v l.
Proof.
  intros H; unfold count; induction l as [|x l IH]; [destruct H|].
  cbn [filter]; destruct (String.eqb_spec v x) as [->|Hn]; [simpl; lia|].
  destruct H as [->|H]; [congruence|apply IH; exact H].
Qed.

Lemma stride_length_le {A : Type} (k w : nat) (l : list A) :
  List.length (stride k w l) <= List.length l.
Proof.
  revert w; induction l as [|x l IH]; intros w; [simpl; lia|].
  destruct w; simpl; [specialize (IH (k - 1))|specialize (IH w)]; lia.
Qed.

Lemma categorical_pool_filter_length (data : list (list string)) (keep : list string -> bool) :
  List.length (categorical_pool (filter keep data)) <= List.length (categorical_pool data).
Proof.
  unfold categorical_pool; induction data as [|r data IH]; [simpl; lia|].
  cbn [filter flat_map]; destruct (keep r); cbn [flat_map]; rewrite ?length_app; lia.
Qed.

Lemma categorical_pool_filter_In (data : list (list string)) (keep : list string -> bool)
  (v : string) :
  In v (categorical_pool (filter keep data)) -> In v (categorical_pool data).
Proof.
  unfold categorical_pool; rewrite !in_flat_map.
  intros (r & Hr & Hv); apply filter_In in Hr; exists r; tauto.
Qed.

Section Sides.

Local Open Scope Z_scope.

Lemma round_unit_ratio : round_mag U U = 1.
Proof.
  pose proof U_pos; rewrite (round_mag_ratio U U 1 1) by lia.
  vm_compute; reflexivity.
Qed.

(** A positive count over at most [2^1074] lanes is a positive float. *)
Lemma positive_rate (c n : Z) : 1 <= c -> 0 < n <= U -> 1 <= round_mag (c * U) n.
Proof.
  intros Hc Hn; pose proof U_pos; rewrite <- round_unit_ratio.
  apply round_mag_mono; nia.
Qed.

End Sides.

(** X14: a categorical value seen in one class only takes the side of
    that class: when the builder returns, a value that occurs only in
    records labelled [>50K] has the sentiment Positive, and a value that
    occurs only in the other records has the sentiment Negative (for
    categorical pools of at most [2^1074] values). *)
Theorem one_sided_values_take_their_side :
  forall (data : list (list string)) (midpoint_num : list float) (table : dict) (v : string),
    create_classifier data = Ok (midpoint_num, table) ->
    (Z.of_nat (List.length (categorical_pool data)) <= U)%Z ->
    (In v (categorical_pool (positives data)) ->
     ~ In v (categorical_pool (negatives data)) ->
     dict_get table v = Some Positive)
    /\ (In v (categorical_pool (negatives data)) ->
        ~ In v (categorical_pool (positives data)) ->
        dict_get table v = Some Negative).
Proof.
  intros data midpoint_num table v H Hsize.
  assert (Hside : forall keep other a b,
             rate v (categorical_pool (filter keep data)) = Ok a ->
             rate v (categorical_pool (filter other data)) = Ok b ->
             In v (categorical_pool (filter keep data)) ->
             ~ In v (categorical_pool (filter other data)) ->
             flt b a = true /\ flt a b = false).
  { intros keep other a b Ha Hb Hin Hout; unfold rate in Ha, Hb.
    rewrite (count_absent v _ Hout) in Hb.
    destruct (true_divide_nat_value _ _ _ Ha) as [Hna ->].
    destruct (true_divide_nat_value _ _ _ Hb) as [Hnb ->].
    change (Z.of_nat 0 * U)%Z with 0%Z; rewrite round_mag_zero by lia.
    pose proof (count_present v _ Hin) as Hc.
    pose proof (stride_length_le 6 0 (categorical_pool (filter keep data))) as Hl.
    pose proof (categorical_pool_filter_length data keep) as Hl'.
    unfold lane_count, slice_step in *.
    pose proof (positive_rate (Z.of_nat (count v (categorical_pool (filter keep data))))
                  (Z.of_nat (List.length
                               (stride 6 0 (categorical_pool (filter keep data)))))
                  ltac:(lia) ltac:(lia)) as Hpos.
    unfold flt, signed; split; [apply Z.ltb_lt|apply Z.ltb_ge]; lia. }
  split; intros Hin Hout.
  - destruct (table_entry _ _ _ v H (categorical_pool_filter_In _ _ _ Hin))
      as (a & b & Ha & Hb & ->).
    destruct (Hside _ _ a b Ha Hb Hin Hout) as [H1 _].
    unfold fgt; rewrite H1; reflexivity.
  - destruct (table_entry _ _ _ v H (categorical_pool_filter_In _ _ _ Hin))
      as (a & b & Ha & Hb & ->).
    destruct (Hside _ _ b a Hb Ha Hin Hout) as [H1 H2].
    unfold fgt; rewrite H2, H1; reflexivity.
Qed.

Lemma one_sided_values_take_their_side_witness :
  exists midpoint_num table,
    create_classifier [record_fifty; record_thirty] = Ok (midpoint_num, table)
    /\ dict_get table "Husband" = Some Positive.
Proof.
  assert (H : {c | create_classifier [record_fifty; record_thirty] = Ok c})
    by (eexists; vm_compute; reflexivity).
  destruct H as [[midpoint_num table] H].
  exists midpoint_num, table; split; [exact H|].
  refine (proj1 (one_sided_values_take_their_side _ _ _ "Husband" H _) _ _).
  - vm_compute; discriminate.
  - vm_compute; tauto.
  - vm_compute; intuition discriminate.
Defined.

(* ----------------------------------------------------------------- *)
(** ** [main]: the split and the pipeline *)

Section Split.

Local Open Scope Z_scope.

Lemma unit_is_four_quarters : U = 4 * 2 ^ 1072.
Proof. vm_compute; reflexivity. Qed.

(** Three quarters of [n] is an exact float as long as [3 n] fits in 53
    bits, so that the split index is the integer part of [75 n / 100]. *)
Lemma split_index_value (n : nat) :
  3 * Z.of_nat n <= 2 ^ 53 ->
  split_index n = Ok (Z.of_nat n * 75 / 100).
Proof.
  intros Hn; pose proof U_pos as HU; pose proof unit_is_four_quarters as HU4.
  assert (Hp : 0 < 2 ^ 1072) by (apply Z.pow_pos_nonneg; lia).
  assert (Hr : round_mag (Z.of_nat n * 75 * U) 100 = 3 * Z.of_nat n * 2 ^ 1072).
  { rewrite (round_mag_ratio _ 100 (3 * Z.of_nat n * 2 ^ 1072) 1) by nia.
    apply round_mag_exact; lia. }
  unfold split_index, true_divide, PERCENT.
  change (100 =? 0) with false; change (100 <? 0) with false.
  replace (Z.of_nat n * 75 <? 0) with false by (symmetry; apply Z.ltb_ge; lia).
  rewrite Z.abs_eq by lia; change (Z.abs 100) with 100; cbn [xorb].
  rewrite round_below_top by (rewrite Hr; nia).
  cbn [bind int_of_float signed]; rewrite Hr; f_equal.
  rewrite HU4.
  replace (3 * Z.of_nat n * 2 ^ 1072) with (3 * Z.of_nat n * 2 ^ 1072) by reflexivity.
  rewrite Z.div_mul_cancel_r by lia.
  replace (Z.of_nat n * 75) with (3 * Z.of_nat n * 25) by lia.
  change 100 with (4 * 25); rewrite Z.div_mul_cancel_r by lia; reflexivity.
Qed.

End Split.

Lemma slice_bound_nonneg (k : Z) (n : nat) :
  (0 <= k)%Z -> slice_bound k n = Nat.min (Z.to_nat k) n.
Proof.
  intros Hk; unfold slice_bound.
  replace (k <? 0)%Z with false by (symmetry; apply Z.ltb_ge; lia); lia.
Qed.

(** X15: the split of [main] cuts the cleaned records in two without
    losing, repeating or reordering any: the training set followed by the
    test set is the cleaned sequence.  For fewer than [2^51] records the
    training set is the first [75 n / 100] records, rounded down, so the
    test set is not empty unless there is no record at all, and the
    training set is empty exactly when there is at most one record. *)
Theorem split_is_a_partition :
  forall (A : Type) (cleaned : list A) (k : Z),
    split_index (List.length cleaned) = Ok k ->
    slice_to k cleaned ++ slice_from k cleaned = cleaned
    /\ ((Z.of_nat (List.length cleaned) < 2 ^ 51)%Z ->
        k = (Z.of_nat (List.length cleaned) * 75 / 100)%Z
        /\ List.length (slice_to k cleaned) = List.length cleaned * 75 / 100
        /\ (cleaned <> [] -> slice_from k cleaned <> [])
        /\ (slice_to k cleaned = [] <-> List.length cleaned <= 1)).
Proof.
  intros A cleaned k Hk; split; [apply firstn_skipn|].
  intros Hsmall.
  rewrite split_index_value in Hk by lia; injection Hk as <-.
  set (n := List.length cleaned) in *.
  assert (Hdiv : (Z.of_nat n * 75 / 100)%Z = Z.of_nat (n * 75 / 100)).
  { rewrite Nat2Z.inj_div, Nat2Z.inj_mul; reflexivity. }
  assert (Hle : n * 75 / 100 <= n).
  { apply Nat.Div0.div_le_upper_bound; lia. }
  assert (Hb : slice_bound (Z.of_nat n * 75 / 100) n = n * 75 / 100).
  { rewrite slice_bound_nonneg by (rewrite Hdiv; lia).
    rewrite Hdiv, Nat2Z.id; lia. }
  assert (Hlen : List.length (slice_to (Z.of_nat n * 75 / 100) cleaned) = n * 75 / 100).
  { unfold slice_to; fold n; rewrite Hb, length_firstn; fold n; lia. }
  split; [reflexivity|]; split; [exact Hlen|]; split.
  - intros Hne E.
    apply (f_equal (@List.length A)) in E; unfold slice_from in E; fold n in E.
    rewrite Hb, length_skipn in E; fold n in E; change (List.length (@nil A)) with 0 in E.
    assert (0 < n) by (unfold n; destruct cleaned; [congruence|simpl; lia]).
    assert (n * 75 / 100 < n) by (apply Nat.Div0.div_lt_upper_bound; lia).
    lia.
  - split.
    + intros E; rewrite E in Hlen; change (List.length (@nil A)) with 0 in Hlen.
      destruct (Nat.le_gt_cases n 1) as [H|H]; [exact H|].
      assert (1 <= n * 75 / 100) by (apply Nat.div_le_lower_bound; lia).
      lia.
    + intros H1; apply length_zero_iff_nil; rewrite Hlen.
      apply Nat.div_small; lia.
Qed.

Lemma split_is_a_partition_witness :
  slice_to 3 [1; 2; 3; 4] ++ slice_from 3 [1; 2; 3; 4] = [1; 2; 3; 4].
Proof.
  refine (proj1 (split_is_a_partition nat [1; 2; 3; 4] 3 _)).
  vm_compute; reflexivity.
Defined.

Lemma test_classifier_returns_nonempty (c : classifier) (test_dataset : list (list string))
  (a : float) :
  test_classifier test_dataset c = Ok a -> test_dataset <> [].
Proof.
  intros H ->; discriminate H.
Qed.

Lemma test_classifier_in_range (c : classifier) (test_dataset : list (list string))
  (a : float) :
  test_classifier test_dataset c = Ok a ->
  fle (const 0) a = true /\ fle a (const 100) = true.
Proof.
  intros H; pose proof (test_classifier_returns_nonempty _ _ _ H) as Hne.
  unfold test_classifier in H.
  destruct (count_incorrect test_dataset c) as [k|] eqn:Ek; cbn [bind] in H;
    [|discriminate].
  pose proof (count_loop_eq _ _ _ _ Ek) as Hk; simpl in Hk.
  pose proof (filter_length_le (misclassified c) test_dataset) as Hle.
  assert (Hn : 0 < List.length test_dataset)
    by (destruct test_dataset; [congruence|simpl; lia]).
  destruct (accuracy_in_range k (List.length test_dataset) ltac:(lia) Hn)
    as (ratio & acc & _ & Ha & _ & H0 & H100).
  rewrite Ha in H; injection H as <-; split; assumption.
Qed.

(** X16: the pipeline of [main] passes on the exception of the cleaner,
    ends with [ZeroDivisionError] when the cleaner returns fewer than two
    records, since the training set is then empty, and whenever it
    returns, the accuracy score is a float between [0.0] and [100.0]. *)
Theorem pipeline_outcomes :
  forall (net_content : string),
    (forall e, get_data net_content = Raise e -> accuracy_score net_content = Raise e)
    /\ (forall cleaned,
          get_data net_content = Ok cleaned -> List.length cleaned <= 1 ->
          accuracy_score net_content = Raise ZeroDivisionError)
    /\ (forall a, accuracy_score net_content = Ok a ->
          fle (const 0) a = true /\ fle a (const 100) = true).
Proof.
  intros net_content; unfold accuracy_score; split; [|split].
  - intros e ->; reflexivity.
  - intros cleaned -> Hlen; cbn [bind].
    rewrite split_index_value
      by (assert (H : (2 ^ 53 = 9007199254740992)%Z) by reflexivity; lia).
    cbn [bind].
    replace (slice_to (Z.of_nat (List.length cleaned) * 75 / 100) cleaned) with (@nil (list string)).
    + reflexivity.
    + symmetry; apply length_zero_iff_nil; unfold slice_to.
      rewrite length_firstn.
      destruct cleaned as [|r [|r' cleaned]]; [reflexivity|reflexivity|simpl in Hlen; lia].
  - intros a.
    destruct (get_data net_content) as [cleaned|]; cbn [bind]; [|discriminate].
    destruct (split_index (List.length cleaned)) as [k|]; cbn [bind]; [|discriminate].
    destruct (create_classifier _) as [c|]; cbn [bind]; [|discriminate].
    apply test_classifier_in_range.
Qed.

Lemma pipeline_outcomes_witness :
  accuracy_score row_state_gov = Raise ZeroDivisionError
  /\ accuracy_score "" = Raise IndexError.
Proof.
  split.
  - assert (H : {cleaned | get_data row_state_gov = Ok cleaned})
      by (eexists; vm_compute; reflexivity).
    destruct H as [cleaned H].
    refine (proj1 (proj2 (pipeline_outcomes row_state_gov)) cleaned H _).
    assert (E : get_data row_state_gov = Ok cleaned) by exact H.
    vm_compute in E; injection E as <-; simpl; lia.
  - exact (proj1 (pipeline_outcomes "") IndexError eq_refl).
Defined.

(* ----------------------------------------------------------------- *)
(** ** [get_data]: the two replacements of line 67 *)

Lemma has_pair_cons (a b x : ascii) (r : string) :
  has_pair a b (String x r)
  = (Ascii.eqb x a && starts_with b r) || has_pair a b r.
Proof.
  destruct r; simpl; [rewrite andb_false_r|]; reflexivity.
Qed.

Lemma replace_from_here (old new : string) (c : ascii) (t : string) :
  replace_from old new 0 (String c t)
  = if prefix old (String c t)
    then (new ++ replace_from old new (String.length old - 1) t)%string
    else String c (replace_from old new 0 t).
Proof. reflexivity. Qed.

Lemma replace_from_skip (old new : string) (k : nat) (c : ascii) (t : string) :
  replace_from old new (S k) (String c t) = replace_from old new k t.
Proof. reflexivity. Qed.

Lemma prefix_pair (a b x y : ascii) (t : string) :
  prefix (String a (String b "")) (String x (String y t))
  = Ascii.eqb x a && Ascii.eqb y b.
Proof.
  cbn [prefix].
  destruct (ascii_dec a x) as [->|Hax].
  - rewrite Ascii.eqb_refl; cbn [andb].
    destruct (ascii_dec b y) as [->|Hby].
    + rewrite Ascii.eqb_refl; destruct t; reflexivity.
    + destruct (Ascii.eqb_spec y b); [congruence|reflexivity].
  - destruct (Ascii.eqb_spec x a); [congruence|reflexivity].
Qed.

Lemma replace_pair_one (a b n x : ascii) :
  replace (String a (String b "")) (String n "") (String x "") = String x "".
Proof.
  unfold replace; rewrite replace_from_here; cbn [prefix].
  destruct (ascii_dec a x); reflexivity.
Qed.

Lemma replace_pair_two (a b n x y : ascii) (t : string) :
  replace (String a (String b "")) (String n "") (String x (String y t))
  = if Ascii.eqb x a && Ascii.eqb y b
    then String n (replace (String a (String b "")) (String n "") t)
    else String x (replace (String a (String b "")) (String n "") (String y t)).
Proof.
  unfold replace; rewrite replace_from_here, prefix_pair.
  destruct (Ascii.eqb x a && Ascii.eqb y b); [|reflexivity].
  cbn [String.length Nat.sub]; rewrite replace_from_skip; reflexivity.
Qed.

(** After [replace(', ', ',')] no comma is followed by a space, as long as
    the text has no two spaces in a row; the text still has none, and
    begins with the same character. *)
Lemma first_replacement (n : nat) :
  forall s : string,
    String.length s <= n ->
    has_pair " " " " s = false ->
    has_pair "," " " (replace ", " "," s) = false
    /\ has_pair " " " " (replace ", " "," s) = false
    /\ forall c, starts_with c (replace ", " "," s) = starts_with c s.
Proof.
  induction n as [|n IH]; intros s Hlen Hs.
  - destruct s; [|simpl in Hlen; lia]; repeat split.
  - destruct s as [|x [|y t]]; [repeat split| |].
    + change ", "%string with (String "," (String " " "")).
      change ","%string with (String "," "").
      rewrite replace_pair_one; repeat split.
    + change ", "%string with (String "," (String " " "")).
      change ","%string with (String "," "").
      rewrite replace_pair_two.
      rewrite has_pair_cons in Hs; apply orb_false_iff in Hs as [Hxy Hyt].
      pose proof Hyt as Hyt'.
      rewrite has_pair_cons in Hyt'; apply orb_false_iff in Hyt' as [Hy Ht].
      cbn [starts_with] in Hxy.
      destruct (Ascii.eqb x "," && Ascii.eqb y " ") eqn:Em.
      * apply andb_true_iff in Em as [Ex Ey].
        apply Ascii.eqb_eq in Ex; apply Ascii.eqb_eq in Ey; subst x y.
        destruct (IH t ltac:(simpl in Hlen; lia) Ht) as (I1 & I2 & I3).
        rewrite Ascii.eqb_refl in Hy; cbn [andb] in Hy.
        rewrite !has_pair_cons, I1, I2, I3, Hy, Ascii.eqb_refl.
        change (Ascii.eqb "," " ") with false.
        repeat split.
      * destruct (IH (String y t) ltac:(simpl in Hlen |- *; lia) Hyt) as (I1 & I2 & I3).
        rewrite !has_pair_cons, I1, I2, !I3; cbn [starts_with].
        rewrite Em, Hxy; repeat split.
Qed.

(** After [replace(' ,', ',')] no comma follows a space, and none is
    followed by one, when the text had no comma followed by a space and no
    two spaces in a row. *)
Lemma second_replacement (n : nat) :
  forall s : string,
    String.length s <= n ->
    has_pair "," " " s = false ->
    has_pair " " " " s = false ->
    has_pair "," " " (replace " ," "," s) = false
    /\ has_pair " " "," (replace " ," "," s) = false
    /\ (starts_with " " (replace " ," "," s) = true -> starts_with " " s = true)
    /\ (starts_with "," (replace " ," "," s) = true ->
        starts_with "," s = true \/ prefix " ," s = true).
Proof.
  induction n as [|n IH]; intros s Hlen Hc Hs.
  - destruct s; [|simpl in Hlen; lia]; repeat split; try discriminate.
  - destruct s as [|x [|y t]]; [repeat split; discriminate| |].
    + change " ,"%string with (String " " (String "," "")).
      change ","%string with (String "," "").
      rewrite replace_pair_one; repeat split; auto.
    + change " ,"%string with (String " " (String "," "")) at 1 2 3 4.
      change ","%string with (String "," "") at 1 2 3 4.
      rewrite replace_pair_two.
      rewrite has_pair_cons in Hs; apply orb_false_iff in Hs as [Hxy Hyt].
      rewrite has_pair_cons in Hc; apply orb_false_iff in Hc as [Cxy Cyt].
      pose proof Hyt as Hyt'; pose proof Cyt as Cyt'.
      rewrite has_pair_cons in Hyt'; apply orb_false_iff in Hyt' as [Hy Ht].
      rewrite has_pair_cons in Cyt'; apply orb_false_iff in Cyt' as [Cy Ct].
      cbn [starts_with] in Hxy, Cxy.
      destruct (Ascii.eqb x " " && Ascii.eqb y ",") eqn:Em.
      * apply andb_true_iff in Em as [Ex Ey].
        apply Ascii.eqb_eq in Ex; apply Ascii.eqb_eq in Ey; subst x y.
        destruct (IH t ltac:(simpl in Hlen; lia) Ct Ht) as (I1 & I2 & I3 & I4).
        rewrite !has_pair_cons, I1, I2, Ascii.eqb_refl.
        change (Ascii.eqb "," " ") with false.
        rewrite Ascii.eqb_refl in Cy; cbn [andb orb starts_with] in Cy |- *.
        change (Ascii.eqb "," " ") with false.
        repeat split; try discriminate.
        -- destruct (starts_with " " (replace _ _ t)) eqn:E; [|reflexivity].
           rewrite (I3 eq_refl) in Cy; discriminate.
        -- intros _; right.
           change " ,"%string with (String " " (String "," "")).
           rewrite prefix_pair, !Ascii.eqb_refl; reflexivity.
      * destruct (IH (String y t) ltac:(simpl in Hlen |- *; lia) Cyt Hyt)
          as (I1 & I2 & I3 & I4).
        rewrite !has_pair_cons, I1, I2; cbn [starts_with] in *.
        repeat split.
        -- destruct (Ascii.eqb x ","); [|reflexivity]; cbn [andb orb].
           destruct (starts_with " " (replace _ _ (String y t))) eqn:E; [|reflexivity].
           rewrite (I3 eq_refl) in Cxy; discriminate.
        -- destruct (Ascii.eqb x " ") eqn:Ex; [|reflexivity]; cbn [andb orb] in *.
           destruct (starts_with "," (replace _ _ (String y t))) eqn:E; [|reflexivity].
           destruct (I4 eq_refl) as [H|H]; [congruence|].
           cbn [prefix] in H; destruct (ascii_dec " " y) as [<-|]; [|discriminate].
           discriminate Hxy.
        -- auto.
        -- auto.
Qed.

Lemma starts_with_lstrip (p : ascii -> bool) (c : ascii) (s : string) :
  p c = false -> starts_with c (lstrip_with p s) = true -> contains_char c s = true.
Proof.
  intros Hp; induction s as [|x t IH]; cbn [lstrip_with contains_char]; [discriminate|].
  destruct (p x); [intros H; rewrite (IH H); apply orb_true_r|].
  cbn [starts_with]; intros ->; reflexivity.
Qed.

Lemma has_pair_lstrip (p : ascii -> bool) (a b : ascii) (s : string) :
  has_pair a b s = false -> has_pair a b (lstrip_with p s) = false.
Proof.
  induction s as [|x t IH]; [reflexivity|].
  intros H; cbn [lstrip_with]; destruct (p x); [|exact H].
  rewrite has_pair_cons in H; apply orb_false_iff in H as [_ H]; auto.
Qed.

Lemma starts_with_rstrip (p : ascii -> bool) (c : ascii) (s : string) :
  starts_with c (rstrip_with p s) = true -> starts_with c s = true.
Proof.
  destruct s as [|x t]; [discriminate|].
  cbn [rstrip_with]; destruct (rstrip_with p t); [destruct (p x)|];
    cbn [starts_with]; auto; discriminate.
Qed.

Lemma has_pair_rstrip (p : ascii -> bool) (a b : ascii) (s : string) :
  has_pair a b s = false -> has_pair a b (rstrip_with p s) = false.
Proof.
  induction s as [|x t IH]; [reflexivity|].
  intros H; rewrite has_pair_cons in H; apply orb_false_iff in H as [Hx Ht].
  specialize (IH Ht); cbn [rstrip_with].
  destruct (rstrip_with p t) as [|y t'] eqn:E; [destruct (p x); reflexivity|].
  rewrite has_pair_cons, IH, orb_false_r.
  destruct (Ascii.eqb x a); [|reflexivity]; cbn [andb] in *.
  destruct (starts_with b (String y t')) eqn:Es; [|reflexivity].
  rewrite <- E in Es; rewrite (starts_with_rstrip _ _ _ Es) in Hx; discriminate.
Qed.

Lemma has_pair_split (sep a b : ascii) (s : string) :
  has_pair a b s = false ->
  forall row, In row (split sep s) -> has_pair a b row = false.
Proof.
  induction s as [|x t IH]; intros H row Hin.
  - destruct Hin as [<-|[]]; reflexivity.
  - rewrite has_pair_cons in H; apply orb_false_iff in H as [Hx Ht].
    specialize (IH Ht); cbn [split] in Hin.
    destruct (Ascii.eqb x sep).
    + destruct Hin as [<-|Hin]; [reflexivity|auto].
    + pose proof (split_not_nil sep t) as Hne.
      destruct (split sep t) as [|h r] eqn:E; [congruence|].
      destruct Hin as [<-|Hin]; [|apply IH; right; exact Hin].
      rewrite has_pair_cons, (IH h (or_introl eq_refl)), orb_false_r.
      destruct (Ascii.eqb x a); [|reflexivity]; cbn [andb] in *.
      destruct (starts_with b h) eqn:Es; [|reflexivity].
      assert (Hb : starts_with b t = true); [|rewrite Hb in Hx; discriminate].
      clear - E Es; destruct t as [|y t]; cbn [split] in E.
      * injection E as <- <-; discriminate.
      * destruct (Ascii.eqb y sep).
        -- injection E as <- <-; discriminate.
        -- destruct (split sep t); injection E as <- <-; exact Es.
Qed.

(** X17: when the text has no two spaces in a row, the two replacements
    of [get_data] leave no comma with a space before or after it, neither
    in the text nor in any of the rows that the cleaner goes through. *)
Theorem no_space_is_left_beside_a_comma :
  forall data : string,
    has_pair " " " " data = false ->
    (has_pair "," " " (normalized data) = false
     /\ has_pair " " "," (normalized data) = false)
    /\ forall row, In row (lines_of data) ->
         has_pair "," " " row = false /\ has_pair " " "," row = false.
Proof.
  intros data Hd.
  destruct (first_replacement _ data (le_n _) Hd) as (F1 & F2 & _).
  destruct (second_replacement _ _ (le_n _) F1 F2) as (S1 & S2 & _).
  split; [split; assumption|].
  intros row Hin; unfold lines_of, strip, strip_with in Hin.
  split; refine (has_pair_split _ _ _ _ _ row Hin);
    apply has_pair_rstrip, has_pair_lstrip; assumption.
Qed.

Lemma no_space_is_left_beside_a_comma_witness :
  has_pair "," " " (normalized "39 , State-gov, 77516") = false
  /\ has_pair " " "," (normalized "39 , State-gov, 77516") = false.
Proof.
  refine (proj1 (no_space_is_left_beside_a_comma "39 , State-gov, 77516" _)).
  vm_compute; reflexivity.
Defined.
